(** * ipod-format: the conversion pipeline, embedded and verified

    A shallow embedding of the Python sources of the ipod-format
    repository (planner, artwork resolver, tagging, validation, file
    operations and the per-track pipeline of the command line front end),
    followed by the properties of the specification that concern them.

    Conventions of the embedding.
    - A Python function that can raise returns a [result]; one that also
      touches the file system is a computation in the monad [M], which
      threads the file system and keeps it when an exception is raised
      (what was written before the exception stays written).
    - The file system [FS] maps the paths of the regular files to what
      the libraries read of them: ID3 block, generic tag mapping, decoded
      picture, remaining payload.
    - The external collaborators are parameters.  [Tools] holds ffmpeg
      and ffprobe: how the process ended, what ffmpeg left at its output
      file, what ffprobe printed.  [Tree] holds what the operating system
      tells the planner about the directory tree.  The values of
      [uuid.uuid4] are a sequence [nat → string].  The embedding
      quantifies over all of them.
    - Paths are POSIX paths, [suffix] and [stem] those of CPython 3.11 to
      3.13.  Strings are byte strings; [lower] folds the ASCII letters
      only, which agrees with [str.lower] on every comparison the
      sources make (all their literals are ASCII).
    - Durations are binary64 floats, as Python's are. *)

From Stdlib Require Import Ascii Floats.
From stdpp Require Import base option list gmap strings pretty sorting.

Set Warnings "-clear-no-such-hyp".

(** * Part I: the embedding *)

(** ** Exceptions and results *)

(** The exception classes the sources raise or meet.  [ProcError] is the
    [RuntimeError] subclass of utils_ffmpeg.py; [PlanError] derives from
    [IpodPrepError]; [FileNotFoundError] derives from [OSError]. *)
Inductive exn : Type :=
| ProcError (msg : string)
| PlanError (msg : string)
| ValueError (msg : string)
| FileNotFoundError
| OSError (msg : string)
| ID3NoHeaderError
| MutagenError
| UnidentifiedImageError
| KeyError
| IndexError
| AssertionError.

Inductive result (A : Type) : Type :=
| Ok (a : A)
| Raise (e : exn).
Arguments Ok {A} a.
Arguments Raise {A} e.

Definition is_Ok {A} (r : result A) : bool :=
  match r with Ok _ => true | Raise _ => false end.

Definition is_ProcError (e : exn) : bool :=
  match e with ProcError _ => true | _ => false end.

(** [except IpodPrepError] in [main]: of the classes above only
    [PlanError] is one. *)
Definition is_IpodPrepError (e : exn) : bool :=
  match e with PlanError _ => true | _ => false end.

Definition rbind {A B} (r : result A) (k : A → result B) : result B :=
  match r with Ok a => k a | Raise e => Raise e end.

(** ** Strings and pathlib *)

Module Str.

Definition lower_ascii (c : ascii) : ascii :=
  let n := Ascii.N_of_ascii c in
  if ((65 <=? n) && (n <=? 90))%N then Ascii.ascii_of_N (n + 32) else c.

Fixpoint lower (s : string) : string :=
  match s with
  | EmptyString => EmptyString
  | String c s' => String (lower_ascii c) (lower s')
  end.

(** [s.rfind(c)], [None] standing for -1. *)
Fixpoint rfind (c : ascii) (s : string) : option nat :=
  match s with
  | EmptyString => None
  | String a s' =>
      match rfind c s' with
      | Some i => Some (S i)
      | None => if Ascii.eqb a c then Some 0 else None
      end
  end.

(** [s[i:]] and [s[:i]]. *)
Fixpoint drop (i : nat) (s : string) : string :=
  match i, s with
  | O, _ => s
  | S i', String _ s' => drop i' s'
  | S _, EmptyString => EmptyString
  end.

Fixpoint take (i : nat) (s : string) : string :=
  match i, s with
  | O, _ => EmptyString
  | S i', String a s' => String a (take i' s')
  | S _, EmptyString => EmptyString
  end.

Definition startswith (p s : string) : bool := String.prefix p s.

(** [sub in s]. *)
Definition contains (sub s : string) : bool :=
  match String.index 0 sub s with Some _ => true | None => false end.

(** Truthiness of a [str]. *)
Definition nonempty (s : string) : bool :=
  match s with EmptyString => false | _ => true end.

Fixpoint join (sep : string) (l : list string) : string :=
  match l with
  | [] => ""
  | [x] => x
  | x :: l' => x +:+ sep +:+ join sep l'
  end.

End Str.

(** A resolved path is the list of its components below the root, the
    file name last (POSIX flavour).  No component is empty or holds a
    separator. *)
Abbreviation Path := (list string).

Module PurePath.

(** [p.name]: the final component, [''] for the root. *)
Definition name (p : Path) : string := List.last p "".

(** [p.parent]: the root is its own parent. *)
Definition parent (p : Path) : Path := List.removelast p.

(** [p / n] for a plain file name [n]. *)
Definition joinpath (p : Path) (n : string) : Path := p ++ [n].

(** [str(p)]. *)
Definition str (p : Path) : string := "/" +:+ Str.join "/" p.

(** [PurePath.suffix] and [PurePath.stem] (CPython 3.11 to 3.13): the
    part of the name from its last dot, provided that dot is neither the
    first nor the last character. *)
Definition split_at_dot (nm : string) : option nat :=
  match Str.rfind "." nm with
  | Some i =>
      if decide (0 < i ∧ i < String.length nm - 1) then Some i else None
  | None => None
  end.

Definition suffix_of (nm : string) : string :=
  match split_at_dot nm with
  | Some i => Str.drop i nm
  | None => ""
  end.

Definition stem_of (nm : string) : string :=
  match split_at_dot nm with
  | Some i => Str.take i nm
  | None => nm
  end.

Definition suffix (p : Path) : string := suffix_of (name p).
Definition stem (p : Path) : string := stem_of (name p).

(** [p.with_name(n)]: [ValueError] when [p] has an empty name.  (The new
    names the sources build are never empty and hold no separator, so
    pathlib's check of the new name is not modelled.) *)
Definition with_name (p : Path) (n : string) : result Path :=
  if decide (name p = "") then Raise (ValueError "has an empty name")
  else Ok (parent p ++ [n]).

(** pathlib's check of the argument of [with_suffix]. *)
Definition valid_suffix (s : string) : bool :=
  negb (Str.contains "/" s)
  && (negb (Str.nonempty s) || Str.startswith "." s)
  && negb (String.eqb s ".").

(** [p.with_suffix(s)]: the old suffix, if any, is cut off the name and
    [s] appended. *)
Definition with_suffix (p : Path) (s : string) : result Path :=
  if negb (valid_suffix s) then Raise (ValueError "Invalid suffix")
  else if decide (name p = "") then Raise (ValueError "has an empty name")
  else Ok (parent p ++ [stem p +:+ s]).

End PurePath.

(** ** models.py *)

Inductive DeleteMode := trash | hard.
Inductive CollisionPolicy := overwrite | skip | version.
Inductive SampleRatePolicy := sr_44100 | sr_preserve.
Inductive ArtFormat := png | jpeg.
Inductive ArtMode := center_crop | pad.

Global Instance DeleteMode_eq_dec : EqDecision DeleteMode.
Proof. solve_decision. Defined.
Global Instance CollisionPolicy_eq_dec : EqDecision CollisionPolicy.
Proof. solve_decision. Defined.
Global Instance SampleRatePolicy_eq_dec : EqDecision SampleRatePolicy.
Proof. solve_decision. Defined.
Global Instance ArtFormat_eq_dec : EqDecision ArtFormat.
Proof. solve_decision. Defined.

(** [Settings], with the fields some function reads.  [art_format] ranges
    over the two values config.py accepts. *)
Record Settings := {
  sample_rate : SampleRatePolicy;
  strip_frames : list string;
  art_target_px : Z;
  art_format : ArtFormat;
  art_mode : ArtMode;
  replace_in_place : bool;
  delete_mode : DeleteMode;
  collision : CollisionPolicy;
  ffmpeg_path : string;
}.

(** [TrackPlan].  The fields it shares with [Settings] carry the prefix
    [plan_]; [bitrate_mode] and [art_source] hold a constant each and are
    left out. *)
Record TrackPlan := {
  src : Path;
  src_codec : string;
  needs_encode : bool;
  target : Path;
  temp_path : Path;
  plan_delete_mode : DeleteMode;
  plan_collision : CollisionPolicy;
  plan_sample_rate : SampleRatePolicy;
  notes : list string;
}.

Inductive ArtKind := folder | embedded | none.

Global Instance ArtKind_eq_dec : EqDecision ArtKind.
Proof. solve_decision. Defined.

Record ArtSource := {
  kind : ArtKind;
  file_path : option Path;
  stream_index : option Z;
  detail : string;
}.

(** ** Files and the file system *)

(** What Pillow reports of a picture once [Image.open] and [load] have
    succeeded: [format] and [size]. *)
Record Image := {
  im_format : string;
  im_size : Z * Z;
}.

(** Picture bytes, represented by what Pillow makes of them: [None] when
    it cannot identify or decode them. *)
Abbreviation Picture := (option Image).

(** An ID3 frame as mutagen holds it. *)
Inductive Frame : Type :=
| TextFrame (text : string)
| APIC (mime : string) (type : Z) (desc : string) (data : Picture)
| OtherFrame (repr : string).

(** A tag value as a mutagen container hands it out through
    [tags.get(k)]: a string, a number, or a list or tuple of such. *)
#[warnings="-register-all"] Inductive pyval : Type :=
| PNone
| PStr (s : string)
| PInt (z : Z)
| PList (l : list pyval)
| PTuple (l : list pyval).

(** A file, by what the libraries read of it: the ID3v2 block as
    [mutagen.id3.ID3] loads it ([None]: no header), the tag mapping of
    [mutagen.File(f).tags] ([None]: mutagen does not know the format;
    an empty mapping is falsy), the picture Pillow sees when the file is
    an image, and the remaining payload. *)
Record File := {
  id3 : option (gmap string Frame);
  filetags : option (gmap string pyval);
  picture : Picture;
  payload : list N;
}.

Abbreviation FS := (gmap Path File).

(** Computations over the file system that may raise. *)
Definition M (A : Type) : Type := FS → result A * FS.

Definition ret {A} (a : A) : M A := λ fs, (Ok a, fs).
Definition raise {A} (e : exn) : M A := λ fs, (Raise e, fs).
Definition bind {A B} (m : M A) (k : A → M B) : M B :=
  λ fs, match m fs with
        | (Ok a, fs') => k a fs'
        | (Raise e, fs') => (Raise e, fs')
        end.
Definition lift {A} (r : result A) : M A := λ fs, (r, fs).

(** [try: m except Exception: pass]. *)
Definition try_pass (m : M unit) : M unit :=
  λ fs, match m fs with (_, fs') => (Ok tt, fs') end.

Declare Scope M_scope.
Delimit Scope M_scope with M.
Notation "'let*' x ':=' m 'in' k" := (bind m (λ x, k))
  (at level 10, x name, m at level 100, k at level 200) : M_scope.

Module Os.

(** [p.exists()]. Only regular files are kept in the model. *)
Definition exists_ (p : Path) : M bool := λ fs, (Ok (bool_decide (is_Some (fs !! p))), fs).

(** [os.replace(a, b)]: one rename; [b] is replaced if it is there. *)
Definition replace (a b : Path) : M unit :=
  λ fs, match fs !! a with
        | Some f => (Ok tt, <[b := f]> (delete a fs))
        | None => (Raise FileNotFoundError, fs)
        end.

(** [p.unlink()].  The modelled tree holds regular files that the
    process may remove: a refusal of the operating system (a file in
    use, a directory without write permission) is outside it. *)
Definition unlink (p : Path) : M unit :=
  λ fs, match fs !! p with
        | Some _ => (Ok tt, delete p fs)
        | None => (Raise FileNotFoundError, fs)
        end.

(** [shutil.copy2(a, b)]: a file is not copied onto itself
    ([SameFileError], an [OSError]). *)
Definition copy2 (a b : Path) : M unit :=
  λ fs, match fs !! a with
        | Some f =>
            if decide (a = b)
            then (Raise (OSError "are the same file"), fs)
            else (Ok tt, <[b := f]> fs)
        | None => (Raise FileNotFoundError, fs)
        end.

(** [send2trash(str(p))] of the send2trash package: the file leaves its
    place for the recycle bin, which is outside the modelled tree; a path
    that does not exist is an error ([OSError], or its subclass
    [FileNotFoundError] in recent releases). *)
Definition send2trash (p : Path) : M unit :=
  λ fs, match fs !! p with
        | Some _ => (Ok tt, delete p fs)
        | None => (Raise (OSError "File not found"), fs)
        end.

End Os.

(** ** fsops.py *)

Module Fsops.

Local Open Scope M_scope.

(** The candidate of round [i]: [path.with_name(f"{base} ({i}){ext}")]. *)
Definition candidate (path : Path) (i : N) : result Path :=
  PurePath.with_name path
    (PurePath.stem path +:+ " (" +:+ pretty i +:+ ")" +:+ PurePath.suffix path).

(** The [while True] loop of [_versioned_name], from counter [i], with
    [fuel] further rounds allowed after this one; [None] when they are
    used up. *)
Fixpoint _versioned_loop (fuel : nat) (fs : FS) (path : Path) (i : N)
  : option (result Path) :=
  match candidate path i with
  | Raise e => Some (Raise e)
  | Ok cand =>
      if bool_decide (is_Some (fs !! cand)) then
        match fuel with
        | O => None
        | S fuel' => _versioned_loop fuel' fs path (i + 1)
        end
      else Some (Ok cand)
  end.

(** [_versioned_name(path)].  The loop runs as long as candidates exist;
    one round more than there are files always suffices (see
    [_versioned_name_terminates]), so the default branch is never
    taken. *)
Definition _versioned_name (path : Path) : M Path :=
  λ fs, match _versioned_loop (size fs) fs path 2 with
        | Some r => (r, fs)
        | None => (Raise (OSError "unreachable"), fs)
        end.

Definition place (temp target : Path) : M Path :=
  let* _ := Os.replace temp target in
  ret target.

Definition atomic_commit (plan : TrackPlan) : M Path :=
  let target := target plan in
  let* ex := Os.exists_ target in
  if ex then
    match plan_collision plan with
    | skip => ret target
    | version =>
        let* target := _versioned_name target in
        place (temp_path plan) target
    | overwrite => place (temp_path plan) target
    end
  else place (temp_path plan) target.

Definition delete_source (plan : TrackPlan) : M unit :=
  match plan_delete_mode plan with
  | trash => Os.send2trash (src plan)
  | hard =>
      λ fs, match Os.unlink (src plan) fs with
            | (Raise FileNotFoundError, fs') => (Ok tt, fs')
            | other => other
            end
  end.

(** Modelled from the spec: [cleanup_paths], which cli.py imports from
    fsops but the available fsops.py does not define.  "All temporary
    artifacts created for this plan are removed best-effort; cleanup
    failures are logged, never escalated." *)
Fixpoint cleanup_paths (paths : list Path) : M unit :=
  match paths with
  | [] => ret tt
  | p :: rest => let* _ := try_pass (Os.unlink p) in cleanup_paths rest
  end.

End Fsops.

(** ** Python's stable sort *)

Module PySort.

(** [list.sort] compares with [<] only and is stable.  Insertion from the
    right, each element going before the first one that is not smaller,
    computes the stable sorted arrangement. *)
Fixpoint insert {A} (lt : A → A → bool) (x : A) (l : list A) : list A :=
  match l with
  | [] => [x]
  | y :: l' => if lt y x then y :: insert lt x l' else x :: l
  end.

Definition sort {A} (lt : A → A → bool) (l : list A) : list A :=
  foldr (insert lt) [] l.

(** [<] on [str]. *)
Definition str_lt (a b : string) : bool := String.ltb a b.

(** [<] on a pair of strings, as tuples compare. *)
Definition pair_lt (x y : string * string) : bool :=
  str_lt x.1 y.1 || (String.eqb x.1 y.1 && str_lt x.2 y.2).

(** [<] on paths: pathlib compares the lists of components. *)
Fixpoint path_lt (p q : Path) : bool :=
  match p, q with
  | _, [] => false
  | [], _ :: _ => true
  | a :: p', b :: q' => str_lt a b || (String.eqb a b && path_lt p' q')
  end.

End PySort.

(** ** planner.py *)

(** The directory tree as the operating system reports it during one
    planning run. *)
Record Tree := {
  (** [p.resolve()] *)
  resolve : Path → Path;
  (** [p.is_file()] and [p.is_dir()] of a resolved path *)
  is_file : Path → bool;
  is_dir : Path → bool;
  (** [os.walk(p)]: the visited directories in order, each with the
      names of its files (the sub-directory lists are not used) *)
  walk : Path → list (Path * list string);
}.

Module Planner.

Definition _AUDIO_EXTS : gmap string string :=
  list_to_map
    [ (".flac", "flac"); (".alac", "alac"); (".m4a", "m4a"); (".aac", "m4a");
      (".wav", "wav"); (".aiff", "aiff"); (".aif", "aiff"); (".ogg", "ogg");
      (".oga", "ogg"); (".mp3", "mp3") ].

(** [ext in _AUDIO_EXTS] *)
Definition is_audio_ext (ext : string) : bool :=
  bool_decide (is_Some (_AUDIO_EXTS !! ext)).

(** The body of the [for p in paths] loop: what one input contributes
    to [files]. *)
Definition files_of_input (os : Tree) (p : Path) : list Path :=
  let p := resolve os p in
  if is_file os p then
    if is_audio_ext (Str.lower (PurePath.suffix p)) then [p] else []
  else if is_dir os p then
    flat_map
      (λ '(root, filenames),
         flat_map
           (λ name,
              let ext := Str.lower (PurePath.suffix_of name) in
              if is_audio_ext ext then [PurePath.joinpath root name] else [])
           filenames)
      (walk os p)
  else [].

(** [files] before [files.sort()]. *)
Definition discovered (os : Tree) (paths : list Path) : list Path :=
  flat_map (files_of_input os) paths.

Definition _iter_audio_files (os : Tree) (paths : list Path) : list Path :=
  PySort.sort PySort.path_lt (discovered os paths).

(** [uuid] is the value of [uuid.uuid4().hex] drawn by the call. *)
Definition _temp_path_for (target_dir : Path) (basename uuid : string) : Path :=
  PurePath.joinpath target_dir (".~" +:+ basename +:+ "." +:+ uuid +:+ ".tmp").

(** The body of the [for src in audio_files] loop. *)
Definition plan_for (settings : Settings) (uuid : string) (src : Path)
  : result TrackPlan :=
  let ext := Str.lower (PurePath.suffix src) in
  match _AUDIO_EXTS !! ext with
  | None => Raise KeyError
  | Some src_codec =>
      let basename := PurePath.stem src in
      rbind (PurePath.with_suffix src ".mp3") (λ target,
      let needs_encode := negb (String.eqb src_codec "mp3") in
      let temp := _temp_path_for (PurePath.parent src) basename uuid in
      Ok {| src := src;
            src_codec := src_codec;
            needs_encode := needs_encode;
            target := target;
            temp_path := temp;
            plan_delete_mode := delete_mode settings;
            plan_collision := collision settings;
            plan_sample_rate := sample_rate settings;
            notes := [ if needs_encode
                       then "will encode to 320 CBR, 44.1 kHz"
                       else "will copy audio (already MP3)" ] |})
  end.

(** The loop itself; [uuid4 i] is the value of the [i]-th draw of the
    run, [i] the number of draws made so far. *)
Fixpoint plans_from (settings : Settings) (uuid4 : nat → string) (i : nat)
    (audio_files : list Path) : result (list TrackPlan) :=
  match audio_files with
  | [] => Ok []
  | src :: rest =>
      rbind (plan_for settings (uuid4 i) src) (λ plan,
      rbind (plans_from settings uuid4 (S i) rest) (λ plans,
      Ok (plan :: plans)))
  end.

(** The sort key [(str(p.src.parent), p.src.name)]. *)
Definition plan_key (p : TrackPlan) : string * string :=
  (PurePath.str (PurePath.parent (src p)), PurePath.name (src p)).

Definition plan_lt (p q : TrackPlan) : bool :=
  PySort.pair_lt (plan_key p) (plan_key q).

Definition build_run_plan (os : Tree) (uuid4 : nat → string)
    (input_paths : list Path) (settings : Settings) : result (list TrackPlan) :=
  let audio_files := _iter_audio_files os input_paths in
  match audio_files with
  | [] => Raise (PlanError "No supported audio files found.")
  | _ =>
      rbind (plans_from settings uuid4 0 audio_files) (λ plans,
      Ok (PySort.sort plan_lt plans))
  end.

End Planner.

(** ** utils_ffmpeg.py *)

(** How a child process ended: [subprocess.run(..., check=True)] returns,
    raises [CalledProcessError], or raises [FileNotFoundError] when the
    binary is not there. *)
Inductive ProcStatus : Type :=
| Exited0
| ExitedNonZero (stderr : string)
| NotFound.

(** A value read out of ffprobe's JSON and converted with [int()] or
    [float()]: the key may be missing, or hold something the conversion
    rejects. *)
Inductive jfield (A : Type) : Type :=
| Missing
| Unconvertible
| Val (a : A).
Arguments Missing {A}.
Arguments Unconvertible {A}.
Arguments Val {A} a.

(** One entry of ["streams"]. *)
Record ProbeStream := {
  st_index : jfield Z;
  (** [disposition.attached_pic], when there is a disposition holding it *)
  st_attached_pic : option Z;
  st_codec_name : option string;
  st_width : option Z;
  st_height : option Z;
  st_bit_rate : jfield Z;
}.

(** The parsed document: [data["format"]["duration"]] and
    [data["streams"]] ([None]: no such key). *)
Record ProbeData := {
  pd_duration : jfield float;
  pd_streams : option (list ProbeStream);
}.

(** The external tools.  [ffmpeg path args fs] tells how the process
    ended and what it left at its output file, the last argument
    ([None]: nothing written).  [ffprobe path args fs] tells how the
    process ended and what its standard output parses to ([None]: not
    JSON); the binary is [path] with "ffmpeg" replaced by "ffprobe", and
    it writes nothing. *)
Record Tools := {
  ffmpeg : string → list string → FS → ProcStatus * option File;
  ffprobe : string → list string → FS → ProcStatus * option ProbeData;
}.

Module Utils_ffmpeg.

Definition run_ffprobe_json (tools : Tools) (settings : Settings)
    (args : list string) : M ProbeData :=
  λ fs, match ffprobe tools (ffmpeg_path settings) args fs with
        | (NotFound, _) =>
            (Raise (ProcError "ffprobe not found (check PATH/FFMPEG_PATH)"), fs)
        | (ExitedNonZero stderr, _) =>
            (Raise (ProcError ("ffprobe failed: " +:+ stderr)), fs)
        | (Exited0, None) =>
            (Raise (ProcError "ffprobe did not return JSON"), fs)
        | (Exited0, Some data) => (Ok data, fs)
        end.

(** [out] is the path whose rendering ends [args]. *)
Definition run_ffmpeg (tools : Tools) (settings : Settings)
    (args : list string) (out : Path) : M unit :=
  λ fs,
    let '(status, written) := ffmpeg tools (ffmpeg_path settings) args fs in
    let fs' := match written with Some f => <[out := f]> fs | None => fs end in
    match status with
    | NotFound =>
        (Raise (ProcError "ffmpeg not found (check PATH/FFMPEG_PATH)"), fs')
    | ExitedNonZero stderr =>
        (Raise (ProcError ("ffmpeg failed: " +:+ stderr)), fs')
    | Exited0 => (Ok tt, fs')
    end.

End Utils_ffmpeg.

(** ** artwork.py *)

Module Artwork.

Local Open Scope M_scope.

Definition _FOLDER_CANDIDATES : list string :=
  ["cover.jpg"; "cover.jpeg"; "cover.png";
   "folder.jpg"; "folder.jpeg"; "folder.png"].

Definition _find_folder_art (directory : Path) : M (option Path) :=
  λ fs,
    (Ok (List.find (λ cand, bool_decide (is_Some (fs !! cand)))
           (map (PurePath.joinpath directory) _FOLDER_CANDIDATES)), fs).

(** [int(st.get("index", 0))] *)
Definition int_or_0 (f : jfield Z) : result Z :=
  match f with
  | Missing => Ok 0%Z
  | Val z => Ok z
  | Unconvertible => Raise (ValueError "invalid literal for int()")
  end.

(** An optional number inside an f-string. *)
Definition fmt_opt (o : option Z) : string :=
  match o with Some z => pretty z | None => "None" end.

Definition embedded_art (st : ProbeStream) : result ArtSource :=
  rbind (int_or_0 (st_index st)) (λ idx,
  let detail :=
    "embedded:0:" +:+ pretty idx +:+ " (" +:+ default "?" (st_codec_name st)
      +:+ " " +:+ fmt_opt (st_width st) +:+ "x" +:+ fmt_opt (st_height st) +:+ ")" in
  Ok {| kind := embedded; file_path := None;
        stream_index := Some idx; detail := detail |}).

Definition no_art : ArtSource :=
  {| kind := none; file_path := None; stream_index := None; detail := "no art" |}.

(** The arguments of the probe for picture streams. *)
Definition stream_args (path : Path) : list string :=
  ["-v"; "error"; "-select_streams"; "v"; "-show_entries";
   "stream=index,disposition,codec_name,width,height"; "-of"; "json";
   PurePath.str path].

(** The body of the [try] block of [detect_art_source]. *)
Definition probe_embedded (tools : Tools) (plan : TrackPlan) (settings : Settings)
  : M (option ArtSource) :=
  let* data :=
    Utils_ffmpeg.run_ffprobe_json tools settings (stream_args (src plan)) in
  let streams := default [] (pd_streams data) in
  match List.find (λ st, bool_decide (st_attached_pic st = Some 1%Z)) streams with
  | Some st => let* a := lift (embedded_art st) in ret (Some a)
  | None =>
      match streams with
      | st0 :: _ => let* a := lift (embedded_art st0) in ret (Some a)
      | [] => ret None
      end
  end.

Definition detect_art_source (tools : Tools) (plan : TrackPlan) (settings : Settings)
  : M ArtSource :=
  let* found := _find_folder_art (PurePath.parent (src plan)) in
  match found with
  | Some cover =>
      ret {| kind := folder; file_path := Some cover;
             stream_index := None; detail := PurePath.name cover |}
  | None =>
      λ fs, match probe_embedded tools plan settings fs with
            | (Ok (Some art), fs') => (Ok art, fs')
            | (Ok None, fs') => (Ok no_art, fs')
            | (Raise (ProcError _), fs') => (Ok no_art, fs')
            | (Raise e, fs') => (Raise e, fs')
            end
  end.

Definition _temp_art_path (plan : TrackPlan) (suffix : string) : result Path :=
  PurePath.with_suffix (temp_path plan) suffix.

Definition extract_art_to_file (tools : Tools) (plan : TrackPlan)
    (settings : Settings) (art : ArtSource) : M (option Path) :=
  match kind art, file_path art, stream_index art with
  | none, _, _ => ret None
  | folder, Some file_path, _ =>
      let* out_path :=
        lift (_temp_art_path plan (Str.lower (PurePath.suffix file_path))) in
      let* _ := Os.copy2 file_path out_path in
      ret (Some out_path)
  | embedded, _, Some stream_index =>
      let* out_path := lift (_temp_art_path plan ".art_src.png") in
      let* _ :=
        Utils_ffmpeg.run_ffmpeg tools settings
          ["-y"; "-i"; PurePath.str (src plan);
           "-map"; "0:" +:+ pretty stream_index;
           "-frames:v"; "1"; PurePath.str out_path] out_path in
      ret (Some out_path)
  | _, _, _ => ret None
  end.

Definition normalize_art_to_jpeg_500 (tools : Tools) (plan : TrackPlan)
    (settings : Settings) (src_image : option Path) : M (option Path) :=
  match src_image with
  | None => ret None
  | Some src_image =>
      let* ex := Os.exists_ src_image in
      if negb ex then ret None
      else
        let* out_jpeg := lift (_temp_art_path plan ".cover_500.jpg") in
        let px := pretty (art_target_px settings) in
        let vf :=
          match art_mode settings with
          | center_crop =>
              "scale=" +:+ px +:+ ":" +:+ px
                +:+ ":force_original_aspect_ratio=increase,"
                +:+ "crop=" +:+ px +:+ ":" +:+ px
          | pad =>
              "scale=" +:+ px +:+ ":" +:+ px
                +:+ ":force_original_aspect_ratio=decrease,"
                +:+ "pad=" +:+ px +:+ ":" +:+ px +:+ ":(ow-iw)/2:(oh-ih)/2"
          end in
        let* _ :=
          Utils_ffmpeg.run_ffmpeg tools settings
            ["-y"; "-i"; PurePath.str src_image; "-vf"; vf;
             PurePath.str out_jpeg] out_jpeg in
        ret (Some out_jpeg)
  end.

End Artwork.

(** ** mutagen and Pillow, as the sources use them *)

Abbreviation ID3 := (gmap string Frame).

Module Mutagen.

(** A frame of the given name: its key is the name, or the name followed
    by a colon and a description. *)
Definition has_name (name key : string) : bool :=
  String.eqb key name || Str.startswith (name +:+ ":") key.

(** [tags.getall(name)]: all frames with the given name. *)
Definition getall (name : string) (tags : ID3) : list Frame :=
  (map_to_list (filter (λ kv, has_name name kv.1 = true) tags)).*2.

(** [tags.delall(name)] *)
Definition delall (name : string) (tags : ID3) : ID3 :=
  filter (λ kv, has_name name kv.1 = false) tags.

(** [tags.add(frame)], [key] being the frame's hash key. *)
Definition add (key : string) (frame : Frame) (tags : ID3) : ID3 :=
  <[key := frame]> tags.

(** [ID3(path)] *)
Definition load (path : Path) : M ID3 :=
  λ fs, match fs !! path with
        | None => (Raise MutagenError, fs)
        | Some f =>
            match id3 f with
            | None => (Raise ID3NoHeaderError, fs)
            | Some tags => (Ok tags, fs)
            end
        end.

(** [tags.save(path, v2_version=3)]: the tag block of the file is
    replaced, the rest of the file kept; a missing file is created. *)
Definition save (tags : ID3) (path : Path) : M unit :=
  λ fs,
    let f := default {| id3 := None; filetags := None;
                        picture := None; payload := [] |} (fs !! path) in
    (Ok tt, <[path := {| id3 := Some tags; filetags := filetags f;
                         picture := picture f; payload := payload f |}]> fs).

(** [frame.data] of a picture frame *)
Definition frame_data (fr : Frame) : Picture :=
  match fr with
  | APIC _ _ _ data => data
  | _ => None
  end.

(** [str(frame)] *)
Definition frame_str (fr : Frame) : string :=
  match fr with
  | TextFrame text => text
  | APIC mime _ desc _ => desc +:+ " (" +:+ mime +:+ ")"
  | OtherFrame repr => repr
  end.

End Mutagen.

Module Pillow.

(** [im = Image.open(BytesIO(data)); im.load()] *)
Definition open_and_load (data : Picture) : result Image :=
  match data with
  | Some im => Ok im
  | None => Raise UnidentifiedImageError
  end.

End Pillow.

(** ** Python values *)

Module Py.

(** [repr(v)]; the quoting of a string is rendered without escapes. *)
Fixpoint repr (v : pyval) : string :=
  match v with
  | PNone => "None"
  | PStr s => "'" +:+ s +:+ "'"
  | PInt z => pretty z
  | PList l => "[" +:+ Str.join ", " (map repr l) +:+ "]"
  | PTuple l =>
      match l with
      | [x] => "(" +:+ repr x +:+ ",)"
      | _ => "(" +:+ Str.join ", " (map repr l) +:+ ")"
      end
  end.

(** [str(v)] *)
Definition str (v : pyval) : string :=
  match v with
  | PStr s => s
  | _ => repr v
  end.

(** [bool(v)] *)
Definition truthy (v : pyval) : bool :=
  match v with
  | PNone => false
  | PStr s => Str.nonempty s
  | PInt z => negb (z =? 0)%Z
  | PList l | PTuple l => match l with [] => false | _ => true end
  end.

(** [isinstance(v, (tuple, list)) and v]: the items of a non-empty
    sequence. *)
Definition nonempty_seq (v : pyval) : option (pyval * list pyval) :=
  match v with
  | PList (x :: l) | PTuple (x :: l) => Some (x, l)
  | _ => None
  end.

(** [v not in (None, 0)] *)
Definition not_none_or_0 (v : pyval) : bool :=
  match v with
  | PNone => false
  | PInt z => negb (z =? 0)%Z
  | _ => true
  end.

End Py.

(** ** tagging.py *)

Module Tagging.

Local Open Scope M_scope.

Definition _get_first (val : pyval) : pyval :=
  match Py.nonempty_seq val with
  | Some (x, _) => x
  | None => val
  end.

(** The loop over the generic keys: [v = audio.tags.get(k); if v: ...]. *)
Definition copy_generic (atags : gmap string pyval) (k : string)
    (tags : gmap string string) : gmap string string :=
  match atags !! k with
  | Some v => if Py.truthy v then <[k := Py.str (_get_first v)]> tags else tags
  | None => tags
  end.

(** [pull_any(keys)]: the first value that is not [None]. *)
Fixpoint pull_any (atags : gmap string pyval) (keys : list string) : option pyval :=
  match keys with
  | [] => None
  | k :: rest =>
      match atags !! k with
      | Some PNone | None => pull_any atags rest
      | Some v => Some v
      end
  end.

(** The block for a number and its total, shared by track and disc:
    [num] is the key of the number, [total] that of the total. *)
Definition pull_number (atags : gmap string pyval) (num total : string)
    (num_keys total_keys : list string) (tags : gmap string string)
  : gmap string string :=
  let trk := pull_any atags num_keys in
  let tags :=
    match trk with
    | None => tags
    | Some trk =>
        match Py.nonempty_seq trk with
        | Some (x0, rest) =>
            let tags :=
              <[num := if Py.not_none_or_0 x0 then Py.str x0 else ""]> tags in
            match rest with
            | x1 :: _ => if Py.truthy x1 then <[total := Py.str x1]> tags else tags
            | [] => tags
            end
        | None => <[num := Py.str (_get_first trk)]> tags
        end
    end in
  match pull_any atags total_keys with
  | Some trk_total =>
      if bool_decide (is_Some (tags !! total)) then tags
      else <[total := Py.str (_get_first trk_total)]> tags
  | None => tags
  end.

(** The tags of a file mutagen could read, given its tag mapping. *)
Definition tags_of (atags : gmap string pyval) (stem : string) : gmap string string :=
  let tags : gmap string string := ∅ in
  let tags :=
    foldl (λ tags k, copy_generic atags k tags) tags
      ["artist"; "album"; "albumartist"; "title"; "date"; "genre"] in
  let tags :=
    pull_number atags "track" "tracktotal"
      ["tracknumber"; "track"; "trkn"] ["totaltracks"; "tracktotal"] tags in
  let tags :=
    pull_number atags "disc" "disctotal"
      ["discnumber"; "disc"; "disk"] ["totaldiscs"; "disctotal"] tags in
  match tags !! "title" with
  | Some t => if Str.nonempty t then tags else <["title" := stem]> tags
  | None => <["title" := stem]> tags
  end.

(** [read_source_tags(src)].  [File(src)] raises on a file that is not
    there; [audio is None or not audio.tags] is an absent or empty
    mapping. *)
Definition read_source_tags (src : Path) : M (gmap string string) :=
  λ fs, match fs !! src with
        | None => (Raise MutagenError, fs)
        | Some f =>
            match filetags f with
            | None => (Ok {["title" := PurePath.stem src]}, fs)
            | Some atags =>
                if bool_decide (atags = ∅)
                then (Ok {["title" := PurePath.stem src]}, fs)
                else (Ok (tags_of atags (PurePath.stem src)), fs)
            end
        end.

Definition _ensure_id3_v23 (path : Path) : M ID3 :=
  λ fs, match Mutagen.load path fs with
        | (Raise ID3NoHeaderError, fs') => (Ok ∅, fs')
        | other => other
        end.

(** Whether [_strip_frames] deletes the frame under [key]. *)
Definition strip_match (patterns : list string) (key : string) (fr : Frame) : bool :=
  bool_decide (key ∈ patterns)
  || (Str.startswith "TXXX" key
      && existsb (λ pat, Str.startswith "TXXX:" pat
                         && Str.contains (Str.drop 5 pat) (Mutagen.frame_str fr))
           patterns).

Definition _strip_frames (tags : ID3) (patterns : list string) : ID3 :=
  filter (λ kv, strip_match patterns kv.1 kv.2 = false) tags.

Definition _load_png_bytes (png_path : Path) : M Picture :=
  λ fs, match fs !! png_path with
        | None => (Raise FileNotFoundError, fs)
        | Some f =>
            match Pillow.open_and_load (picture f) with
            | Raise e => (Raise e, fs)
            | Ok im =>
                if bool_decide (im_size im = (500, 500)%Z) then (Ok (picture f), fs)
                else (Raise (ValueError "APIC PNG not 500x500"), fs)
            end
        end.

(** [set_text(frame_cls, value)], the frame class given by its key. *)
Definition set_text (key : string) (value : option string) (tags : ID3) : ID3 :=
  match value with
  | Some v => if Str.nonempty v then Mutagen.add key (TextFrame v) tags else tags
  | None => tags
  end.

(** [a or b] on optional strings. *)
Definition or_else (a b : option string) : option string :=
  match a with
  | Some v => if Str.nonempty v then a else b
  | None => b
  end.

(** [if num and total: add "num/total" elif num: add str(num)] *)
Definition set_number (key : string) (num total : option string) (tags : ID3) : ID3 :=
  match or_else num None, or_else total None with
  | Some n, Some t => Mutagen.add key (TextFrame (n +:+ "/" +:+ t)) tags
  | Some n, None => Mutagen.add key (TextFrame n) tags
  | None, _ => tags
  end.

(** The text frames [write_id3_v23_with_apic] adds, from the title to the
    date. *)
Definition add_text_frames (src_tags : gmap string string) (tags : ID3) : ID3 :=
  let tags := set_text "TIT2" (src_tags !! "title") tags in
  let tags := set_text "TALB" (src_tags !! "album") tags in
  let tags := set_text "TPE1" (src_tags !! "artist") tags in
  let tags :=
    set_text "TPE2"
      (or_else (src_tags !! "albumartist") (src_tags !! "album_artist")) tags in
  let tags := set_text "TCON" (src_tags !! "genre") tags in
  let tags := set_number "TRCK" (src_tags !! "track") (src_tags !! "tracktotal") tags in
  let tags := set_number "TPOS" (src_tags !! "disc") (src_tags !! "disctotal") tags in
  set_text "TDRC" (src_tags !! "date") tags.

Definition write_id3_v23_with_apic (temp_mp3 : Path) (png500 : option Path)
    (src_tags : gmap string string) (strip_patterns : list string) : M unit :=
  let* tags := _ensure_id3_v23 temp_mp3 in
  let tags := add_text_frames src_tags tags in
  let tags := _strip_frames tags strip_patterns in
  let tags := Mutagen.delall "APIC" tags in
  let* tags :=
    match png500 with
    | None => ret tags
    | Some png500 =>
        let* ex := Os.exists_ png500 in
        if ex then
          let* pic := _load_png_bytes png500 in
          ret (Mutagen.add "APIC:Cover (front)"
                 (APIC "image/png" 3 "Cover (front)" pic) tags)
        else ret tags
    end in
  Mutagen.save tags temp_mp3.

End Tagging.

(** ** validate.py *)

Module Validate.

Local Open Scope M_scope.

(** [float(data.get("format", {}).get("duration", 0.0))] *)
Definition float_or_0 (f : jfield float) : result float :=
  match f with
  | Missing => Ok 0%float
  | Val d => Ok d
  | Unconvertible => Raise (ValueError "could not convert string to float")
  end.

(** The arguments of the duration probe. *)
Definition duration_args (path : Path) : list string :=
  ["-v"; "error"; "-show_entries"; "format=duration"; "-of"; "json";
   PurePath.str path].

Definition _probe_duration_seconds (tools : Tools) (settings : Settings)
    (path : Path) : M float :=
  let* data :=
    Utils_ffmpeg.run_ffprobe_json tools settings (duration_args path) in
  lift (float_or_0 (pd_duration data)).

(** [sd == 0] against the integer zero. *)
Definition is_zero (d : float) : bool := PrimFloat.eqb d 0%float.

Definition validate_duration_close (tools : Tools) (settings : Settings)
    (src dst : Path) (tolerance : float) : M unit :=
  let* sd := _probe_duration_seconds tools settings src in
  let* dd := _probe_duration_seconds tools settings dst in
  if is_zero sd || is_zero dd then ret tt
  else if PrimFloat.ltb tolerance (PrimFloat.abs (PrimFloat.sub sd dd))
  then raise (ValueError "Duration mismatch")
  else ret tt.

(** [int(data.get("streams", [{}])[0].get("bit_rate", 0))] *)
Definition first_bit_rate (data : ProbeData) : result Z :=
  match pd_streams data with
  | None => Ok 0%Z
  | Some [] => Raise IndexError
  | Some (st :: _) => Artwork.int_or_0 (st_bit_rate st)
  end.

Definition validate_bitrate_if_encoded (tools : Tools) (settings : Settings)
    (plan : TrackPlan) (dst : Path) : M unit :=
  if negb (needs_encode plan) then ret tt
  else
    let* data :=
      Utils_ffmpeg.run_ffprobe_json tools settings
        ["-v"; "error"; "-select_streams"; "a:0"; "-show_entries";
         "stream=bit_rate"; "-of"; "json"; PurePath.str dst] in
    let* br := lift (first_bit_rate data) in
    if negb (br =? 320000)%Z && (br <? 319000)%Z
    then raise (ValueError "Audio bitrate is not 320000")
    else ret tt.

(** The checks on the frames once [ID3(dst)] has loaded them. *)
Definition check_apics (apics : list Frame) : result unit :=
  match apics with
  | [] => Raise (ValueError "No APIC found in output tags")
  | _ :: _ :: _ =>
      Raise (ValueError "More than one APIC found; expected a single front cover")
  | [fr] =>
      let pic := Mutagen.frame_data fr in
      rbind (Pillow.open_and_load pic) (λ im,
      if negb (String.eqb (im_format im) "JPEG")
      then Raise (ValueError "APIC is not JPEG")
      else if negb (bool_decide (im_size im = (500, 500)%Z))
      then Raise (ValueError "APIC size is not (500, 500)")
      else Ok tt)
  end.

Definition validate_id3_and_apic_500 (dst : Path) : M unit :=
  let* tags := Mutagen.load dst in
  lift (check_apics (Mutagen.getall "APIC" tags)).

End Validate.

(** ** transcode.py *)

Module Transcode.

Definition encode_to_temp (tools : Tools) (plan : TrackPlan) (settings : Settings)
  : M unit :=
  if negb (needs_encode plan) then raise AssertionError
  else
    let args :=
      ["-y"; "-i"; PurePath.str (src plan); "-vn";
       "-c:a"; "libmp3lame"; "-b:a"; "320k"]
      ++ (if bool_decide (sample_rate settings = sr_44100)
          then ["-ar"; "44100"] else [])
      ++ [PurePath.str (temp_path plan)] in
    Utils_ffmpeg.run_ffmpeg tools settings args (temp_path plan).

Definition copy_mp3_to_temp (plan : TrackPlan) : M unit :=
  Os.copy2 (src plan) (temp_path plan).

End Transcode.

(** ** cli.py *)

(** What [process_one] returns, without the manifest row (which records
    the same facts together with timings and probed metadata). *)
Record Outcome := {
  success : bool;
  final_target : option Path;
  deleted : bool;
  error : option exn;
}.

Module Cli.

Local Open Scope M_scope.

(** The stages of the [try] block up to the last validation check. *)
Definition stages_before_commit (tools : Tools) (plan : TrackPlan)
    (png500 : option Path) (settings : Settings) : M unit :=
  (* AUDIO *)
  let* _ := (if needs_encode plan
             then Transcode.encode_to_temp tools plan settings
             else Transcode.copy_mp3_to_temp plan) in
  (* TAGS *)
  let* src_tags := Tagging.read_source_tags (src plan) in
  let* _ := Tagging.write_id3_v23_with_apic (temp_path plan) png500
              src_tags (strip_frames settings) in
  (* VALIDATION *)
  let* _ := Validate.validate_duration_close tools settings
              (src plan) (temp_path plan) 0.5%float in
  let* _ := Validate.validate_bitrate_if_encoded tools settings plan
              (temp_path plan) in
  Validate.validate_id3_and_apic_500 (temp_path plan).

(** The rest of the [try] block: commit, deletion of the source, cleanup
    of the temporary art.  [os] resolves the two paths of the deletion
    guard (the fallback to a comparison of the rendered paths is for a
    [resolve] that raises, which the one of [Tree] does not). *)
Definition commit_and_after (os : Tree) (plan : TrackPlan)
    (src_image png500 : option Path) (settings : Settings) : M (Path * bool) :=
  (* COMMIT *)
  let* final_target := Fsops.atomic_commit plan in
  let do_delete := negb (String.eqb (Str.lower (src_codec plan)) "mp3") in
  let* deleted :=
    (if do_delete && replace_in_place settings then
       let same_path :=
         bool_decide (resolve os final_target = resolve os (src plan)) in
       if negb same_path then
         let* _ := Fsops.delete_source plan in ret true
       else ret false
     else ret false) in
  (* CLEANUP temp art *)
  let* _ := Fsops.cleanup_paths (omap id [src_image; png500]) in
  ret (final_target, deleted).

(** The [except Exception] handler. *)
Definition on_failure (plan : TrackPlan) (src_image png500 : option Path) : M unit :=
  let* _ := try_pass (let* ex := Os.exists_ (temp_path plan) in
                      if ex then Os.unlink (temp_path plan) else ret tt) in
  Fsops.cleanup_paths (omap id [src_image; png500]).

Definition process_one (tools : Tools) (os : Tree) (plan : TrackPlan)
    (art : ArtSource) (src_image png500 : option Path) (settings : Settings)
  : FS → Outcome * FS :=
  λ fs,
    let body :=
      let* _ := stages_before_commit tools plan png500 settings in
      commit_and_after os plan src_image png500 settings in
    match body fs with
    | (Ok (final_target, deleted), fs') =>
        ({| success := true; final_target := Some final_target;
            deleted := deleted; error := None |}, fs')
    | (Raise e, fs') =>
        ({| success := false; final_target := None;
            deleted := false; error := Some e |},
         (on_failure plan src_image png500 fs').2)
    end.

(** The loop of [main] that resolves the artwork of every plan.  It runs
    inside [try: ... except IpodPrepError], which lets every other
    exception leave [main].  (cli.py imports the normalizer under its
    earlier name [normalize_art_to_png_500]; artwork.py defines it as
    [normalize_art_to_jpeg_500].) *)
Fixpoint build_rows (tools : Tools) (settings : Settings) (plans : list TrackPlan)
  : M (list (TrackPlan * ArtSource * option Path * option Path)) :=
  match plans with
  | [] => ret []
  | plan :: rest =>
      let* art := Artwork.detect_art_source tools plan settings in
      let* src_image := Artwork.extract_art_to_file tools plan settings art in
      let* png500 :=
        Artwork.normalize_art_to_jpeg_500 tools plan settings src_image in
      let* rows := build_rows tools settings rest in
      ret ((plan, art, src_image, png500) :: rows)
  end.

End Cli.

(** * Part II: properties *)

(** ** Strings *)

Section strings.

Lemma string_app_cons (a : ascii) (s t : string) :
  String a s +:+ t = String a (s +:+ t).
Proof. reflexivity. Qed.

Lemma string_app_nil_l (t : string) : "" +:+ t = t.
Proof. reflexivity. Qed.

Lemma string_length_app (s t : string) :
  String.length (s +:+ t) = String.length s + String.length t.
Proof.
  induction s as [|a s IH]; [done|].
  rewrite string_app_cons. simpl. by rewrite IH.
Qed.

Lemma string_app_nil_r (s : string) : s +:+ "" = s.
Proof.
  induction s as [|a s IH]; [done|]. by rewrite string_app_cons, IH.
Qed.

Lemma string_app_assoc (s t u : string) : (s +:+ t) +:+ u = s +:+ t +:+ u.
Proof.
  induction s as [|a s IH]; [done|]. by rewrite !string_app_cons, IH.
Qed.

(** Appending on the right can be cancelled. *)
Lemma string_app_inj_r (s1 s2 t : string) : s1 +:+ t = s2 +:+ t → s1 = s2.
Proof.
  revert s2. induction s1 as [|a s1 IH]; intros [|b s2] Heq.
  - done.
  - apply (f_equal String.length) in Heq.
    rewrite string_app_nil_l, string_length_app in Heq. simpl in Heq. lia.
  - apply (f_equal String.length) in Heq.
    rewrite string_app_nil_l, string_length_app in Heq. simpl in Heq. lia.
  - rewrite !string_app_cons in Heq. injection Heq as -> Heq.
    f_equal. by apply IH.
Qed.

End strings.

(** ** fsops.py: collision policies *)

Section fsops.

Implicit Types (fs : FS) (path : Path) (plan : TrackPlan).

(** The candidate of a path that has a name. *)
Definition cand_path (path : Path) (i : N) : Path :=
  PurePath.parent path
    ++ [PurePath.stem path +:+ " (" +:+ pretty i +:+ ")" +:+ PurePath.suffix path].

Lemma candidate_named path i :
  PurePath.name path ≠ "" → Fsops.candidate path i = Ok (cand_path path i).
Proof.
  intros Hn. unfold Fsops.candidate, PurePath.with_name.
  by destruct (decide (PurePath.name path = "")).
Qed.

Lemma cand_path_inj path : Inj (=) (=) (cand_path path).
Proof.
  intros i j Heq. unfold cand_path in Heq.
  apply app_inj_tail in Heq as [_ Heq].
  do 2 apply String.app_inj in Heq.
  apply string_app_inj_r in Heq. by apply (inj pretty) in Heq.
Qed.

(** A loop that ends returns the first free candidate at or after its
    counter. *)
Lemma versioned_loop_Some fuel fs path i r :
  PurePath.name path ≠ "" →
  Fsops._versioned_loop fuel fs path i = Some r →
  ∃ k : N,
    (i ≤ k)%N ∧ r = Ok (cand_path path k) ∧ fs !! cand_path path k = None ∧
    ∀ j : N, (i ≤ j < k)%N → is_Some (fs !! cand_path path j).
Proof.
  intros Hn. revert i. induction fuel as [|fuel IH]; intros i; simpl;
    rewrite candidate_named by done; case_bool_decide as Hex.
  - done.
  - intros [= <-]. exists i. split_and!; [lia|done| |intros; lia].
    by apply eq_None_not_Some.
  - intros (k & Hk & -> & Hfree & Hall)%IH. exists k.
    split_and!; [lia|done..|].
    intros j Hj. destruct (decide (j = i)) as [->|]; [done|]. apply Hall. lia.
  - intros [= <-]. exists i. split_and!; [lia|done| |intros; lia].
    by apply eq_None_not_Some.
Qed.

(** A loop that runs out of rounds has found every candidate taken. *)
Lemma versioned_loop_None fuel fs path i :
  PurePath.name path ≠ "" →
  Fsops._versioned_loop fuel fs path i = None →
  ∀ n : nat, n ≤ fuel → is_Some (fs !! cand_path path (i + N.of_nat n)).
Proof.
  intros Hn. revert i. induction fuel as [|fuel IH]; intros i; simpl;
    rewrite candidate_named by done; case_bool_decide as Hex; try done.
  - intros _ n Hle. replace n with 0 by lia. by rewrite N.add_0_r.
  - intros Hloop [|n] Hle; [by rewrite N.add_0_r|].
    replace (i + N.of_nat (S n))%N with (i + 1 + N.of_nat n)%N by lia.
    apply IH; [done|lia].
Qed.

(** As many rounds as there are files, and one more, always suffice:
    the candidates are pairwise distinct, so they cannot all be taken. *)
Lemma _versioned_loop_total fs path i :
  PurePath.name path ≠ "" →
  Fsops._versioned_loop (size fs) fs path i ≠ None.
Proof.
  intros Hn Hloop.
  pose proof (versioned_loop_None _ _ _ _ Hn Hloop) as Hall.
  set (l := (λ n : nat, cand_path path (i + N.of_nat n)) <$> seq 0 (S (size fs))).
  assert (NoDup l) as Hnd.
  { apply NoDup_fmap_2; [|apply NoDup_seq].
    intros n m Heq. apply cand_path_inj in Heq. lia. }
  assert (list_to_set l ⊆ dom fs) as Hsub.
  { intros p. rewrite elem_of_list_to_set. unfold l.
    intros (n & -> & Hin%elem_of_seq)%list_elem_of_fmap.
    apply elem_of_dom, Hall. lia. }
  apply subseteq_size in Hsub.
  rewrite size_list_to_set, size_dom in Hsub by done.
  unfold l in Hsub. rewrite length_fmap, length_seq in Hsub. lia.
Qed.

(** The loop of [_versioned_name] always ends. *)
Lemma _versioned_name_terminates fs path :
  Fsops._versioned_loop (size fs) fs path 2 ≠ None.
Proof.
  destruct (decide (PurePath.name path = "")) as [Hname|Hname].
  - unfold Fsops._versioned_loop, Fsops.candidate, PurePath.with_name.
    destruct (size fs); by rewrite decide_True.
  - by apply _versioned_loop_total.
Qed.

Lemma _versioned_name_spec fs path :
  PurePath.name path ≠ "" →
  ∃ k : N,
    (2 ≤ k)%N ∧
    Fsops._versioned_name path fs = (Ok (cand_path path k), fs) ∧
    fs !! cand_path path k = None ∧
    ∀ j : N, (2 ≤ j < k)%N → is_Some (fs !! cand_path path j).
Proof.
  intros Hn. unfold Fsops._versioned_name.
  destruct (Fsops._versioned_loop (size fs) fs path 2) as [r|] eqn:Hloop.
  - apply versioned_loop_Some in Hloop as (k & ? & -> & ? & ?); [|done].
    by exists k.
  - by apply _versioned_loop_total in Hloop.
Qed.

(** C5. When the target exists, the commit follows the collision policy:
    [skip] returns the target and leaves the file system as it was;
    [version] renames the temp file onto the first candidate
    "name (k).ext", k = 2, 3, ..., that does not exist, so every other
    file keeps its content; [overwrite] renames the temp file onto the
    target.  In the moving cases the new file system is the result of
    one [os.replace] of the temp file onto the chosen path. *)
Theorem atomic_commit_collision plan fs (old new : File) :
  fs !! target plan = Some old →
  fs !! temp_path plan = Some new →
  PurePath.name (target plan) ≠ "" →
  match plan_collision plan with
  | skip => Fsops.atomic_commit plan fs = (Ok (target plan), fs)
  | version =>
      ∃ (k : N) (fs' : FS),
        (2 ≤ k)%N ∧
        fs !! cand_path (target plan) k = None ∧
        (∀ j : N, (2 ≤ j < k)%N → is_Some (fs !! cand_path (target plan) j)) ∧
        Os.replace (temp_path plan) (cand_path (target plan) k) fs = (Ok tt, fs') ∧
        Fsops.atomic_commit plan fs = (Ok (cand_path (target plan) k), fs') ∧
        fs' !! cand_path (target plan) k = Some new ∧
        (∀ p f, p ≠ temp_path plan → fs !! p = Some f → fs' !! p = Some f)
  | overwrite =>
      ∃ fs' : FS,
        Os.replace (temp_path plan) (target plan) fs = (Ok tt, fs') ∧
        Fsops.atomic_commit plan fs = (Ok (target plan), fs') ∧
        fs' !! target plan = Some new
  end.
Proof.
  intros Hold Hnew Hname.
  assert (bool_decide (is_Some (fs !! target plan)) = true) as Hex.
  { apply bool_decide_eq_true. by rewrite Hold. }
  unfold Fsops.atomic_commit, bind, Os.exists_. rewrite Hex.
  destruct (plan_collision plan).
  - exists (<[target plan := new]> (delete (temp_path plan) fs)).
    unfold Fsops.place, bind, Os.replace, ret. rewrite Hnew.
    split_and!; [done..|]. by rewrite lookup_insert_eq.
  - done.
  - destruct (_versioned_name_spec fs (target plan) Hname)
      as (k & Hk & Hvn & Hfree & Htaken).
    exists k, (<[cand_path (target plan) k := new]> (delete (temp_path plan) fs)).
    rewrite Hvn. unfold Fsops.place, bind, Os.replace, ret. rewrite Hnew.
    split_and!; [done..| |].
    + by rewrite lookup_insert_eq.
    + intros p f Hp Hf.
      rewrite lookup_insert_ne by congruence.
      by rewrite lookup_delete_ne.
Qed.

End fsops.

(** ** Sample data *)

Section samples.

Definition sample_file (n : N) : File :=
  {| id3 := None; filetags := None; picture := None; payload := [n] |}.

Definition sample_plan (policy : CollisionPolicy) (mode : DeleteMode) : TrackPlan :=
  {| src := ["music"; "a.flac"];
     src_codec := "flac";
     needs_encode := true;
     target := ["music"; "a.mp3"];
     temp_path := ["music"; ".~a.0f3c.tmp"];
     plan_delete_mode := mode;
     plan_collision := policy;
     plan_sample_rate := sr_44100;
     notes := ["will encode to 320 CBR, 44.1 kHz"] |}.

(** A directory where the target and its first decorated name are
    taken. *)
Definition crowded_fs : FS :=
  <[ ["music"; "a.mp3"] := sample_file 1 ]>
  (<[ ["music"; "a (2).mp3"] := sample_file 2 ]>
  (<[ ["music"; ".~a.0f3c.tmp"] := sample_file 3 ]> ∅)).

Example versioned_commit_sample :
  Fsops.atomic_commit (sample_plan version trash) crowded_fs
  = (Ok ["music"; "a (3).mp3"],
     <[ ["music"; "a.mp3"] := sample_file 1 ]>
     (<[ ["music"; "a (2).mp3"] := sample_file 2 ]>
     (<[ ["music"; "a (3).mp3"] := sample_file 3 ]> ∅))).
Proof. reflexivity. Qed.

Lemma atomic_commit_collision_witness :
  ∃ (k : N) (fs' : FS),
    (2 ≤ k)%N ∧
    crowded_fs !! cand_path ["music"; "a.mp3"] k = None ∧
    (∀ j : N, (2 ≤ j < k)%N →
       is_Some (crowded_fs !! cand_path ["music"; "a.mp3"] j)) ∧
    Os.replace ["music"; ".~a.0f3c.tmp"] (cand_path ["music"; "a.mp3"] k) crowded_fs
      = (Ok tt, fs') ∧
    Fsops.atomic_commit (sample_plan version trash) crowded_fs
      = (Ok (cand_path ["music"; "a.mp3"] k), fs') ∧
    fs' !! cand_path ["music"; "a.mp3"] k = Some (sample_file 3) ∧
    (∀ p f, p ≠ ["music"; ".~a.0f3c.tmp"] →
       crowded_fs !! p = Some f → fs' !! p = Some f).
Proof.
  apply (atomic_commit_collision (sample_plan version trash) crowded_fs
           (sample_file 1) (sample_file 3)).
  - reflexivity.
  - reflexivity.
  - discriminate.
Defined.

End samples.

(** ** Which files a computation can change *)

Section frames.

(** [only_writes W m]: running [m] leaves every path outside [W] as it
    was, whether [m] returns or raises. *)
Definition only_writes {A} (W : list Path) (m : M A) : Prop :=
  ∀ (fs : FS) (p : Path), p ∉ W → (m fs).2 !! p = fs !! p.

Lemma only_writes_ret {A} W (a : A) : only_writes W (ret a).
Proof. by intros fs p _. Qed.

Lemma only_writes_raise {A} W e : only_writes W (raise (A:=A) e).
Proof. by intros fs p _. Qed.

Lemma only_writes_lift {A} W (r : result A) : only_writes W (lift r).
Proof. by intros fs p _. Qed.

Lemma only_writes_bind {A B} W (m : M A) (k : A → M B) :
  only_writes W m → (∀ a, only_writes W (k a)) → only_writes W (bind m k).
Proof.
  intros Hm Hk fs p Hp. unfold bind. specialize (Hm fs p Hp).
  destruct (m fs) as [[a|e] fs1]; simpl in *; [|done].
  by rewrite Hk.
Qed.

Lemma only_writes_try_pass W (m : M unit) :
  only_writes W m → only_writes W (try_pass m).
Proof.
  intros Hm fs p Hp. unfold try_pass. specialize (Hm fs p Hp).
  by destruct (m fs) as [r fs1].
Qed.

Lemma only_writes_weaken {A} W W' (m : M A) :
  W ⊆ W' → only_writes W m → only_writes W' m.
Proof. intros Hsub Hm fs p Hp. apply Hm. set_solver. Qed.

Lemma only_writes_if {A} W (b : bool) (m1 m2 : M A) :
  only_writes W m1 → only_writes W m2 → only_writes W (if b then m1 else m2).
Proof. by destruct b. Qed.

Lemma only_writes_exists W p : only_writes W (Os.exists_ p).
Proof. by intros fs q _. Qed.

Lemma only_writes_unlink p : only_writes [p] (Os.unlink p).
Proof.
  intros fs q Hq. unfold Os.unlink. destruct (fs !! p); simpl; [|done].
  apply lookup_delete_ne. set_solver.
Qed.

Lemma only_writes_copy2 a b : only_writes [b] (Os.copy2 a b).
Proof.
  intros fs q Hq. unfold Os.copy2. destruct (fs !! a); simpl; [|done].
  destruct (decide (a = b)); simpl; [done|].
  apply lookup_insert_ne. set_solver.
Qed.

Lemma only_writes_replace a b : only_writes [a; b] (Os.replace a b).
Proof.
  intros fs q Hq. unfold Os.replace. destruct (fs !! a); simpl; [|done].
  rewrite lookup_insert_ne, lookup_delete_ne; set_solver.
Qed.

Lemma only_writes_run_ffprobe_json W tools settings args :
  only_writes W (Utils_ffmpeg.run_ffprobe_json tools settings args).
Proof.
  intros fs q _. unfold Utils_ffmpeg.run_ffprobe_json.
  by destruct (ffprobe _ _ _ _) as [[] []].
Qed.

Lemma only_writes_run_ffmpeg tools settings args out :
  only_writes [out] (Utils_ffmpeg.run_ffmpeg tools settings args out).
Proof.
  intros fs q Hq. unfold Utils_ffmpeg.run_ffmpeg.
  destruct (ffmpeg _ _ _ _) as [status [f|]].
  - destruct status; simpl; apply lookup_insert_ne; set_solver.
  - by destruct status.
Qed.

Lemma only_writes_load W path : only_writes W (Mutagen.load path).
Proof.
  intros fs q _. unfold Mutagen.load.
  destruct (fs !! path) as [f|]; [|done]. by destruct (id3 f).
Qed.

Lemma only_writes_save tags path : only_writes [path] (Mutagen.save tags path).
Proof.
  intros fs q Hq. unfold Mutagen.save. simpl.
  apply lookup_insert_ne. set_solver.
Qed.

Lemma only_writes_read_source_tags W src :
  only_writes W (Tagging.read_source_tags src).
Proof.
  intros fs q _. unfold Tagging.read_source_tags.
  destruct (fs !! src) as [f|]; [|done].
  destruct (filetags f); [|done]. by case_bool_decide.
Qed.

Lemma only_writes_ensure_id3 W path : only_writes W (Tagging._ensure_id3_v23 path).
Proof.
  intros fs q Hq. unfold Tagging._ensure_id3_v23.
  pose proof (only_writes_load W path fs q Hq) as Hl.
  by destruct (Mutagen.load path fs) as [[t|[]] fs1].
Qed.

Lemma only_writes_load_png W path : only_writes W (Tagging._load_png_bytes path).
Proof.
  intros fs q _. unfold Tagging._load_png_bytes.
  destruct (fs !! path) as [f|]; [|done].
  destruct (Pillow.open_and_load _); [|done]. by case_bool_decide.
Qed.

End frames.

Create HintDb frame discriminated.
#[export] Hint Resolve only_writes_ret only_writes_raise only_writes_lift
  only_writes_exists only_writes_run_ffprobe_json only_writes_load
  only_writes_read_source_tags only_writes_ensure_id3 only_writes_load_png
  only_writes_try_pass only_writes_if : frame.
#[export] Hint Extern 2 (only_writes _ (bind _ _)) =>
  apply only_writes_bind; [|intros ?] : frame.

Section pipeline_frames.

Lemma only_writes_write_id3 temp png500 src_tags pats :
  only_writes [temp] (Tagging.write_id3_v23_with_apic temp png500 src_tags pats).
Proof.
  unfold Tagging.write_id3_v23_with_apic.
  apply only_writes_bind; [auto with frame|]. intros tags.
  apply only_writes_bind; [|intros ?; apply only_writes_save].
  destruct png500 as [png|]; auto 8 with frame.
Qed.

Lemma only_writes_validate_duration W tools settings a b tol :
  only_writes W (Validate.validate_duration_close tools settings a b tol).
Proof.
  unfold Validate.validate_duration_close, Validate._probe_duration_seconds.
  auto 10 with frame.
Qed.

Lemma only_writes_validate_bitrate W tools settings plan dst :
  only_writes W (Validate.validate_bitrate_if_encoded tools settings plan dst).
Proof.
  unfold Validate.validate_bitrate_if_encoded. auto 10 with frame.
Qed.

Lemma only_writes_validate_id3 W dst :
  only_writes W (Validate.validate_id3_and_apic_500 dst).
Proof. unfold Validate.validate_id3_and_apic_500. auto with frame. Qed.

Lemma only_writes_audio tools plan settings :
  only_writes [temp_path plan]
    (if needs_encode plan then Transcode.encode_to_temp tools plan settings
     else Transcode.copy_mp3_to_temp plan).
Proof.
  apply only_writes_if.
  - unfold Transcode.encode_to_temp.
    apply only_writes_if; [auto with frame|apply only_writes_run_ffmpeg].
  - apply only_writes_copy2.
Qed.

(** The stages before the commit write the temp file and nothing else. *)
Lemma only_writes_stages tools plan png500 settings :
  only_writes [temp_path plan]
    (Cli.stages_before_commit tools plan png500 settings).
Proof.
  unfold Cli.stages_before_commit.
  apply only_writes_bind; [apply only_writes_audio|intros _].
  apply only_writes_bind; [auto with frame|intros src_tags].
  apply only_writes_bind; [apply only_writes_write_id3|intros _].
  apply only_writes_bind; [apply only_writes_validate_duration|intros _].
  apply only_writes_bind; [apply only_writes_validate_bitrate|intros _].
  apply only_writes_validate_id3.
Qed.

Lemma only_writes_cleanup_paths paths :
  only_writes paths (Fsops.cleanup_paths paths).
Proof.
  induction paths as [|p rest IH]; simpl; [auto with frame|].
  apply only_writes_bind.
  - apply only_writes_try_pass.
    apply (only_writes_weaken [p]); [set_solver|apply only_writes_unlink].
  - intros _. apply (only_writes_weaken rest); [set_solver|done].
Qed.

(** The failure handler removes the temp file and the temporary art,
    nothing else. *)
Lemma only_writes_on_failure plan src_image png500 :
  only_writes (temp_path plan :: omap id [src_image; png500])
    (Cli.on_failure plan src_image png500).
Proof.
  unfold Cli.on_failure. apply only_writes_bind.
  - apply only_writes_try_pass, only_writes_bind; [auto with frame|].
    intros ex. apply only_writes_if; [|auto with frame].
    apply (only_writes_weaken [temp_path plan]);
      [set_solver|apply only_writes_unlink].
  - intros _.
    apply (only_writes_weaken (omap id [src_image; png500]));
      [set_solver|apply only_writes_cleanup_paths].
Qed.

End pipeline_frames.

(** ** The track pipeline: failures before the commit *)

Section pipeline.

Implicit Types (fs : FS) (plan : TrackPlan).

Lemma bind_Ok_inv {A B} (m : M A) (k : A → M B) fs b fs' :
  bind m k fs = (Ok b, fs') →
  ∃ a fs1, m fs = (Ok a, fs1) ∧ k a fs1 = (Ok b, fs').
Proof.
  unfold bind. destruct (m fs) as [[a|e] fs1]; [|done]. eauto.
Qed.

Lemma bind_Raise {A B} (m : M A) (k : A → M B) fs e fs1 :
  m fs = (Raise e, fs1) → bind m k fs = (Raise e, fs1).
Proof. unfold bind. by intros ->. Qed.

(** A computation that writes nothing returns the file system it got. *)
Lemma only_writes_nil {A} (m : M A) fs r fs' :
  only_writes [] m → m fs = (r, fs') → fs' = fs.
Proof.
  intros Hm Heq. apply map_eq. intros p.
  specialize (Hm fs p). rewrite Heq in Hm. apply Hm. apply not_elem_of_nil.
Qed.

(** When a stage before the commit raises, the pipeline reports the
    failure and leaves every path but the temp file and the temporary
    art as it was before the run. *)
Lemma process_one_failure tools os plan art src_image png500 settings fs e fs1 :
  Cli.stages_before_commit tools plan png500 settings fs = (Raise e, fs1) →
  (Cli.process_one tools os plan art src_image png500 settings fs).1
    = {| success := false; final_target := None;
         deleted := false; error := Some e |} ∧
  ∀ p, p ∉ temp_path plan :: omap id [src_image; png500] →
    (Cli.process_one tools os plan art src_image png500 settings fs).2 !! p
    = fs !! p.
Proof.
  intros Hst. unfold Cli.process_one.
  rewrite (bind_Raise _ _ _ _ _ Hst). split; [done|].
  intros p Hp. simpl.
  rewrite (only_writes_on_failure plan src_image png500 fs1 p Hp).
  pose proof (only_writes_stages tools plan png500 settings fs p) as Hfr.
  rewrite Hst in Hfr. apply Hfr. set_solver.
Qed.

Lemma not_in_written plan (src_image png500 : option Path) (p : Path) :
  p ≠ temp_path plan → src_image ≠ Some p → png500 ≠ Some p →
  p ∉ temp_path plan :: omap id [src_image; png500].
Proof.
  intros Htemp Hsrc Hpng.
  destruct src_image, png500; simpl;
    rewrite ?not_elem_of_cons; split_and?; try congruence; apply not_elem_of_nil.
Qed.

Lemma keeps_target_on_failure tools os plan art src_image png500 settings
    fs e fs1 :
  Cli.stages_before_commit tools plan png500 settings fs = (Raise e, fs1) →
  target plan ≠ temp_path plan →
  src_image ≠ Some (target plan) →
  png500 ≠ Some (target plan) →
  (Cli.process_one tools os plan art src_image png500 settings fs).2
    !! target plan = fs !! target plan.
Proof.
  intros Hst Htemp Hsrc Hpng.
  destruct (process_one_failure tools os plan art src_image png500 settings
              fs e fs1 Hst) as [_ Hframe].
  by apply Hframe, not_in_written.
Qed.

(** C1. A track whose pipeline fails at a stage before the commit (audio
    production, tagging or a validation check) is reported as failed
    without a final target, and the file at the plan's target path is
    the one that was there before the run (or still absent): the commit
    is sequenced after the three validation checks and is not run. *)
Theorem failed_track_keeps_target tools os plan art src_image png500 settings
    fs e fs1 :
  Cli.stages_before_commit tools plan png500 settings fs = (Raise e, fs1) →
  target plan ≠ temp_path plan →
  src_image ≠ Some (target plan) →
  png500 ≠ Some (target plan) →
  success (Cli.process_one tools os plan art src_image png500 settings fs).1
    = false ∧
  final_target (Cli.process_one tools os plan art src_image png500 settings fs).1
    = None ∧
  (Cli.process_one tools os plan art src_image png500 settings fs).2
    !! target plan = fs !! target plan.
Proof.
  intros Hst Htemp Hsrc Hpng.
  split_and!; [| |by eapply keeps_target_on_failure].
  - by destruct (process_one_failure tools os plan art src_image png500
                   settings fs e fs1 Hst) as [-> _].
  - by destruct (process_one_failure tools os plan art src_image png500
                   settings fs e fs1 Hst) as [-> _].
Qed.

(** The commit is only run after the stages before it have returned. *)
Lemma commit_only_after_validation tools os plan art src_image png500 settings fs :
  success (Cli.process_one tools os plan art src_image png500 settings fs).1
    = true →
  ∃ fs1, Cli.stages_before_commit tools plan png500 settings fs = (Ok tt, fs1).
Proof.
  unfold Cli.process_one, bind.
  destruct (Cli.stages_before_commit _ _ _ _ _) as [[[]|e] fs1]; [eauto|done].
Qed.

End pipeline.

(** ** Deleting the source *)

Section delete_source.

Lemma delete_source_hard_missing (plan : TrackPlan) (fs : FS) :
  plan_delete_mode plan = hard →
  fs !! src plan = None →
  Fsops.delete_source plan fs = (Ok tt, fs).
Proof.
  intros Hmode Hsrc. unfold Fsops.delete_source, Os.unlink.
  by rewrite Hmode, Hsrc.
Qed.

Lemma delete_source_trash_missing (plan : TrackPlan) (fs : FS) :
  plan_delete_mode plan = trash →
  fs !! src plan = None →
  Fsops.delete_source plan fs = (Raise (OSError "File not found"), fs).
Proof.
  intros Hmode Hsrc. unfold Fsops.delete_source, Os.send2trash.
  by rewrite Hmode, Hsrc.
Qed.

(** A directory whose source file is gone while the validated temp file
    waits for its commit. *)
Definition source_gone_fs : FS :=
  <[ ["music"; ".~a.0f3c.tmp"] := sample_file 3 ]> ∅.

Definition default_settings : Settings :=
  {| sample_rate := sr_44100;
     strip_frames := ["TXXX:iTunNORM"; "PRIV"];
     art_target_px := 500;
     art_format := jpeg;
     art_mode := center_crop;
     replace_in_place := true;
     delete_mode := trash;
     collision := overwrite;
     ffmpeg_path := "ffmpeg" |}.

Definition identity_tree : Tree :=
  {| resolve := λ p, p; is_file := λ _, false; is_dir := λ _, false;
     walk := λ _, [] |}.

(** C8. In mode [trash] the deletion of a source that is no longer there
    raises: [send2trash] is not guarded as [unlink] is in the other mode,
    and the track, already committed, is reported as failed. *)
Theorem delete_source_trash_missing_raises :
  Fsops.delete_source (sample_plan overwrite trash) source_gone_fs
    = (Raise (OSError "File not found"), source_gone_fs) ∧
  Fsops.delete_source (sample_plan overwrite hard) source_gone_fs
    = (Ok tt, source_gone_fs) ∧
  (Cli.commit_and_after identity_tree (sample_plan overwrite trash)
     None None default_settings source_gone_fs).1
    = Raise (OSError "File not found").
Proof. split_and!; reflexivity. Qed.

End delete_source.

(** ** The track pipeline on samples *)

Section pipeline_samples.

(** An encoder that fails after it has written part of its output. *)
Definition broken_encoder : Tools :=
  {| ffmpeg := λ _ _ _, (ExitedNonZero "Invalid data", Some (sample_file 9));
     ffprobe := λ _ _ _, (NotFound, None) |}.

Lemma failed_track_keeps_target_witness :
  success (Cli.process_one broken_encoder identity_tree
             (sample_plan overwrite trash) Artwork.no_art None None
             default_settings crowded_fs).1 = false ∧
  final_target (Cli.process_one broken_encoder identity_tree
                  (sample_plan overwrite trash) Artwork.no_art None None
                  default_settings crowded_fs).1 = None ∧
  (Cli.process_one broken_encoder identity_tree
     (sample_plan overwrite trash) Artwork.no_art None None
     default_settings crowded_fs).2 !! target (sample_plan overwrite trash)
  = crowded_fs !! target (sample_plan overwrite trash).
Proof.
  apply (failed_track_keeps_target broken_encoder identity_tree
           (sample_plan overwrite trash) Artwork.no_art None None
           default_settings crowded_fs
           (ProcError "ffmpeg failed: Invalid data")
           (<[ ["music"; ".~a.0f3c.tmp"] := sample_file 9 ]> crowded_fs)).
  - reflexivity.
  - discriminate.
  - discriminate.
  - discriminate.
Defined.

(** The partial output is gone and the old target is still in place. *)
Example failed_track_sample :
  (Cli.process_one broken_encoder identity_tree
     (sample_plan overwrite trash) Artwork.no_art None None
     default_settings crowded_fs).2
  = <[ ["music"; "a.mp3"] := sample_file 1 ]>
    (<[ ["music"; "a (2).mp3"] := sample_file 2 ]> ∅).
Proof. reflexivity. Qed.

End pipeline_samples.

(** ** Tracks without artwork *)

Section no_art.

Implicit Types (fs : FS) (plan : TrackPlan).

Lemma getall_delall name (tags : ID3) :
  Mutagen.getall name (Mutagen.delall name tags) = [].
Proof.
  unfold Mutagen.getall, Mutagen.delall. rewrite map_filter_filter.
  replace (filter _ tags) with (∅ : ID3); [by rewrite map_to_list_empty|].
  symmetry. apply map_empty_filter. intros k fr _ [H1 H2]. simpl in *.
  congruence.
Qed.

(** Without a normalized image the tagging stage leaves a temp file
    whose tags hold no picture frame. *)
Lemma write_id3_without_art temp src_tags pats fs fs' :
  Tagging.write_id3_v23_with_apic temp None src_tags pats fs = (Ok tt, fs') →
  ∃ f tags,
    fs' !! temp = Some f ∧ id3 f = Some tags ∧ Mutagen.getall "APIC" tags = [].
Proof.
  unfold Tagging.write_id3_v23_with_apic.
  intros (tags0 & fs1 & _ & Hrest)%bind_Ok_inv.
  unfold bind, ret, Mutagen.save in Hrest. injection Hrest as <-.
  eexists _, _. split_and!; [apply lookup_insert_eq|done|].
  apply getall_delall.
Qed.

(** The cover check raises on a file without picture frames. *)
Lemma validate_id3_no_apic dst fs f tags :
  fs !! dst = Some f → id3 f = Some tags → Mutagen.getall "APIC" tags = [] →
  Validate.validate_id3_and_apic_500 dst fs
  = (Raise (ValueError "No APIC found in output tags"), fs).
Proof.
  intros Hf Htags Hnone.
  unfold Validate.validate_id3_and_apic_500, bind, Mutagen.load, lift.
  by rewrite Hf, Htags, Hnone.
Qed.

Lemma stages_raise_without_art tools plan settings fs :
  ∃ e fs1,
    Cli.stages_before_commit tools plan None settings fs = (Raise e, fs1).
Proof.
  destruct (Cli.stages_before_commit tools plan None settings fs)
    as [[[]|e] fs'] eqn:Hst; [exfalso|eauto].
  unfold Cli.stages_before_commit in Hst.
  apply bind_Ok_inv in Hst as (_ & f1 & _ & Hst).
  apply bind_Ok_inv in Hst as (src_tags & f2 & _ & Hst).
  apply bind_Ok_inv in Hst as ([] & f3 & Hwrite & Hst).
  apply bind_Ok_inv in Hst as ([] & f4 & Hdur & Hst).
  apply bind_Ok_inv in Hst as ([] & f5 & Hbr & Hst).
  apply only_writes_nil in Hdur as ->; [|apply only_writes_validate_duration].
  apply only_writes_nil in Hbr as ->; [|apply only_writes_validate_bitrate].
  apply write_id3_without_art in Hwrite as (f & tags & Hf & Htags & Hnone).
  by rewrite (validate_id3_no_apic _ _ _ _ Hf Htags Hnone) in Hst.
Qed.

(** C10. A track whose art source has kind [none] gets no source image
    and no normalized image; its tagging stage then embeds no picture,
    the cover check raises on the tagged temp file, the stages before the
    commit never return, and the pipeline reports a failure without a
    final target: the commit is out of reach. *)
Theorem no_art_never_commits tools os plan art settings :
  kind art = none →
  (∀ fs, Artwork.extract_art_to_file tools plan settings art fs = (Ok None, fs)) ∧
  (∀ fs, Artwork.normalize_art_to_jpeg_500 tools plan settings None fs
         = (Ok None, fs)) ∧
  (∀ fs fs' src_tags,
     Tagging.write_id3_v23_with_apic (temp_path plan) None src_tags
       (strip_frames settings) fs = (Ok tt, fs') →
     Validate.validate_id3_and_apic_500 (temp_path plan) fs'
     = (Raise (ValueError "No APIC found in output tags"), fs')) ∧
  (∀ fs, ∃ e fs1,
     Cli.stages_before_commit tools plan None settings fs = (Raise e, fs1)) ∧
  (∀ fs,
     success (Cli.process_one tools os plan art None None settings fs).1 = false ∧
     final_target (Cli.process_one tools os plan art None None settings fs).1
       = None).
Proof.
  intros Hkind. split_and!.
  - intros fs. unfold Artwork.extract_art_to_file. by rewrite Hkind.
  - done.
  - intros fs fs' src_tags (f & tags & Hf & Htags & Hnone)%write_id3_without_art.
    by apply validate_id3_no_apic with f tags.
  - apply stages_raise_without_art.
  - intros fs.
    destruct (stages_raise_without_art tools plan settings fs) as (e & fs1 & Hst).
    by destruct (process_one_failure tools os plan art None None settings
                   fs e fs1 Hst) as [-> _].
Qed.

Lemma no_art_never_commits_witness :
  (∀ fs, Artwork.extract_art_to_file broken_encoder
           (sample_plan overwrite trash) default_settings Artwork.no_art fs
         = (Ok None, fs)) ∧
  (∀ fs, Artwork.normalize_art_to_jpeg_500 broken_encoder
           (sample_plan overwrite trash) default_settings None fs
         = (Ok None, fs)) ∧
  (∀ fs fs' src_tags,
     Tagging.write_id3_v23_with_apic (temp_path (sample_plan overwrite trash))
       None src_tags (strip_frames default_settings) fs = (Ok tt, fs') →
     Validate.validate_id3_and_apic_500 (temp_path (sample_plan overwrite trash)) fs'
     = (Raise (ValueError "No APIC found in output tags"), fs')) ∧
  (∀ fs, ∃ e fs1,
     Cli.stages_before_commit broken_encoder (sample_plan overwrite trash)
       None default_settings fs = (Raise e, fs1)) ∧
  (∀ fs,
     success (Cli.process_one broken_encoder identity_tree
                (sample_plan overwrite trash) Artwork.no_art None None
                default_settings fs).1 = false ∧
     final_target (Cli.process_one broken_encoder identity_tree
                     (sample_plan overwrite trash) Artwork.no_art None None
                     default_settings fs).1 = None).
Proof.
  apply (no_art_never_commits broken_encoder identity_tree
           (sample_plan overwrite trash) Artwork.no_art default_settings).
  reflexivity.
Defined.

End no_art.

(** ** A whole run, on samples *)

Section run_samples.

Definition encoded_file : File :=
  {| id3 := None; filetags := None; picture := None; payload := [42%N] |}.

Definition flac_file : File :=
  {| id3 := None;
     filetags := Some {[ "artist" := PList [PStr "Nina"] ]};
     picture := None; payload := [7%N] |}.

Definition cover_file (format : string) (px : Z) : File :=
  {| id3 := None; filetags := None;
     picture := Some {| im_format := format; im_size := (px, px) |};
     payload := [] |}.

Definition audio_stream : ProbeStream :=
  {| st_index := Val 0%Z; st_attached_pic := None;
     st_codec_name := Some "mp3"; st_width := None; st_height := None;
     st_bit_rate := Val 320000%Z |}.

(** Tools that work: the encoder writes its output, the prober reports
    three minutes at 320 kb/s for whatever it is asked about. *)
Definition working_tools : Tools :=
  {| ffmpeg := λ _ _ _, (Exited0, Some encoded_file);
     ffprobe := λ _ _ _,
       (Exited0, Some {| pd_duration := Val 180%float;
                         pd_streams := Some [audio_stream] |}) |}.

Definition album_fs : FS :=
  <[ ["music"; "a.flac"] := flac_file ]>
  (<[ ["music"; ".~a.0f3c.cover_500.jpg"] := cover_file "JPEG" 500 ]> ∅).

Definition sample_art : ArtSource :=
  {| kind := folder; file_path := Some ["music"; "cover.jpg"];
     stream_index := None; detail := "cover.jpg" |}.

(** With a normalized cover the track is committed and, in mode [hard],
    its source deleted. *)
Example run_with_art_sample :
  Cli.process_one working_tools identity_tree (sample_plan overwrite hard)
    sample_art None (Some ["music"; ".~a.0f3c.cover_500.jpg"])
    default_settings album_fs
  = ({| success := true; final_target := Some ["music"; "a.mp3"];
        deleted := true; error := None |},
     {[ ["music"; "a.mp3"] :=
          {| id3 := Some (<[ "TIT2" := TextFrame "a" ]>
                         (<[ "TPE1" := TextFrame "Nina" ]>
                         {[ "APIC:Cover (front)" :=
                              APIC "image/png" 3 "Cover (front)"
                                (Some {| im_format := "JPEG";
                                         im_size := (500, 500)%Z |}) ]}));
             filetags := None; picture := None; payload := [42%N] |} ]}).
Proof. reflexivity. Qed.

(** Without one the same track fails at the cover check. *)
Example run_without_art_sample :
  (Cli.process_one working_tools identity_tree (sample_plan overwrite hard)
     Artwork.no_art None None default_settings album_fs).1
  = {| success := false; final_target := None; deleted := false;
       error := Some (ValueError "No APIC found in output tags") |}.
Proof. reflexivity. Qed.

End run_samples.

(** ** validate.py: the cover check *)

Section cover_check.

Implicit Types (fs : FS) (dst : Path).

(** The name Pillow gives a configured format. *)
Definition pillow_format (f : ArtFormat) : string :=
  match f with png => "PNG" | jpeg => "JPEG" end.

(** The produced file holds exactly one cover, which decodes to a square
    picture of [px] pixels in format [format]. *)
Definition one_cover (px : Z) (format : string) fs dst : Prop :=
  ∃ f tags fr im,
    fs !! dst = Some f ∧ id3 f = Some tags ∧
    Mutagen.getall "APIC" tags = [fr] ∧
    Mutagen.frame_data fr = Some im ∧
    im_size im = (px, px) ∧ im_format im = format.

(** The cover check as the specification words it: exactly one cover, of
    the configured size and format. *)
Definition spec_cover_ok (settings : Settings) fs dst : Prop :=
  one_cover (art_target_px settings) (pillow_format (art_format settings)) fs dst.

Lemma check_apics_Ok (apics : list Frame) :
  Validate.check_apics apics = Ok tt ↔
  ∃ fr im, apics = [fr] ∧ Mutagen.frame_data fr = Some im ∧
           im_size im = (500, 500)%Z ∧ im_format im = "JPEG".
Proof.
  split.
  - destruct apics as [|fr [|fr' rest]]; simpl; [done| |done].
    destruct (Mutagen.frame_data fr) as [im|] eqn:Hdata; simpl; [|done].
    destruct (String.eqb (im_format im) "JPEG") eqn:Hfmt; simpl; [|done].
    case_bool_decide as Hsize; simpl; [|done].
    intros _. exists fr, im. split_and!; [done..|].
    by apply String.eqb_eq.
  - intros (fr & im & -> & Hdata & Hsize & Hfmt). simpl.
    rewrite Hdata. simpl. rewrite Hfmt. simpl.
    by rewrite bool_decide_eq_true_2.
Qed.

(** The check, spelled out on the file system. *)
Lemma validate_id3_unfold dst fs :
  (Validate.validate_id3_and_apic_500 dst fs).1
  = match fs !! dst with
    | None => Raise MutagenError
    | Some f =>
        match id3 f with
        | None => Raise ID3NoHeaderError
        | Some tags => Validate.check_apics (Mutagen.getall "APIC" tags)
        end
    end.
Proof.
  unfold Validate.validate_id3_and_apic_500, bind, Mutagen.load, lift.
  destruct (fs !! dst) as [f|]; [|done]. by destruct (id3 f).
Qed.

(** C2, as the code has it. The cover check passes iff the produced file
    holds exactly one embedded cover, which decodes to a JPEG picture of
    500 by 500 pixels; neither the configured size nor the configured
    format is consulted. *)
Theorem cover_check_passes_iff dst fs :
  (Validate.validate_id3_and_apic_500 dst fs).1 = Ok tt ↔
  one_cover 500 "JPEG" fs dst.
Proof.
  rewrite validate_id3_unfold. unfold one_cover. split.
  - destruct (fs !! dst) as [f|]; [|done].
    destruct (id3 f) as [tags|] eqn:Htags; [|done].
    intros (fr & im & ? & ? & ? & ?)%check_apics_Ok.
    by exists f, tags, fr, im.
  - intros (f & tags & fr & im & -> & -> & Hall & Hdata & Hsize & Hfmt).
    apply check_apics_Ok. by exists fr, im.
Qed.

(** A cover of another size or format fails the check, whatever the
    settings say. *)
Lemma cover_check_other_cover dst fs f tags fr im :
  fs !! dst = Some f → id3 f = Some tags →
  Mutagen.getall "APIC" tags = [fr] → Mutagen.frame_data fr = Some im →
  im_size im ≠ (500, 500)%Z ∨ im_format im ≠ "JPEG" →
  is_Ok (Validate.validate_id3_and_apic_500 dst fs).1 = false.
Proof.
  intros Hf Htags Hall Hdata Hother.
  rewrite validate_id3_unfold, Hf, Htags, Hall. simpl. rewrite Hdata. simpl.
  destruct (String.eqb (im_format im) "JPEG") eqn:Hfmt; simpl; [|done].
  case_bool_decide as Hsize; simpl; [|done].
  apply String.eqb_eq in Hfmt. by destruct Hother.
Qed.

Definition png_settings : Settings :=
  {| sample_rate := sr_44100;
     strip_frames := ["TXXX:iTunNORM"; "PRIV"];
     art_target_px := 500;
     art_format := png;
     art_mode := center_crop;
     replace_in_place := true;
     delete_mode := trash;
     collision := overwrite;
     ffmpeg_path := "ffmpeg" |}.

Definition png_cover : Frame :=
  APIC "image/png" 3 "Cover (front)"
    (Some {| im_format := "PNG"; im_size := (500, 500)%Z |}).

(** A produced file with one PNG cover of 500 by 500 pixels. *)
Definition png_cover_file : File :=
  {| id3 := Some {[ "APIC:Cover (front)" := png_cover ]};
     filetags := None; picture := None; payload := [42%N] |}.

Definition png_cover_fs : FS :=
  {[ ["music"; ".~a.0f3c.tmp"] := png_cover_file ]}.

(** With PNG configured, a file with exactly one PNG cover of the
    configured size meets the specification's condition and yet fails
    the check. *)
Lemma cover_check_ignores_settings :
  spec_cover_ok png_settings png_cover_fs ["music"; ".~a.0f3c.tmp"] ∧
  (Validate.validate_id3_and_apic_500 ["music"; ".~a.0f3c.tmp"] png_cover_fs).1
  = Raise (ValueError "APIC is not JPEG").
Proof.
  split; [|reflexivity].
  exists png_cover_file, {[ "APIC:Cover (front)" := png_cover ]}, png_cover,
    {| im_format := "PNG"; im_size := (500, 500)%Z |}.
  split_and!; [reflexivity..| |reflexivity|reflexivity|reflexivity].
  reflexivity.
Qed.

End cover_check.

(** ** validate.py: the duration check *)

Section duration_check.

Implicit Types (fs : FS) (tools : Tools) (settings : Settings).

(** A probe that ran and returned a document. *)
Definition probed tools settings (path : Path) fs (d : jfield float) : Prop :=
  ∃ data, ffprobe tools (ffmpeg_path settings) (Validate.duration_args path) fs
          = (Exited0, Some data) ∧ pd_duration data = d.

Lemma probe_duration_probed tools settings path fs d :
  probed tools settings path fs (Val d) →
  Validate._probe_duration_seconds tools settings path fs = (Ok d, fs).
Proof.
  intros (data & Hrun & Hd).
  unfold Validate._probe_duration_seconds, bind, Utils_ffmpeg.run_ffprobe_json.
  rewrite Hrun. unfold lift. by rewrite Hd.
Qed.

(** When both probes return a duration, the check fails iff neither is
    zero and they differ by more than the tolerance. *)
Lemma validate_duration_close_probed tools settings s d fs sd dd tol :
  probed tools settings s fs (Val sd) →
  probed tools settings d fs (Val dd) →
  is_Ok (Validate.validate_duration_close tools settings s d tol fs).1 = false ↔
  Validate.is_zero sd = false ∧ Validate.is_zero dd = false ∧
  PrimFloat.ltb tol (PrimFloat.abs (PrimFloat.sub sd dd)) = true.
Proof.
  intros Hs Hd. unfold Validate.validate_duration_close, bind.
  rewrite (probe_duration_probed _ _ _ _ _ Hs).
  rewrite (probe_duration_probed _ _ _ _ _ Hd).
  destruct (Validate.is_zero sd), (Validate.is_zero dd); simpl;
    try (split; [done|by intros (? & ? & ?)]).
  destruct (PrimFloat.ltb _ _); simpl; [done|].
  split; [done|by intros (? & ? & ?)].
Qed.

(** A prober that cannot run makes the check raise, whatever the
    files. *)
Lemma validate_duration_close_probe_failure tools settings s d tol fs out :
  ffprobe tools (ffmpeg_path settings) (Validate.duration_args s) fs
    = (NotFound, out) →
  Validate.validate_duration_close tools settings s d tol fs
  = (Raise (ProcError "ffprobe not found (check PATH/FFMPEG_PATH)"), fs).
Proof.
  intros Hrun.
  unfold Validate.validate_duration_close, Validate._probe_duration_seconds,
    bind, Utils_ffmpeg.run_ffprobe_json.
  by rewrite Hrun.
Qed.

(** A transcoder that works, beside a prober that is not installed. *)
Definition no_prober : Tools :=
  {| ffmpeg := λ _ args _,
       (Exited0, Some (if bool_decide ("-vf" ∈ args)
                       then cover_file "JPEG" 500 else encoded_file));
     ffprobe := λ _ _ _, (NotFound, None) |}.

(** An album directory with its cover. *)
Definition folder_fs : FS :=
  <[ ["music"; "a.flac"] := flac_file ]>
  {[ ["music"; "cover.jpg"] := cover_file "JPEG" 800 ]}.

(** The same once the artwork of the track is resolved. *)
Definition rows_fs : FS :=
  <[ ["music"; ".~a.0f3c.jpg"] := cover_file "JPEG" 800 ]>
  (<[ ["music"; ".~a.0f3c.cover_500.jpg"] := cover_file "JPEG" 500 ]> folder_fs).

Definition folder_art : ArtSource :=
  {| kind := folder; file_path := Some ["music"; "cover.jpg"];
     stream_index := None; detail := "cover.jpg" |}.

(** C7. A duration that cannot be probed because the prober fails does
    not make the check pass: the [ProcError] of the probe leaves
    [validate_duration_close], and the track, whose artwork was resolved
    and whose audio was produced and tagged, is recorded as failed. *)
Theorem duration_check_probe_failure_raises :
  Cli.build_rows no_prober default_settings [sample_plan overwrite trash] folder_fs
  = (Ok [ (sample_plan overwrite trash, folder_art,
           Some ["music"; ".~a.0f3c.jpg"],
           Some ["music"; ".~a.0f3c.cover_500.jpg"]) ], rows_fs) ∧
  Validate.validate_duration_close no_prober default_settings
    ["music"; "a.flac"] ["music"; ".~a.0f3c.tmp"] 0.5%float rows_fs
  = (Raise (ProcError "ffprobe not found (check PATH/FFMPEG_PATH)"), rows_fs) ∧
  (Cli.process_one no_prober identity_tree (sample_plan overwrite trash)
     folder_art (Some ["music"; ".~a.0f3c.jpg"])
     (Some ["music"; ".~a.0f3c.cover_500.jpg"]) default_settings rows_fs).1
  = {| success := false; final_target := None; deleted := false;
       error := Some (ProcError "ffprobe not found (check PATH/FFMPEG_PATH)") |}.
Proof. split_and!; reflexivity. Qed.

(** The zero that stands for a duration the document does not hold does
    skip the check. *)
Example duration_check_skips_missing_duration :
  Validate.validate_duration_close
    {| ffmpeg := λ _ _ _, (NotFound, None);
       ffprobe := λ _ _ _,
         (Exited0, Some {| pd_duration := Missing; pd_streams := None |}) |}
    default_settings ["music"; "a.flac"] ["music"; ".~a.0f3c.tmp"] 0.5%float
    rows_fs
  = (Ok tt, rows_fs).
Proof. reflexivity. Qed.

(** Durations that differ by more than the tolerance fail the check;
    closer ones pass. *)
Example duration_check_on_durations :
  let prober (d : float) : Tools :=
    {| ffmpeg := λ _ _ _, (NotFound, None);
       ffprobe := λ _ args _,
         (Exited0,
          Some {| pd_duration :=
                    Val (if bool_decide ("/music/a.flac" ∈ args)
                         then 180%float else d);
                  pd_streams := None |}) |} in
  (Validate.validate_duration_close (prober 180.75%float) default_settings
     ["music"; "a.flac"] ["music"; ".~a.0f3c.tmp"] 0.5%float rows_fs).1
  = Raise (ValueError "Duration mismatch") ∧
  (Validate.validate_duration_close (prober 180.25%float) default_settings
     ["music"; "a.flac"] ["music"; ".~a.0f3c.tmp"] 0.5%float rows_fs).1
  = Ok tt.
Proof. split; reflexivity. Qed.

End duration_check.

(** ** artwork.py: failures of the external tools *)

Section art_failures.

Implicit Types (fs : FS) (tools : Tools) (settings : Settings) (plan : TrackPlan).

(** No [ProcError] leaves [detect_art_source]. *)
Lemma detect_art_source_no_ProcError tools plan settings fs e :
  (Artwork.detect_art_source tools plan settings fs).1 = Raise e →
  is_ProcError e = false.
Proof.
  unfold Artwork.detect_art_source, bind, Artwork._find_folder_art.
  destruct (List.find _ _); [done|].
  destruct (Artwork.probe_embedded tools plan settings fs)
    as [[[art|]|[]] fs']; simpl; by intros [= <-].
Qed.

(** A failure of the prober degrades to the art source of kind [none]. *)
Lemma detect_art_source_probe_failure tools plan settings fs status out :
  Artwork._find_folder_art (PurePath.parent (src plan)) fs = (Ok None, fs) →
  ffprobe tools (ffmpeg_path settings) (Artwork.stream_args (src plan)) fs
    = (status, out) →
  status ≠ Exited0 →
  Artwork.detect_art_source tools plan settings fs = (Ok Artwork.no_art, fs).
Proof.
  intros Hfolder Hrun Hstatus.
  unfold Artwork.detect_art_source, bind. rewrite Hfolder.
  unfold Artwork.probe_embedded, bind, Utils_ffmpeg.run_ffprobe_json.
  rewrite Hrun. by destruct status.
Qed.

(** A failure of the transcoder during extraction leaves
    [extract_art_to_file] as a [ProcError]. *)
Lemma extract_art_to_file_failure tools plan settings art idx fs out_path stderr written :
  kind art = embedded → stream_index art = Some idx →
  Artwork._temp_art_path plan ".art_src.png" = Ok out_path →
  ffmpeg tools (ffmpeg_path settings)
    ["-y"; "-i"; PurePath.str (src plan); "-map"; "0:" +:+ pretty idx;
     "-frames:v"; "1"; PurePath.str out_path] fs
    = (ExitedNonZero stderr, written) →
  (Artwork.extract_art_to_file tools plan settings art fs).1
  = Raise (ProcError ("ffmpeg failed: " +:+ stderr)).
Proof.
  intros Hkind Hidx Hout Hrun.
  unfold Artwork.extract_art_to_file. rewrite Hkind, Hidx, Hout.
  unfold bind, lift, Utils_ffmpeg.run_ffmpeg. rewrite Hrun.
  by destruct written.
Qed.

(** Tools that are not installed. *)
Definition missing_tools : Tools :=
  {| ffmpeg := λ _ _ _, (NotFound, None);
     ffprobe := λ _ _ _, (NotFound, None) |}.

Definition picture_stream : ProbeStream :=
  {| st_index := Val 1%Z; st_attached_pic := Some 1%Z;
     st_codec_name := Some "mjpeg"; st_width := Some 600%Z;
     st_height := Some 600%Z; st_bit_rate := Missing |}.

(** The prober finds an attached picture; the transcoder then fails on
    it. *)
Definition broken_extractor : Tools :=
  {| ffmpeg := λ _ _ _, (ExitedNonZero "Invalid data", None);
     ffprobe := λ _ _ _,
       (Exited0, Some {| pd_duration := Val 180%float;
                         pd_streams := Some [picture_stream] |}) |}.

Definition flac_only_fs : FS := {[ ["music"; "a.flac"] := flac_file ]}.

(** C3. A failure of the transcoder during extraction is not degraded to
    the no-art outcome: the [ProcError] leaves [extract_art_to_file], and
    with it the loop of [main] that resolves the artwork, whose handler
    catches [IpodPrepError] only. The same tools failing during probing
    do degrade to kind [none]. *)
Theorem extract_art_failure_propagates :
  Artwork.detect_art_source broken_extractor (sample_plan overwrite trash)
    default_settings flac_only_fs
  = (Ok {| kind := embedded; file_path := None; stream_index := Some 1%Z;
           detail := "embedded:0:1 (mjpeg 600x600)" |}, flac_only_fs) ∧
  (Artwork.extract_art_to_file broken_extractor (sample_plan overwrite trash)
     default_settings
     {| kind := embedded; file_path := None; stream_index := Some 1%Z;
        detail := "embedded:0:1 (mjpeg 600x600)" |} flac_only_fs).1
  = Raise (ProcError "ffmpeg failed: Invalid data") ∧
  (Cli.build_rows broken_extractor default_settings
     [sample_plan overwrite trash] flac_only_fs).1
  = Raise (ProcError "ffmpeg failed: Invalid data") ∧
  is_IpodPrepError (ProcError "ffmpeg failed: Invalid data") = false ∧
  Artwork.detect_art_source missing_tools (sample_plan overwrite trash)
    default_settings flac_only_fs
  = (Ok Artwork.no_art, flac_only_fs).
Proof. split_and!; reflexivity. Qed.

End art_failures.

(** ** tagging.py: where the written fields come from *)

Section tag_provenance.

Implicit Types (fs : FS) (atags : gmap string pyval) (tags : gmap string string).

(** The source file holds a value under one of the keys. *)
Definition source_tag fs (src : Path) (keys : list string) : Prop :=
  ∃ f atags k v,
    fs !! src = Some f ∧ filetags f = Some atags ∧
    k ∈ keys ∧ atags !! k = Some v ∧ v ≠ PNone.

(** The source file holds a total: under one of the keys of the total,
    or as the second item of the number. *)
Definition source_total fs (src : Path) (num_keys total_keys : list string) : Prop :=
  source_tag fs src total_keys ∨
  ∃ f atags v x0 x1 rest,
    fs !! src = Some f ∧ filetags f = Some atags ∧
    Tagging.pull_any atags num_keys = Some v ∧
    Py.nonempty_seq v = Some (x0, x1 :: rest) ∧ Py.truthy x1 = true.

Lemma pull_any_Some atags keys v :
  Tagging.pull_any atags keys = Some v →
  ∃ k, k ∈ keys ∧ atags !! k = Some v ∧ v ≠ PNone.
Proof.
  induction keys as [|k keys IH]; simpl; [done|].
  destruct (atags !! k) as [w|] eqn:Hk.
  - destruct w; try (intros [= <-]; exists k; split_and!;
                     [apply list_elem_of_here|done|done]).
    intros (k' & ? & ? & ?)%IH. exists k'. split_and!; [by right|done..].
  - intros (k' & ? & ? & ?)%IH. exists k'. split_and!; [by right|done..].
Qed.

Lemma lookup_copy_generic atags k tags j s :
  Tagging.copy_generic atags k tags !! j = Some s →
  tags !! j = Some s ∨ (j = k ∧ ∃ v, atags !! k = Some v ∧ Py.truthy v = true).
Proof.
  unfold Tagging.copy_generic.
  destruct (atags !! k) as [v|]; [|by left].
  destruct (Py.truthy v) eqn:Hv; [|by left].
  destruct (decide (k = j)) as [->|Hne].
  - intros _. right. eauto.
  - rewrite lookup_insert_ne by done. by left.
Qed.

Lemma lookup_pull_number_other atags num total nk tk tags j :
  j ≠ num → j ≠ total →
  Tagging.pull_number atags num total nk tk tags !! j = tags !! j.
Proof.
  intros Hnum Htotal. unfold Tagging.pull_number.
  set (tags1 := match Tagging.pull_any atags nk with
                | Some _ => _ | None => _ end).
  assert (tags1 !! j = tags !! j) as Htags1.
  { unfold tags1. destruct (Tagging.pull_any atags nk) as [trk|]; [|done].
    destruct (Py.nonempty_seq trk) as [[x0 rest]|].
    - destruct rest as [|x1 rest]; [by rewrite lookup_insert_ne|].
      destruct (Py.truthy x1); by rewrite !lookup_insert_ne.
    - by rewrite lookup_insert_ne. }
  destruct (Tagging.pull_any atags tk); [|done].
  case_bool_decide; [done|]. by rewrite lookup_insert_ne.
Qed.

Lemma lookup_pull_number_num atags num total nk tk tags s :
  num ≠ total →
  Tagging.pull_number atags num total nk tk tags !! num = Some s →
  tags !! num = Some s ∨ is_Some (Tagging.pull_any atags nk).
Proof.
  intros Hne. unfold Tagging.pull_number.
  destruct (Tagging.pull_any atags nk) as [trk|]; [by right; eauto|].
  destruct (Tagging.pull_any atags tk); [|by left].
  case_bool_decide; [by left|]. rewrite lookup_insert_ne by done. by left.
Qed.

Lemma lookup_pull_number_total atags num total nk tk tags s :
  num ≠ total →
  Tagging.pull_number atags num total nk tk tags !! total = Some s →
  tags !! total = Some s ∨ is_Some (Tagging.pull_any atags tk) ∨
  ∃ v x0 x1 rest,
    Tagging.pull_any atags nk = Some v ∧
    Py.nonempty_seq v = Some (x0, x1 :: rest) ∧ Py.truthy x1 = true.
Proof.
  intros Hne. unfold Tagging.pull_number.
  destruct (Tagging.pull_any atags tk) as [tot|]; [by right; left; eauto|].
  destruct (Tagging.pull_any atags nk) as [trk|]; [|by left].
  destruct (Py.nonempty_seq trk) as [[x0 rest]|] eqn:Hseq.
  - destruct rest as [|x1 rest]; [rewrite lookup_insert_ne by done; by left|].
    destruct (Py.truthy x1) eqn:Hx1.
    + intros _. right. right. by exists trk, x0, x1, rest.
    + rewrite lookup_insert_ne by done. by left.
  - rewrite lookup_insert_ne by done. by left.
Qed.

(** The tags before the title is completed. *)
Definition tags_before_title atags : gmap string string :=
  Tagging.pull_number atags "disc" "disctotal"
    ["discnumber"; "disc"; "disk"] ["totaldiscs"; "disctotal"]
    (Tagging.pull_number atags "track" "tracktotal"
       ["tracknumber"; "track"; "trkn"] ["totaltracks"; "tracktotal"]
       (foldl (λ tags k, Tagging.copy_generic atags k tags) ∅
          ["artist"; "album"; "albumartist"; "title"; "date"; "genre"])).

Lemma lookup_tags_of atags stem j :
  j ≠ "title" → Tagging.tags_of atags stem !! j = tags_before_title atags !! j.
Proof.
  intros Hj. unfold Tagging.tags_of. fold (tags_before_title atags).
  destruct (tags_before_title atags !! "title") as [t|].
  - destruct (Str.nonempty t); [done|]. by rewrite lookup_insert_ne.
  - by rewrite lookup_insert_ne.
Qed.

Lemma lookup_generic_tags atags j s :
  foldl (λ tags k, Tagging.copy_generic atags k tags) ∅
    ["artist"; "album"; "albumartist"; "title"; "date"; "genre"] !! j = Some s →
  j ∈ ["artist"; "album"; "albumartist"; "title"; "date"; "genre"] ∧
  ∃ v, atags !! j = Some v ∧ Py.truthy v = true.
Proof.
  simpl. intros H.
  repeat (apply lookup_copy_generic in H as [H|[-> ?]];
          [|split; [set_solver|done]]).
  by rewrite lookup_empty in H.
Qed.

Lemma truthy_not_None v : Py.truthy v = true → v ≠ PNone.
Proof. by destruct v. Qed.

(** A key of the reduced map that is not the title comes from the
    mapping of the source. *)
Lemma tags_of_generic atags stem j s :
  j ∈ ["artist"; "album"; "albumartist"; "date"; "genre"] →
  Tagging.tags_of atags stem !! j = Some s →
  ∃ v, atags !! j = Some v ∧ v ≠ PNone.
Proof.
  intros Hj. rewrite lookup_tags_of by set_solver. unfold tags_before_title.
  rewrite !lookup_pull_number_other by set_solver.
  intros (_ & v & ? & ?%truthy_not_None)%lookup_generic_tags. eauto.
Qed.

Lemma tags_of_track atags stem s :
  Tagging.tags_of atags stem !! "track" = Some s →
  is_Some (Tagging.pull_any atags ["tracknumber"; "track"; "trkn"]).
Proof.
  rewrite lookup_tags_of by done. unfold tags_before_title.
  rewrite lookup_pull_number_other by done.
  intros [H|H]%lookup_pull_number_num; [|done..].
  apply lookup_generic_tags in H as [Hin _]. set_solver.
Qed.

Lemma tags_of_disc atags stem s :
  Tagging.tags_of atags stem !! "disc" = Some s →
  is_Some (Tagging.pull_any atags ["discnumber"; "disc"; "disk"]).
Proof.
  rewrite lookup_tags_of by done. unfold tags_before_title.
  intros [H|H]%lookup_pull_number_num; [|done..].
  rewrite lookup_pull_number_other in H by done.
  apply lookup_generic_tags in H as [Hin _]. set_solver.
Qed.

Lemma tags_of_tracktotal atags stem s :
  Tagging.tags_of atags stem !! "tracktotal" = Some s →
  is_Some (Tagging.pull_any atags ["totaltracks"; "tracktotal"]) ∨
  ∃ v x0 x1 rest,
    Tagging.pull_any atags ["tracknumber"; "track"; "trkn"] = Some v ∧
    Py.nonempty_seq v = Some (x0, x1 :: rest) ∧ Py.truthy x1 = true.
Proof.
  rewrite lookup_tags_of by done. unfold tags_before_title.
  rewrite lookup_pull_number_other by done.
  intros [H|H]%lookup_pull_number_total; [|done..].
  apply lookup_generic_tags in H as [Hin _]. set_solver.
Qed.

Lemma tags_of_disctotal atags stem s :
  Tagging.tags_of atags stem !! "disctotal" = Some s →
  is_Some (Tagging.pull_any atags ["totaldiscs"; "disctotal"]) ∨
  ∃ v x0 x1 rest,
    Tagging.pull_any atags ["discnumber"; "disc"; "disk"] = Some v ∧
    Py.nonempty_seq v = Some (x0, x1 :: rest) ∧ Py.truthy x1 = true.
Proof.
  rewrite lookup_tags_of by done. unfold tags_before_title.
  intros [H|H]%lookup_pull_number_total; [|done..].
  rewrite lookup_pull_number_other in H by done.
  apply lookup_generic_tags in H as [Hin _]. set_solver.
Qed.

(** The title of the reduced map is the source's, or the file name
    without its suffix. *)
Lemma tags_of_title atags stem s :
  Tagging.tags_of atags stem !! "title" = Some s →
  (∃ v, atags !! "title" = Some v ∧ v ≠ PNone) ∨ s = stem.
Proof.
  unfold Tagging.tags_of. fold (tags_before_title atags).
  destruct (tags_before_title atags !! "title") as [t|] eqn:Ht.
  - destruct (Str.nonempty t).
    + rewrite Ht. intros [= <-]. left. unfold tags_before_title in Ht.
      rewrite !lookup_pull_number_other in Ht by done.
      apply lookup_generic_tags in Ht as (_ & v & ? & ?%truthy_not_None). eauto.
    + rewrite lookup_insert_eq. intros [= <-]. by right.
  - rewrite lookup_insert_eq. intros [= <-]. by right.
Qed.

End tag_provenance.

Section written_frames.

Implicit Types (fs : FS) (st : gmap string string) (tags : ID3).

Lemma lookup_set_text key v tags j fr :
  Tagging.set_text key v tags !! j = Some fr →
  tags !! j = Some fr ∨ (j = key ∧ ∃ s, v = Some s ∧ fr = TextFrame s).
Proof.
  unfold Tagging.set_text, Mutagen.add.
  destruct v as [s|]; [|by left]. destruct (Str.nonempty s); [|by left].
  destruct (decide (key = j)) as [->|Hne].
  - rewrite lookup_insert_eq. intros [= <-]. right. eauto.
  - rewrite lookup_insert_ne by done. by left.
Qed.

Lemma or_else_Some a b s :
  Tagging.or_else a b = Some s → a = Some s ∨ b = Some s.
Proof.
  unfold Tagging.or_else. destruct a as [v|]; [|by right].
  destruct (Str.nonempty v); [by left|by right].
Qed.

Lemma lookup_set_number key num total tags j fr :
  Tagging.set_number key num total tags !! j = Some fr →
  tags !! j = Some fr ∨
  (j = key ∧ ∃ n, num = Some n ∧
     (fr = TextFrame n ∨ ∃ t, total = Some t ∧ fr = TextFrame (n +:+ "/" +:+ t))).
Proof.
  unfold Tagging.set_number, Mutagen.add.
  destruct (Tagging.or_else num None) as [n|] eqn:Hn; [|by left].
  apply or_else_Some in Hn as [->|]; [|done].
  destruct (Tagging.or_else total None) as [t|] eqn:Ht.
  - apply or_else_Some in Ht as [->|]; [|done].
    destruct (decide (key = j)) as [->|Hne].
    + rewrite lookup_insert_eq. intros [= <-]. right. split; [done|].
      exists n. split; [done|]. right. eauto.
    + rewrite lookup_insert_ne by done. by left.
  - destruct (decide (key = j)) as [->|Hne].
    + rewrite lookup_insert_eq. intros [= <-]. right. split; [done|].
      exists n. split; [done|]. by left.
    + rewrite lookup_insert_ne by done. by left.
Qed.

(** The frames [add_text_frames] adds, told from its effect on an empty
    tag block. *)
Inductive written (st : gmap string string) : string → Frame → Prop :=
| written_title s :
    st !! "title" = Some s → written st "TIT2" (TextFrame s)
| written_album s :
    st !! "album" = Some s → written st "TALB" (TextFrame s)
| written_artist s :
    st !! "artist" = Some s → written st "TPE1" (TextFrame s)
| written_albumartist s :
    st !! "albumartist" = Some s ∨ st !! "album_artist" = Some s →
    written st "TPE2" (TextFrame s)
| written_genre s :
    st !! "genre" = Some s → written st "TCON" (TextFrame s)
| written_track n :
    st !! "track" = Some n → written st "TRCK" (TextFrame n)
| written_track_total n t :
    st !! "track" = Some n → st !! "tracktotal" = Some t →
    written st "TRCK" (TextFrame (n +:+ "/" +:+ t))
| written_disc n :
    st !! "disc" = Some n → written st "TPOS" (TextFrame n)
| written_disc_total n t :
    st !! "disc" = Some n → st !! "disctotal" = Some t →
    written st "TPOS" (TextFrame (n +:+ "/" +:+ t))
| written_date s :
    st !! "date" = Some s → written st "TDRC" (TextFrame s).

Lemma add_text_frames_written st key fr :
  Tagging.add_text_frames st ∅ !! key = Some fr → written st key fr.
Proof.
  unfold Tagging.add_text_frames. intros H.
  apply lookup_set_text in H as [H|(-> & s & ? & ->)]; [|by constructor].
  apply lookup_set_number in H as [H|(-> & n & ? & [->|(t & ? & ->)])];
    [|by constructor..].
  apply lookup_set_number in H as [H|(-> & n & ? & [->|(t & ? & ->)])];
    [|by constructor..].
  apply lookup_set_text in H as [H|(-> & s & ? & ->)]; [|by constructor].
  apply lookup_set_text in H as [H|(-> & s & ?%or_else_Some & ->)];
    [|by constructor].
  apply lookup_set_text in H as [H|(-> & s & ? & ->)]; [|by constructor].
  apply lookup_set_text in H as [H|(-> & s & ? & ->)]; [|by constructor].
  apply lookup_set_text in H as [H|(-> & s & ? & ->)]; [|by constructor].
  by rewrite lookup_empty in H.
Qed.

(** On any tag block the function adds these frames and keeps the
    others. *)
Lemma set_text_union key v tags :
  Tagging.set_text key v tags = Tagging.set_text key v ∅ ∪ tags.
Proof.
  unfold Tagging.set_text, Mutagen.add. destruct v as [s|].
  - destruct (Str.nonempty s).
    + by rewrite insert_union_singleton_l, insert_empty.
    + by rewrite (left_id_L ∅ (∪)).
  - by rewrite (left_id_L ∅ (∪)).
Qed.

Lemma read_source_tags_Ok src fs st fs' :
  Tagging.read_source_tags src fs = (Ok st, fs') →
  ∃ f, fs !! src = Some f ∧
       (st = {["title" := PurePath.stem src]} ∨
        ∃ atags, filetags f = Some atags ∧
                 st = Tagging.tags_of atags (PurePath.stem src)).
Proof.
  unfold Tagging.read_source_tags.
  destruct (fs !! src) as [f|]; [|done]. exists f. split; [done|].
  destruct (filetags f) as [atags|]; [|left; congruence].
  case_bool_decide; [left; congruence|]. right. exists atags. split; congruence.
Qed.

End written_frames.

Section reduced_tags.

Implicit Types (fs : FS) (st : gmap string string) (tags : ID3).

(** [f] adds frames to a tag block, the same whatever the block. *)
Definition adds (f : ID3 → ID3) : Prop := ∀ tags, f tags = f ∅ ∪ tags.

Lemma adds_compose f g : adds f → adds g → adds (g ∘ f).
Proof.
  intros Hf Hg tags. simpl.
  rewrite (Hg (f tags)), (Hf tags), (Hg (f ∅)).
  by rewrite (assoc_L (∪)).
Qed.

Lemma adds_id : adds (λ tags, tags).
Proof. intros tags. by rewrite (left_id_L ∅ (∪)). Qed.

Lemma adds_set_text key v : adds (Tagging.set_text key v).
Proof. intros tags. apply set_text_union. Qed.

Lemma adds_set_number key num total : adds (Tagging.set_number key num total).
Proof.
  intros tags. unfold Tagging.set_number, Mutagen.add.
  destruct (Tagging.or_else num None); [|by rewrite (left_id_L ∅ (∪))].
  destruct (Tagging.or_else total None);
    by rewrite insert_union_singleton_l, insert_empty.
Qed.

(** On any tag block [add_text_frames] adds the frames it adds to an
    empty one, replacing those of the same key, and keeps the others. *)
Lemma add_text_frames_union st tags :
  Tagging.add_text_frames st tags = Tagging.add_text_frames st ∅ ∪ tags.
Proof.
  revert tags. change (adds (Tagging.add_text_frames st)).
  unfold Tagging.add_text_frames.
  repeat (apply (adds_compose _ (Tagging.set_text _ _));
          [|apply adds_set_text]).
  repeat (apply (adds_compose _ (Tagging.set_number _ _ _));
          [|apply adds_set_number]).
  repeat (apply (adds_compose _ (Tagging.set_text _ _));
          [|apply adds_set_text]).
  apply adds_id.
Qed.

Lemma source_tag_of_pull_any fs src f atags keys :
  fs !! src = Some f → filetags f = Some atags →
  is_Some (Tagging.pull_any atags keys) → source_tag fs src keys.
Proof.
  intros Hf Ha [v (k & ? & ? & ?)%pull_any_Some]. by exists f, atags, k, v.
Qed.

Lemma source_tag_of_lookup fs src f atags k v :
  fs !! src = Some f → filetags f = Some atags →
  atags !! k = Some v → v ≠ PNone → source_tag fs src [k].
Proof.
  intros Hf Ha Hk Hv. exists f, atags, k, v.
  split_and!; [done..|apply list_elem_of_here|done|done].
Qed.

(** A source with an artist and a title. *)
Definition tagged_fs : FS :=
  {[ ["music"; "a.flac"] :=
       {| id3 := None;
          filetags := Some (<[ "artist" := PList [PStr "Nina"] ]>
                            (<[ "title" := PList [PStr "Feeling"] ]>
                            {[ "tracknumber" := PList [PStr "3"] ]}));
          picture := None; payload := [7%N] |} ]}.

(** A source without a title gets one all the same: the file name
    without its suffix. *)
Lemma title_written_without_source_title :
  Tagging.read_source_tags ["music"; "a.flac"] flac_only_fs
  = (Ok (<[ "artist" := "Nina" ]> {[ "title" := "a" ]}), flac_only_fs) ∧
  Tagging.add_text_frames (<[ "artist" := "Nina" ]> {[ "title" := "a" ]}) ∅
    !! "TIT2" = Some (TextFrame "a") ∧
  (Tagging.write_id3_v23_with_apic ["music"; ".~a.0f3c.tmp"] None
     (<[ "artist" := "Nina" ]> {[ "title" := "a" ]}) ["TXXX:iTunNORM"; "PRIV"]
     (<[ ["music"; ".~a.0f3c.tmp"] := encoded_file ]> flac_only_fs)).2
    !! ["music"; ".~a.0f3c.tmp"]
  = Some {| id3 := Some (<[ "TIT2" := TextFrame "a" ]>
                         {[ "TPE1" := TextFrame "Nina" ]});
            filetags := None; picture := None; payload := [42%N] |} ∧
  ¬ source_tag flac_only_fs ["music"; "a.flac"] ["title"].
Proof.
  split_and!; [reflexivity..|].
  intros (f & atags & k & v & Hf & Ha & Hk%list_elem_of_singleton & Hv & _).
  subst k. injection Hf as <-. injection Ha as <-.
  by vm_compute in Hv.
Qed.

End reduced_tags.

(** ** Python's sort *)

Section pysort.

Context {A : Type} (lt : A → A → bool).

(** [x] may stand before [y]: [y] is not smaller. *)
Definition not_after (x y : A) : Prop := lt y x = false.

Hypothesis lt_asym : ∀ x y, lt x y = true → lt y x = false.

Lemma insert_Permutation x l : PySort.insert lt x l ≡ₚ x :: l.
Proof.
  induction l as [|y l IH]; simpl; [done|].
  destruct (lt y x); [|done]. rewrite IH. apply Permutation_swap.
Qed.

Lemma sort_Permutation l : PySort.sort lt l ≡ₚ l.
Proof.
  induction l as [|x l IH]; simpl; [done|].
  fold (PySort.sort lt l). by rewrite insert_Permutation, IH.
Qed.

Lemma insert_Sorted x l :
  Sorted not_after l → Sorted not_after (PySort.insert lt x l).
Proof.
  induction 1 as [|y l Hl IH Hhd]; simpl; [by repeat constructor|].
  destruct (lt y x) eqn:Hyx.
  - constructor; [done|].
    destruct Hhd as [|z l Hyz]; simpl.
    + constructor. by apply lt_asym.
    + destruct (lt z x); constructor; [done|]. by apply lt_asym.
  - constructor; [by constructor|]. by constructor.
Qed.

Lemma sort_Sorted l : Sorted not_after (PySort.sort lt l).
Proof.
  induction l as [|x l IH]; simpl; [constructor|]. by apply insert_Sorted.
Qed.

Lemma sort_StronglySorted l :
  Transitive not_after → StronglySorted not_after (PySort.sort lt l).
Proof. intros ?. apply Sorted_StronglySorted; [done|apply sort_Sorted]. Qed.

End pysort.

Section pysort_fmap.

Context {A B : Type} (f : A → B) (ltA : A → A → bool) (ltB : B → B → bool).
Hypothesis lt_fmap : ∀ x y, ltB (f x) (f y) = ltA x y.

Lemma insert_fmap x l :
  f <$> PySort.insert ltA x l = PySort.insert ltB (f x) (f <$> l).
Proof.
  induction l as [|y l IH]; [done|].
  rewrite fmap_cons. simpl. rewrite lt_fmap.
  destruct (ltA y x); [|done]. rewrite fmap_cons. f_equal. apply IH.
Qed.

(** Sorting commutes with a map that respects the comparison. *)
Lemma sort_fmap l : f <$> PySort.sort ltA l = PySort.sort ltB (f <$> l).
Proof.
  induction l as [|x l IH]; [done|].
  rewrite fmap_cons.
  change (PySort.sort ltA (x :: l)) with (PySort.insert ltA x (PySort.sort ltA l)).
  change (PySort.sort ltB (f x :: (f <$> l)))
    with (PySort.insert ltB (f x) (PySort.sort ltB (f <$> l))).
  by rewrite insert_fmap, IH.
Qed.

End pysort_fmap.

(** ** The order of the plan list *)

Section plan_order.

Lemma ltb_negb_leb (a b : string) : String.ltb a b = negb (String.leb b a).
Proof.
  unfold String.ltb, String.leb. rewrite (String.compare_antisym b a).
  by destruct (String.compare a b).
Qed.

Lemma leb_refl (a : string) : String.leb a a = true.
Proof. apply Is_true_true. by change (String.le a a). Qed.

Lemma leb_trans (a b c : string) :
  String.leb a b = true → String.leb b c = true → String.leb a c = true.
Proof.
  intros H1%Is_true_true H2%Is_true_true. apply Is_true_true.
  change (String.le a c). by trans b.
Qed.

Lemma leb_false (a b : string) :
  String.leb a b = false → String.leb b a = true ∧ a ≠ b.
Proof.
  intros H. split.
  - by destruct (String.leb_total a b) as [?|?]; [congruence|].
  - intros ->. by rewrite leb_refl in H.
Qed.

(** Pairs in lexicographic order: the first components in order, or equal
    with the second ones in order. *)
Definition lex_le (x y : string * string) : Prop :=
  String.ltb x.1 y.1 = true ∨ (x.1 = y.1 ∧ String.leb x.2 y.2 = true).

Lemma pair_lt_false (x y : string * string) :
  PySort.pair_lt y x = false ↔ lex_le x y.
Proof.
  unfold PySort.pair_lt, PySort.str_lt, lex_le.
  rewrite !ltb_negb_leb. destruct x as [a1 b1], y as [a2 b2]; simpl.
  destruct (String.eqb a2 a1) eqn:Heq.
  - apply String.eqb_eq in Heq as ->. rewrite leb_refl. simpl.
    destruct (String.leb b1 b2); simpl; [|split; [done|intros [?|[_ ?]]; done]].
    split; [|done]. intros _. by right.
  - apply String.eqb_neq in Heq. simpl. rewrite orb_false_r.
    destruct (String.leb a1 a2) eqn:H12; simpl.
    + split; [|done]. intros _. left.
      destruct (String.leb a2 a1) eqn:H21; [|done].
      destruct Heq. by apply String.leb_antisym.
    + split; [done|]. intros [H|[-> _]]; [|done].
      apply leb_false in H12 as [H21 _]. by rewrite H21 in H.
Qed.

Lemma lex_le_total (x y : string * string) : lex_le x y ∨ lex_le y x.
Proof.
  unfold lex_le. rewrite !ltb_negb_leb.
  destruct (String.leb y.1 x.1) eqn:H21; [|by left; left].
  destruct (String.leb x.1 y.1) eqn:H12; [|by right; left].
  assert (x.1 = y.1) as Heq by by apply String.leb_antisym.
  destruct (String.leb_total x.2 y.2); [left|right]; right; by split.
Qed.

Lemma pair_lt_asym (x y : string * string) :
  PySort.pair_lt x y = true → PySort.pair_lt y x = false.
Proof.
  intros Hxy. apply pair_lt_false.
  destruct (lex_le_total x y) as [?|Hyx]; [done|].
  apply pair_lt_false in Hyx. congruence.
Qed.

Global Instance lex_le_trans : Transitive lex_le.
Proof.
  intros [a1 b1] [a2 b2] [a3 b3]. unfold lex_le. simpl.
  rewrite !ltb_negb_leb.
  intros [H12|[-> H12]] [H23|[-> H23]]; [left|by left|by left|right].
  - apply negb_true_iff in H12, H23. apply negb_true_iff.
    apply leb_false in H12 as [H12 Hne12], H23 as [H23 Hne23].
    destruct (String.leb a3 a1) eqn:H31; [|done].
    destruct Hne12. apply String.leb_antisym; [|done].
    by apply leb_trans with a3.
  - split; [done|]. by apply leb_trans with b2.
Qed.

(** The order of the plan list: by the directory of the source rendered
    as a string, then by its file name. *)
Definition plan_le (p q : TrackPlan) : Prop :=
  lex_le (Planner.plan_key p) (Planner.plan_key q).

Lemma plan_lt_not_after p q :
  not_after Planner.plan_lt p q ↔ plan_le p q.
Proof. apply pair_lt_false. Qed.

Lemma Sorted_mono {A} (R R' : relation A) (l : list A) :
  (∀ x y, R x y → R' x y) → Sorted R l → Sorted R' l.
Proof.
  intros HR. induction 1 as [|x l Hl IH Hhd]; constructor; [done|].
  destruct Hhd; constructor. by apply HR.
Qed.

Lemma sort_plans_sorted (plans : list TrackPlan) :
  StronglySorted plan_le (PySort.sort Planner.plan_lt plans).
Proof.
  apply Sorted_StronglySorted.
  - intros p q r. unfold plan_le. apply lex_le_trans.
  - apply (Sorted_mono (not_after Planner.plan_lt)).
    + intros p q. apply plan_lt_not_after.
    + apply sort_Sorted. intros p q. apply pair_lt_asym.
Qed.

End plan_order.

(** ** planner.py *)

Section planner.

Implicit Types (os : Tree) (settings : Settings).

(** A plan without its temp path. *)
Definition without_temp (p : TrackPlan) : TrackPlan :=
  {| src := src p;
     src_codec := src_codec p;
     needs_encode := needs_encode p;
     target := target p;
     temp_path := [];
     plan_delete_mode := plan_delete_mode p;
     plan_collision := plan_collision p;
     plan_sample_rate := plan_sample_rate p;
     notes := notes p |}.

(** Two results that agree but for the temp paths. *)
Definition same_plans (r r' : result (list TrackPlan)) : Prop :=
  match r, r' with
  | Ok plans, Ok plans' => without_temp <$> plans = without_temp <$> plans'
  | Raise e, Raise e' => e = e'
  | _, _ => False
  end.

Lemma plan_for_uuid settings u u' (p : Path) :
  match Planner.plan_for settings u p, Planner.plan_for settings u' p with
  | Ok plan, Ok plan' => without_temp plan = without_temp plan'
  | Raise e, Raise e' => e = e'
  | _, _ => False
  end.
Proof.
  unfold Planner.plan_for.
  destruct (Planner._AUDIO_EXTS !! _); [|done].
  by destruct (PurePath.with_suffix p ".mp3").
Qed.

Lemma plans_from_uuid settings uuid4 uuid4' i j (files : list Path) :
  same_plans (Planner.plans_from settings uuid4 i files)
             (Planner.plans_from settings uuid4' j files).
Proof.
  revert i j. induction files as [|p files IH]; intros i j; simpl; [done|].
  pose proof (plan_for_uuid settings (uuid4 i) (uuid4' j) p) as Hp.
  destruct (Planner.plan_for settings (uuid4 i) p) as [plan|e],
           (Planner.plan_for settings (uuid4' j) p) as [plan'|e'];
    simpl; try done.
  specialize (IH (S i) (S j)). unfold same_plans in IH.
  destruct (Planner.plans_from settings uuid4 (S i) files),
           (Planner.plans_from settings uuid4' (S j) files); simpl; try done.
  f_equal; [exact Hp|exact IH].
Qed.

Lemma plan_lt_without_temp (p q : TrackPlan) :
  Planner.plan_lt (without_temp p) (without_temp q) = Planner.plan_lt p q.
Proof. reflexivity. Qed.

Lemma plan_for_src settings u (p : Path) plan :
  Planner.plan_for settings u p = Ok plan → src plan = p.
Proof.
  unfold Planner.plan_for.
  destruct (Planner._AUDIO_EXTS !! _); [|done].
  destruct (PurePath.with_suffix p ".mp3"); simpl; [|done]. by intros [= <-].
Qed.

Lemma plans_from_src settings uuid4 i (files : list Path) plans :
  Planner.plans_from settings uuid4 i files = Ok plans → src <$> plans = files.
Proof.
  revert i plans. induction files as [|p files IH]; intros i plans; simpl.
  - by intros [= <-].
  - destruct (Planner.plan_for settings (uuid4 i) p) as [plan|] eqn:Hp;
      simpl; [|done].
    destruct (Planner.plans_from settings uuid4 (S i) files) as [rest|] eqn:Hr;
      simpl; [|done].
    intros [= <-]. simpl. f_equal; [exact (plan_for_src _ _ _ _ Hp)|].
    exact (IH _ _ Hr).
Qed.

(** What [build_run_plan] returns, once it returns. *)
Lemma build_run_plan_Ok os uuid4 inputs settings plans :
  Planner.build_run_plan os uuid4 inputs settings = Ok plans →
  ∃ plans0,
    Planner.plans_from settings uuid4 0 (Planner._iter_audio_files os inputs)
      = Ok plans0 ∧
    plans = PySort.sort Planner.plan_lt plans0.
Proof.
  unfold Planner.build_run_plan.
  destruct (Planner._iter_audio_files os inputs) as [|p files]; [done|].
  destruct (Planner.plans_from _ _ _ _) as [plans0|]; simpl; [|done].
  intros [= <-]. eauto.
Qed.

End planner.


(** ** The paths of a plan are apart *)

Section planned_paths.

Lemma rfind_dot_tmp (x : string) :
  Str.rfind "." (x +:+ ".tmp") = Some (String.length x).
Proof.
  induction x as [|a x IH]; [done|].
  rewrite string_app_cons. simpl. by rewrite IH.
Qed.

Lemma take_app_length (x y : string) : Str.take (String.length x) (x +:+ y) = x.
Proof.
  induction x as [|a x IH]; [done|].
  rewrite string_app_cons. simpl. by rewrite IH.
Qed.

(** The stem of a name that ends in ".tmp". *)
Lemma stem_of_tmp (x : string) :
  x ≠ "" → PurePath.stem_of (x +:+ ".tmp") = x.
Proof.
  intros Hx. unfold PurePath.stem_of, PurePath.split_at_dot.
  rewrite rfind_dot_tmp, string_length_app. simpl.
  destruct x as [|a x]; [done|]. simpl String.length.
  rewrite decide_True by lia.
  apply (take_app_length (String a x) ".tmp").
Qed.

Lemma name_joinpath (d : Path) (n : string) :
  PurePath.name (PurePath.joinpath d n) = n.
Proof. apply last_last. Qed.

Lemma parent_joinpath (d : Path) (n : string) :
  PurePath.parent (PurePath.joinpath d n) = d.
Proof. apply removelast_last. Qed.

(** The name of the temp file without its ".tmp". *)
Definition temp_stem (basename uuid : string) : string :=
  ".~" +:+ basename +:+ "." +:+ uuid.

Lemma _temp_path_for_eq (d : Path) (basename uuid : string) :
  Planner._temp_path_for d basename uuid
  = PurePath.joinpath d (temp_stem basename uuid +:+ ".tmp").
Proof.
  unfold Planner._temp_path_for, temp_stem.
  by rewrite !string_app_assoc.
Qed.

Lemma plan_for_paths settings (u : string) (p : Path) plan :
  Planner.plan_for settings u p = Ok plan →
  PurePath.name p ≠ "" ∧
  target plan = PurePath.parent p ++ [PurePath.stem p +:+ ".mp3"] ∧
  temp_path plan
  = PurePath.parent p ++ [temp_stem (PurePath.stem p) u +:+ ".tmp"].
Proof.
  unfold Planner.plan_for.
  destruct (Planner._AUDIO_EXTS !! _); [|done].
  unfold PurePath.with_suffix. simpl.
  destruct (decide (PurePath.name p = "")); simpl; [done|].
  intros [= <-]. simpl. split_and!; [done..|].
  apply _temp_path_for_eq.
Qed.

(** A temporary art path of a planned track, whatever its suffix. *)
Lemma _temp_art_path_planned settings (u : string) (p : Path) plan sfx ap :
  Planner.plan_for settings u p = Ok plan →
  Artwork._temp_art_path plan sfx = Ok ap →
  ap = PurePath.parent p ++ [temp_stem (PurePath.stem p) u +:+ sfx].
Proof.
  intros (_ & _ & Htemp)%plan_for_paths.
  unfold Artwork._temp_art_path, PurePath.with_suffix. rewrite Htemp.
  destruct (negb (PurePath.valid_suffix sfx)); [done|].
  change (PurePath.parent p ++ [?n]) with (PurePath.joinpath (PurePath.parent p) n).
  destruct (decide _); [done|]. intros [= <-].
  unfold PurePath.stem. rewrite name_joinpath, parent_joinpath.
  by rewrite stem_of_tmp.
Qed.

(** For a plan of the planner with an identifier of 32 characters, as
    [uuid4().hex] is, the target is neither the temp file nor a
    temporary art file. *)
Lemma planned_paths_apart settings (u : string) (p : Path) plan :
  String.length u = 32 →
  Planner.plan_for settings u p = Ok plan →
  target plan ≠ temp_path plan ∧
  ∀ sfx ap, Artwork._temp_art_path plan sfx = Ok ap → ap ≠ target plan.
Proof.
  intros Hu Hplan.
  pose proof (plan_for_paths _ _ _ _ Hplan) as (_ & Htarget & Htemp).
  split.
  - rewrite Htarget, Htemp. intros [_ Heq]%app_inj_tail.
    apply (f_equal String.length) in Heq. unfold temp_stem in Heq.
    rewrite !string_length_app in Heq. simpl in Heq. lia.
  - intros sfx ap Hap.
    rewrite (_temp_art_path_planned _ _ _ _ _ _ Hplan Hap), Htarget.
    intros [_ Heq]%app_inj_tail.
    apply (f_equal String.length) in Heq. unfold temp_stem in Heq.
    rewrite !string_length_app in Heq. simpl in Heq. lia.
Qed.

(** The art files of a row are temporary art paths of its plan. *)
Lemma extract_art_to_file_path tools plan settings art fs ap fs' :
  Artwork.extract_art_to_file tools plan settings art fs = (Ok (Some ap), fs') →
  ∃ sfx, Artwork._temp_art_path plan sfx = Ok ap.
Proof.
  unfold Artwork.extract_art_to_file.
  destruct (kind art), (file_path art) as [fp|], (stream_index art) as [idx|];
    try done.
  all: intros (out & fs1 & Hout & Hrest)%bind_Ok_inv.
  all: apply bind_Ok_inv in Hrest as (_ & fs2 & _ & Hret).
  all: unfold lift in Hout; injection Hout as Hout _.
  all: unfold ret in Hret; injection Hret as <- _; eauto.
Qed.

Lemma normalize_art_path tools plan settings src_image fs ap fs' :
  Artwork.normalize_art_to_jpeg_500 tools plan settings src_image fs
    = (Ok (Some ap), fs') →
  Artwork._temp_art_path plan ".cover_500.jpg" = Ok ap.
Proof.
  unfold Artwork.normalize_art_to_jpeg_500.
  destruct src_image as [si|]; [|done].
  intros (ex & fs1 & _ & Hrest)%bind_Ok_inv.
  destruct (negb ex); [done|].
  apply bind_Ok_inv in Hrest as (out & fs2 & Hout & Hrest).
  apply bind_Ok_inv in Hrest as (_ & fs3 & _ & Hret).
  unfold lift in Hout. injection Hout as Hout _.
  unfold ret in Hret. by injection Hret as <- _.
Qed.

(** For the rows [main] builds no hypothesis on the paths is left: a
    failure before the commit keeps the target of a planned track. *)
Corollary failed_planned_track_keeps_target tools os settings (u : string)
    (p : Path) plan art src_image png500 fs0 fs1 fs2 fs e fs' :
  String.length u = 32 →
  Planner.plan_for settings u p = Ok plan →
  Artwork.extract_art_to_file tools plan settings art fs0 = (Ok src_image, fs1) →
  Artwork.normalize_art_to_jpeg_500 tools plan settings src_image fs1
    = (Ok png500, fs2) →
  Cli.stages_before_commit tools plan png500 settings fs = (Raise e, fs') →
  (Cli.process_one tools os plan art src_image png500 settings fs).2
    !! target plan = fs !! target plan.
Proof.
  intros Hu Hplan Hex Hno Hst.
  destruct (planned_paths_apart _ _ _ _ Hu Hplan) as [Htemp Hart].
  eapply keeps_target_on_failure; [done..| |].
  - destruct src_image as [ap|]; [|done].
    apply extract_art_to_file_path in Hex as [sfx Hsfx].
    intros [= ->]. by apply (Hart _ _ Hsfx).
  - destruct png500 as [ap|]; [|done].
    apply normalize_art_path in Hno.
    intros [= ->]. by apply (Hart _ _ Hno).
Qed.

End planned_paths.

(** ** Planning fails only for want of audio files *)

Section planner_total.

Implicit Types (os : Tree) (settings : Settings).

Definition audio_path (p : Path) : Prop :=
  Planner.is_audio_ext (Str.lower (PurePath.suffix p)) = true.

Lemma files_of_input_audio os (p q : Path) :
  q ∈ Planner.files_of_input os p → audio_path q.
Proof.
  unfold Planner.files_of_input, audio_path.
  destruct (is_file os (resolve os p)).
  - destruct (Planner.is_audio_ext _) eqn:Hext.
    + by intros ->%list_elem_of_singleton.
    + by intros ?%elem_of_nil.
  - destruct (is_dir os (resolve os p)); [|by intros ?%elem_of_nil].
    intros ([root names] & _ & Hq)%list_elem_of_In%in_flat_map.
    apply in_flat_map in Hq as (n & _ & Hq).
    destruct (Planner.is_audio_ext (Str.lower (PurePath.suffix_of n))) eqn:Hext;
      [|done].
    destruct Hq as [<-|[]]. unfold PurePath.suffix. by rewrite name_joinpath.
Qed.

Lemma discovered_audio os (inputs : list Path) :
  Forall audio_path (Planner.discovered os inputs).
Proof.
  apply Forall_forall. intros q (p & _ & Hq)%list_elem_of_In%in_flat_map.
  apply (files_of_input_audio os p). by apply list_elem_of_In.
Qed.

Lemma plan_for_total settings (u : string) (p : Path) :
  audio_path p → ∃ plan, Planner.plan_for settings u p = Ok plan.
Proof.
  unfold audio_path, Planner.is_audio_ext, Planner.plan_for.
  intros [codec Hcodec]%bool_decide_eq_true. rewrite Hcodec.
  unfold PurePath.with_suffix. simpl.
  destruct (decide (PurePath.name p = "")) as [Hname|]; simpl; [|eauto].
  unfold PurePath.suffix in Hcodec. by rewrite Hname in Hcodec.
Qed.

Lemma plans_from_total settings (uuid4 : nat → string) i (files : list Path) :
  Forall audio_path files →
  ∃ plans, Planner.plans_from settings uuid4 i files = Ok plans.
Proof.
  intros Hall. revert i. induction Hall as [|p files Hp _ IH]; intros i; simpl.
  - eauto.
  - destruct (plan_for_total settings (uuid4 i) p Hp) as [plan ->].
    destruct (IH (S i)) as [plans ->]. simpl. eauto.
Qed.

(** [build_run_plan] returns a plan list unless no audio file was
    discovered, and then raises [PlanError]. *)
Lemma build_run_plan_total os (uuid4 : nat → string) inputs settings :
  match Planner.build_run_plan os uuid4 inputs settings with
  | Ok plans => length plans = length (Planner.discovered os inputs)
                ∧ Planner.discovered os inputs ≠ []
  | Raise e => e = PlanError "No supported audio files found."
               ∧ Planner.discovered os inputs = []
  end.
Proof.
  unfold Planner.build_run_plan.
  assert (Planner._iter_audio_files os inputs ≡ₚ Planner.discovered os inputs)
    as Hperm by apply sort_Permutation.
  destruct (Planner._iter_audio_files os inputs) as [|p files] eqn:Hfiles.
  - split; [done|]. by apply Permutation_nil_l in Hperm.
  - destruct (plans_from_total settings uuid4 0 (p :: files)) as [plans Hplans].
    { rewrite Hperm. apply discovered_audio. }
    rewrite Hplans. simpl. split.
    + rewrite sort_Permutation, <-Hperm.
      apply plans_from_src in Hplans. by rewrite <-Hplans, length_fmap.
    + intros Hnil. rewrite Hnil in Hperm. by apply Permutation_nil_r in Hperm.
Qed.

End planner_total.

(** ** planner.py: the plan list *)

Section plan_list.

Implicit Types (os : Tree) (settings : Settings).

(** C4, as the code has it. Two invocations of [build_run_plan] on the
    same inputs over the same directory tree, whatever the identifiers
    [uuid4] hands out, either raise the same error or return plan
    lists that agree in order and in every field but the temp path; a
    returned list is sorted by the containing directory rendered as a
    string, then by the file name, and the only error is the
    [PlanError] for want of audio files. *)
Theorem build_run_plan_deterministic os (uuid4 uuid4' : nat → string)
    inputs settings :
  same_plans (Planner.build_run_plan os uuid4 inputs settings)
             (Planner.build_run_plan os uuid4' inputs settings) ∧
  match Planner.build_run_plan os uuid4 inputs settings with
  | Ok plans => StronglySorted plan_le plans
  | Raise e => e = PlanError "No supported audio files found."
  end.
Proof.
  split.
  - unfold Planner.build_run_plan.
    destruct (Planner._iter_audio_files os inputs) as [|p files] eqn:Hfiles;
      [done|].
    pose proof (plans_from_uuid settings uuid4 uuid4' 0 0 (p :: files)) as H.
    unfold same_plans in *.
    destruct (Planner.plans_from settings uuid4 0 (p :: files)),
             (Planner.plans_from settings uuid4' 0 (p :: files));
      simpl; try done.
    rewrite !(sort_fmap without_temp Planner.plan_lt Planner.plan_lt)
      by apply plan_lt_without_temp.
    by rewrite H.
  - pose proof (build_run_plan_total os uuid4 inputs settings) as Htotal.
    destruct (Planner.build_run_plan os uuid4 inputs settings) as [plans|e]
      eqn:Hrun; [|by destruct Htotal].
    apply build_run_plan_Ok in Hrun as (plans0 & _ & ->).
    apply sort_plans_sorted.
Qed.

(** C6, as the code has it. The plan list holds one plan for every
    discovered path, with its multiplicity: its sources are, up to
    order, the paths [_iter_audio_files] collects, where an input that
    is a file contributes its resolved path and an input that is a
    directory the paths of the audio files under it. *)
Theorem build_run_plan_sources os uuid4 inputs settings plans :
  Planner.build_run_plan os uuid4 inputs settings = Ok plans →
  src <$> plans ≡ₚ Planner.discovered os inputs ∧
  ∀ p, p ∈ inputs → is_file os (resolve os p) = true →
       Planner.is_audio_ext (Str.lower (PurePath.suffix (resolve os p))) = true →
       Planner.files_of_input os p = [resolve os p].
Proof.
  intros (plans0 & Hfrom & ->)%build_run_plan_Ok. split.
  - rewrite sort_Permutation. rewrite (plans_from_src _ _ _ _ _ Hfrom).
    apply sort_Permutation.
  - intros p _ Hfile Haudio. unfold Planner.files_of_input.
    by rewrite Hfile, Haudio.
Qed.

End plan_list.

(** ** The planner on samples *)

Section planner_samples.

(** A music directory with two albums; [shortcut.flac] is a symbolic
    link to a track of the first. *)
Definition sample_tree : Tree :=
  {| resolve := λ p,
       if bool_decide (p = ["shortcut.flac"]) then ["music"; "b"; "1.flac"]
       else p;
     is_file := λ p,
       bool_decide (p ∈ [ ["music"; "b"; "1.flac"]; ["music"; "b"; "2.mp3"];
                          ["music"; "a"; "9.ogg"]; ["music"; "a"; "cover.jpg"] ]);
     is_dir := λ p,
       bool_decide (p ∈ [ ["music"]; ["music"; "a"]; ["music"; "b"] ]);
     walk := λ p,
       if bool_decide (p = ["music"]) then
         [ (["music"], []);
           (["music"; "b"], ["2.mp3"; "1.flac"]);
           (["music"; "a"], ["cover.jpg"; "9.ogg"]) ]
       else if bool_decide (p = ["music"; "a"]) then
         [ (["music"; "a"], ["cover.jpg"; "9.ogg"]) ]
       else if bool_decide (p = ["music"; "b"]) then
         [ (["music"; "b"], ["2.mp3"; "1.flac"]) ]
       else [] |}.

Definition plan_of (p : Path) (codec : string) (encode : bool) (t tmp : Path)
  : TrackPlan :=
  {| src := p; src_codec := codec; needs_encode := encode;
     target := t; temp_path := tmp;
     plan_delete_mode := trash; plan_collision := overwrite;
     plan_sample_rate := sr_44100;
     notes := [ if encode then "will encode to 320 CBR, 44.1 kHz"
                else "will copy audio (already MP3)" ] |}.

(** The plans come out by directory, then by name, whatever the order
    of the walk; the identifiers are drawn in the order of the sorted
    files. *)
Example build_run_plan_sample :
  Planner.build_run_plan sample_tree (λ i, pretty i) [["music"]] default_settings
  = Ok [ plan_of ["music"; "a"; "9.ogg"] "ogg" true
           ["music"; "a"; "9.mp3"] ["music"; "a"; ".~9.0.tmp"];
         plan_of ["music"; "b"; "1.flac"] "flac" true
           ["music"; "b"; "1.mp3"] ["music"; "b"; ".~1.1.tmp"];
         plan_of ["music"; "b"; "2.mp3"] "mp3" false
           ["music"; "b"; "2.mp3"] ["music"; "b"; ".~2.2.tmp"] ].
Proof. reflexivity. Qed.

(** Two runs with different identifiers differ in the temp paths. *)
Lemma build_run_plan_temp_paths_differ :
  Planner.build_run_plan sample_tree (λ _, "0f3c") [["music"; "a"]] default_settings
  = Ok [ plan_of ["music"; "a"; "9.ogg"] "ogg" true
           ["music"; "a"; "9.mp3"] ["music"; "a"; ".~9.0f3c.tmp"] ] ∧
  Planner.build_run_plan sample_tree (λ _, "77aa") [["music"; "a"]] default_settings
  = Ok [ plan_of ["music"; "a"; "9.ogg"] "ogg" true
           ["music"; "a"; "9.mp3"] ["music"; "a"; ".~9.77aa.tmp"] ] ∧
  Planner.build_run_plan sample_tree (λ _, "0f3c") [["music"; "a"]] default_settings
  ≠ Planner.build_run_plan sample_tree (λ _, "77aa") [["music"; "a"]]
      default_settings.
Proof.
  assert (Planner.build_run_plan sample_tree (λ _, "0f3c") [["music"; "a"]]
            default_settings
          = Ok [ plan_of ["music"; "a"; "9.ogg"] "ogg" true
                   ["music"; "a"; "9.mp3"] ["music"; "a"; ".~9.0f3c.tmp"] ])
    as H1 by reflexivity.
  assert (Planner.build_run_plan sample_tree (λ _, "77aa") [["music"; "a"]]
            default_settings
          = Ok [ plan_of ["music"; "a"; "9.ogg"] "ogg" true
                   ["music"; "a"; "9.mp3"] ["music"; "a"; ".~9.77aa.tmp"] ])
    as H2 by reflexivity.
  split_and!; [done..|]. rewrite H1, H2. discriminate.
Qed.

(** A file given twice, or once by a symbolic link and once under its
    directory, is planned twice. *)
Lemma duplicate_inputs_planned_twice :
  Planner.build_run_plan sample_tree (λ i, pretty i)
    [["music"; "b"; "1.flac"]; ["music"; "b"; "1.flac"]] default_settings
  = Ok [ plan_of ["music"; "b"; "1.flac"] "flac" true
           ["music"; "b"; "1.mp3"] ["music"; "b"; ".~1.0.tmp"];
         plan_of ["music"; "b"; "1.flac"] "flac" true
           ["music"; "b"; "1.mp3"] ["music"; "b"; ".~1.1.tmp"] ] ∧
  Planner.build_run_plan sample_tree (λ i, pretty i)
    [["shortcut.flac"]; ["music"; "b"]] default_settings
  = Ok [ plan_of ["music"; "b"; "1.flac"] "flac" true
           ["music"; "b"; "1.mp3"] ["music"; "b"; ".~1.0.tmp"];
         plan_of ["music"; "b"; "1.flac"] "flac" true
           ["music"; "b"; "1.mp3"] ["music"; "b"; ".~1.1.tmp"];
         plan_of ["music"; "b"; "2.mp3"] "mp3" false
           ["music"; "b"; "2.mp3"] ["music"; "b"; ".~2.2.tmp"] ].
Proof. split; reflexivity. Qed.

Lemma build_run_plan_sources_witness :
  src <$> [ plan_of ["music"; "b"; "1.flac"] "flac" true
              ["music"; "b"; "1.mp3"] ["music"; "b"; ".~1.0.tmp"];
            plan_of ["music"; "b"; "1.flac"] "flac" true
              ["music"; "b"; "1.mp3"] ["music"; "b"; ".~1.1.tmp"];
            plan_of ["music"; "b"; "2.mp3"] "mp3" false
              ["music"; "b"; "2.mp3"] ["music"; "b"; ".~2.2.tmp"] ]
    ≡ₚ Planner.discovered sample_tree [["shortcut.flac"]; ["music"; "b"]] ∧
  ∀ p, p ∈ [["shortcut.flac"]; ["music"; "b"]] →
       is_file sample_tree (resolve sample_tree p) = true →
       Planner.is_audio_ext
         (Str.lower (PurePath.suffix (resolve sample_tree p))) = true →
       Planner.files_of_input sample_tree p = [resolve sample_tree p].
Proof.
  apply (build_run_plan_sources sample_tree (λ i, pretty i)
           [["shortcut.flac"]; ["music"; "b"]] default_settings).
  reflexivity.
Defined.

End planner_samples.

(** ** pathlib on samples *)

Section pathlib_samples.

Example suffix_samples :
  PurePath.suffix_of "a.flac" = ".flac" ∧
  PurePath.suffix_of "a.tar.gz" = ".gz" ∧
  PurePath.suffix_of ".hidden" = "" ∧
  PurePath.suffix_of "trailing." = "" ∧
  PurePath.suffix_of "plain" = "" ∧
  PurePath.stem_of "a.tar.gz" = "a.tar" ∧
  PurePath.stem_of ".hidden" = ".hidden".
Proof. by split_and!. Qed.

Example with_suffix_samples :
  PurePath.with_suffix ["music"; "a.flac"] ".mp3" = Ok ["music"; "a.mp3"] ∧
  PurePath.with_suffix ["music"; "a"] ".mp3" = Ok ["music"; "a.mp3"] ∧
  PurePath.with_suffix [] ".mp3" = Raise (ValueError "has an empty name") ∧
  PurePath.with_suffix ["music"; "a.flac"] "mp3" = Raise (ValueError "Invalid suffix") ∧
  PurePath.str ["music"; "a.flac"] = "/music/a.flac" ∧
  PurePath.str (PurePath.parent ["a.flac"]) = "/".
Proof. by split_and!. Qed.

Example lower_sample : Str.lower ".FLAC" = ".flac" ∧ Str.lower ".Mp3" = ".mp3".
Proof. by split. Qed.

(** Tuples and numbers among the tag values, as MP4 atoms have them. *)
Example tags_of_sample :
  Tagging.tags_of
    (<[ "trkn" := PList [PTuple [PInt 3; PInt 12]] ]>
     (<[ "disk" := PTuple [PInt 0; PInt 2] ]>
     {[ "album" := PList [PStr "Pastel Blues"] ]})) "track03"
  = <[ "album" := "Pastel Blues" ]>
    (<[ "track" := "(3, 12)" ]>
    (<[ "disc" := "" ]>
    (<[ "disctotal" := "2" ]>
    {[ "title" := "track03" ]}))).
Proof. reflexivity. Qed.

End pathlib_samples.

(** ** The order of enumeration does not matter *)

Section enumeration_order.

(** [p] may stand before [q] in the sorted list of files. *)
Definition path_le (p q : Path) : Prop := not_after PySort.path_lt p q.

Lemma ltb_false_leb (a b : string) : String.ltb a b = false ↔ String.leb b a = true.
Proof. rewrite ltb_negb_leb. by destruct (String.leb b a). Qed.

Lemma path_lt_cons_false (a b : string) (p q : Path) :
  PySort.path_lt (a :: p) (b :: q) = false ↔
  String.leb b a = true ∧ (a = b → PySort.path_lt p q = false).
Proof.
  simpl. unfold PySort.str_lt. rewrite orb_false_iff, ltb_false_leb.
  destruct (String.eqb a b) eqn:Heq; simpl.
  - apply String.eqb_eq in Heq. naive_solver.
  - apply String.eqb_neq in Heq. naive_solver.
Qed.

Lemma path_lt_asym (p q : Path) :
  PySort.path_lt p q = true → PySort.path_lt q p = false.
Proof.
  revert q. induction p as [|a p IH]; intros [|b q]; try done.
  intros Hlt. apply path_lt_cons_false. simpl in Hlt. unfold PySort.str_lt in Hlt.
  apply orb_true_iff in Hlt as [Hlt|[->%String.eqb_eq Hlt]%andb_true_iff].
  - rewrite ltb_negb_leb in Hlt. apply negb_true_iff, leb_false in Hlt as [? ?].
    split; [done|]. by intros ->.
  - split; [apply leb_refl|]. intros _. by apply IH.
Qed.

Global Instance path_le_trans : Transitive path_le.
Proof.
  unfold path_le, not_after. intros p q r. revert q r.
  induction p as [|a p IH]; intros [|b q] [|c r]; try done.
  intros [Hab Hpq]%path_lt_cons_false [Hbc Hqr]%path_lt_cons_false.
  apply path_lt_cons_false. split; [by apply leb_trans with b|].
  intros ->. assert (b = a) as -> by by apply String.leb_antisym.
  apply (IH q r); auto.
Qed.

Global Instance path_le_antisym : AntiSymm (=) path_le.
Proof.
  unfold path_le, not_after. intros p. induction p as [|a p IH]; intros [|b q];
    try done.
  intros [Hab Hqp]%path_lt_cons_false [Hba Hpq]%path_lt_cons_false.
  assert (a = b) as -> by by apply String.leb_antisym.
  f_equal. apply IH; auto.
Qed.

(** The sorted list of files depends on the files that are found, not on
    the order in which the operating system enumerates them. *)
Lemma _iter_audio_files_enumeration (os os' : Tree) (inputs inputs' : list Path) :
  Planner.discovered os inputs ≡ₚ Planner.discovered os' inputs' →
  Planner._iter_audio_files os inputs = Planner._iter_audio_files os' inputs'.
Proof.
  intros Hperm. unfold Planner._iter_audio_files.
  apply (Sorted_unique path_le); [apply _..| | |].
  - apply sort_Sorted, path_lt_asym.
  - apply sort_Sorted, path_lt_asym.
  - by rewrite !sort_Permutation.
Qed.

End enumeration_order.

(** * Part III: further properties of the code *)

(** ** Names, stems and suffixes *)

Section names.

Lemma take_drop (i : nat) (s : string) : Str.take i s +:+ Str.drop i s = s.
Proof.
  revert s. induction i as [|i IH]; intros [|a s]; simpl; try done.
  by rewrite string_app_cons, IH.
Qed.

Lemma drop_app_length (x y : string) : Str.drop (String.length x) (x +:+ y) = y.
Proof.
  induction x as [|a x IH]; [done|]. by rewrite string_app_cons.
Qed.

Lemma length_drop (i : nat) (s : string) :
  String.length (Str.drop i s) = String.length s - i.
Proof. revert s. induction i as [|i IH]; intros [|a s]; simpl; auto with lia. Qed.

(** A name is its stem followed by its suffix. *)
Lemma stem_suffix (nm : string) :
  PurePath.stem_of nm +:+ PurePath.suffix_of nm = nm.
Proof.
  unfold PurePath.stem_of, PurePath.suffix_of.
  destruct (PurePath.split_at_dot nm); [apply take_drop|apply string_app_nil_r].
Qed.

(** [rfind] finds the last occurrence. *)
Lemma rfind_Some (c : ascii) (s : string) (i : nat) :
  Str.rfind c s = Some i →
  ∃ t, Str.drop i s = String c t ∧ Str.rfind c t = None.
Proof.
  revert i. induction s as [|a s IH]; intros i; simpl; [done|].
  destruct (Str.rfind c s) as [j|] eqn:Hj.
  - intros [= <-]. by apply IH.
  - destruct (Ascii.eqb a c) eqn:Hac; [|done].
    apply Ascii.eqb_eq in Hac as ->. intros [= <-]. eauto.
Qed.

Lemma rfind_app (c : ascii) (x t : string) :
  Str.rfind c t = None →
  Str.rfind c (x +:+ String c t) = Some (String.length x).
Proof.
  intros Ht. induction x as [|a x IH].
  - rewrite string_app_nil_l. simpl. by rewrite Ht, Ascii.eqb_refl.
  - rewrite string_app_cons. simpl. by rewrite IH.
Qed.

(** An extension: a dot followed by at least one character, none of them
    a dot. *)
Definition is_ext (sfx : string) : Prop :=
  ∃ t, sfx = String "."%char t ∧ Str.rfind "." t = None ∧ t ≠ "".

(** The suffix of a name is empty or an extension. *)
Lemma suffix_of_cases (nm : string) :
  PurePath.suffix_of nm = "" ∨ is_ext (PurePath.suffix_of nm).
Proof.
  unfold PurePath.suffix_of, PurePath.split_at_dot.
  destruct (Str.rfind "." nm) as [i|] eqn:Hi; [|by left].
  destruct (decide _) as [[Hpos Hlt]|]; [|by left]. right.
  destruct (rfind_Some _ _ _ Hi) as (t & Hdrop & Ht).
  exists t. split_and!; [done..|].
  intros ->. apply (f_equal String.length) in Hdrop.
  rewrite length_drop in Hdrop. simpl in Hdrop. lia.
Qed.

(** The stem and the suffix of a name put together from a stem and an
    extension. *)
Lemma split_stem_ext (x sfx : string) :
  x ≠ "" → is_ext sfx →
  PurePath.stem_of (x +:+ sfx) = x ∧ PurePath.suffix_of (x +:+ sfx) = sfx.
Proof.
  intros Hx (t & -> & Ht & Hne).
  unfold PurePath.stem_of, PurePath.suffix_of, PurePath.split_at_dot.
  rewrite (rfind_app _ x t Ht), string_length_app.
  destruct x as [|a x]; [done|]. destruct t as [|b t]; [done|].
  simpl String.length. rewrite decide_True by lia.
  split; [apply (take_app_length (String a x))|apply (drop_app_length (String a x))].
Qed.

Lemma stem_of_nonempty (nm : string) : nm ≠ "" → PurePath.stem_of nm ≠ "".
Proof.
  unfold PurePath.stem_of, PurePath.split_at_dot. intros Hnm.
  destruct (Str.rfind "." nm) as [i|]; [|done].
  destruct (decide _) as [[Hpos _]|]; [|done].
  destruct i as [|i]; [lia|]. by destruct nm.
Qed.

Lemma path_parent_name (p : Path) :
  PurePath.name p ≠ "" → PurePath.parent p ++ [PurePath.name p] = p.
Proof.
  intros Hname. symmetry. apply app_removelast_last.
  intros ->. by apply Hname.
Qed.

Lemma is_ext_mp3 : is_ext ".mp3".
Proof. by exists "mp3". Qed.

End names.

(** ** fsops.py: what a commit can and cannot do *)

Section commit_safety.

Implicit Types (fs : FS) (plan : TrackPlan).

Lemma place_inv (temp tgt : Path) fs r fs' :
  Fsops.place temp tgt fs = (r, fs') →
  (∃ f, fs !! temp = Some f ∧ r = Ok tgt ∧ fs' = <[tgt := f]> (delete temp fs)) ∨
  (fs !! temp = None ∧ r = Raise FileNotFoundError ∧ fs' = fs).
Proof.
  unfold Fsops.place, bind, Os.replace, ret.
  destruct (fs !! temp) as [f|]; intros [= <- <-]; [left|right]; eauto.
Qed.

(** X1. Whatever the collision policy and whether or not the target or
    the temp file exist, [atomic_commit] either returns a path that
    exists afterwards, having changed no path but the temp file and the
    returned one, or raises [FileNotFoundError] for a missing temp file,
    having changed nothing.  A returned path other than the target comes
    from the policy [version] and did not exist before. *)
Theorem atomic_commit_safe plan fs r fs' :
  PurePath.name (target plan) ≠ "" →
  Fsops.atomic_commit plan fs = (r, fs') →
  match r with
  | Ok final =>
      is_Some (fs' !! final) ∧
      (∀ p, p ≠ temp_path plan → p ≠ final → fs' !! p = fs !! p) ∧
      (final = target plan ∨
       (plan_collision plan = version ∧ fs !! final = None ∧
        is_Some (fs !! target plan)))
  | Raise e =>
      e = FileNotFoundError ∧ fs !! temp_path plan = None ∧ fs' = fs
  end.
Proof.
  intros Hname. unfold Fsops.atomic_commit, bind, Os.exists_.
  assert (∀ tgt, Fsops.place (temp_path plan) tgt fs = (r, fs') →
            (tgt = target plan ∨
             (plan_collision plan = version ∧ fs !! tgt = None ∧
              is_Some (fs !! target plan))) →
            match r with
            | Ok final =>
                is_Some (fs' !! final) ∧
                (∀ p, p ≠ temp_path plan → p ≠ final → fs' !! p = fs !! p) ∧
                (final = target plan ∨
                 (plan_collision plan = version ∧ fs !! final = None ∧
                  is_Some (fs !! target plan)))
            | Raise e =>
                e = FileNotFoundError ∧ fs !! temp_path plan = None ∧ fs' = fs
            end) as Hplace.
  { intros tgt [(f & Hf & -> & ->)|(Hf & -> & ->)]%place_inv Htgt; [|done].
    split_and!; [by rewrite lookup_insert_eq| |done].
    intros p Hp1 Hp2. by rewrite lookup_insert_ne, lookup_delete_ne. }
  case_bool_decide as Hex.
  - destruct (plan_collision plan) eqn:Hpol.
    + intros H. apply (Hplace _ H). by left.
    + intros [= <- <-]. split_and!; [done..|by left].
    + destruct (_versioned_name_spec fs (target plan) Hname)
        as (k & _ & -> & Hfree & _).
      intros H. apply (Hplace _ H). by right.
  - intros H. apply (Hplace _ H). by left.
Qed.

Lemma atomic_commit_safe_witness :
  is_Some ((<[ ["music"; "a.mp3"] := sample_file 1 ]>
            (<[ ["music"; "a (2).mp3"] := sample_file 2 ]>
            (<[ ["music"; "a (3).mp3"] := sample_file 3 ]> (∅ : FS))))
           !! ["music"; "a (3).mp3"]) ∧
  (∀ p, p ≠ temp_path (sample_plan version trash) → p ≠ ["music"; "a (3).mp3"] →
     (<[ ["music"; "a.mp3"] := sample_file 1 ]>
      (<[ ["music"; "a (2).mp3"] := sample_file 2 ]>
      (<[ ["music"; "a (3).mp3"] := sample_file 3 ]> (∅ : FS)))) !! p
     = crowded_fs !! p) ∧
  (["music"; "a (3).mp3"] = target (sample_plan version trash) ∨
   (plan_collision (sample_plan version trash) = version ∧
    crowded_fs !! ["music"; "a (3).mp3"] = None ∧
    is_Some (crowded_fs !! target (sample_plan version trash)))).
Proof.
  apply (atomic_commit_safe (sample_plan version trash) crowded_fs
           (Ok ["music"; "a (3).mp3"])).
  - discriminate.
  - reflexivity.
Defined.

(** X2. Two commits under the policy [version] onto the same existing
    target take two different decorated names, the second with the
    greater number, and overwrite nothing: the old target and both
    committed files are there afterwards. *)
Theorem version_commits_monotone plan1 plan2 fs (old new1 new2 : File) :
  target plan2 = target plan1 →
  plan_collision plan1 = version → plan_collision plan2 = version →
  PurePath.name (target plan1) ≠ "" →
  fs !! target plan1 = Some old →
  fs !! temp_path plan1 = Some new1 →
  fs !! temp_path plan2 = Some new2 →
  temp_path plan1 ≠ temp_path plan2 →
  temp_path plan1 ≠ target plan1 → temp_path plan2 ≠ target plan1 →
  (∀ j, temp_path plan1 ≠ cand_path (target plan1) j) →
  ∃ (k1 k2 : N) (fs1 fs2 : FS),
    Fsops.atomic_commit plan1 fs = (Ok (cand_path (target plan1) k1), fs1) ∧
    Fsops.atomic_commit plan2 fs1 = (Ok (cand_path (target plan1) k2), fs2) ∧
    (2 ≤ k1 < k2)%N ∧
    fs2 !! target plan1 = Some old ∧
    fs2 !! cand_path (target plan1) k1 = Some new1 ∧
    fs2 !! cand_path (target plan1) k2 = Some new2.
Proof.
  intros Htgt Hpol1 Hpol2 Hname Hold Hnew1 Hnew2 Htemps Ht1 Ht2 Hdecor.
  set (tgt := target plan1) in *.
  destruct (_versioned_name_spec fs tgt Hname) as (k1 & Hk1 & Hvn1 & Hfree1 & Htaken1).
  set (fs1 := <[cand_path tgt k1 := new1]> (delete (temp_path plan1) fs)).
  assert (Fsops.atomic_commit plan1 fs = (Ok (cand_path tgt k1), fs1)) as Hc1.
  { unfold Fsops.atomic_commit, bind, Os.exists_. fold tgt.
    rewrite bool_decide_eq_true_2 by by rewrite Hold.
    rewrite Hpol1, Hvn1. unfold Fsops.place, bind, Os.replace, ret.
    by rewrite Hnew1. }
  assert (cand_path tgt k1 ≠ temp_path plan2) as Hc1t2 by congruence.
  assert (cand_path tgt k1 ≠ tgt) as Hc1tgt by congruence.
  assert (fs1 !! tgt = Some old) as Hold1.
  { unfold fs1. by rewrite lookup_insert_ne, lookup_delete_ne. }
  assert (fs1 !! temp_path plan2 = Some new2) as Hnew21.
  { unfold fs1. by rewrite lookup_insert_ne, lookup_delete_ne. }
  destruct (_versioned_name_spec fs1 tgt Hname) as (k2 & Hk2 & Hvn2 & Hfree2 & Htaken2).
  set (fs2 := <[cand_path tgt k2 := new2]> (delete (temp_path plan2) fs1)).
  assert (Fsops.atomic_commit plan2 fs1 = (Ok (cand_path tgt k2), fs2)) as Hc2.
  { unfold Fsops.atomic_commit, bind, Os.exists_. rewrite Htgt. fold tgt.
    rewrite bool_decide_eq_true_2 by by rewrite Hold1.
    rewrite Hpol2, Hvn2. unfold Fsops.place, bind, Os.replace, ret.
    by rewrite Hnew21. }
  assert (k1 < k2)%N as Hlt.
  { destruct (decide (k2 < k1)%N) as [Hlt|].
    - destruct (Htaken1 k2) as [f Hf]; [lia|].
      unfold fs1 in Hfree2.
      rewrite lookup_insert_ne in Hfree2 by (intros ?%cand_path_inj; lia).
      rewrite lookup_delete_ne in Hfree2 by apply Hdecor. congruence.
    - destruct (decide (k2 = k1)) as [->|]; [|lia].
      unfold fs1 in Hfree2. by rewrite lookup_insert_eq in Hfree2. }
  assert (cand_path tgt k2 ≠ cand_path tgt k1) as Hc21
    by (intros ?%cand_path_inj; lia).
  assert (cand_path tgt k2 ≠ tgt) as Hc2tgt by congruence.
  exists k1, k2, fs1, fs2. split_and!; [done..|lia|lia| | |].
  - unfold fs2. by rewrite lookup_insert_ne, lookup_delete_ne.
  - unfold fs2. rewrite lookup_insert_ne, lookup_delete_ne by done.
    unfold fs1. by rewrite lookup_insert_eq.
  - unfold fs2. by rewrite lookup_insert_eq.
Qed.

(** A second track, next to the sample one, that is planned onto the same
    target. *)
Definition second_plan : TrackPlan :=
  {| src := ["music"; "a.wav"];
     src_codec := "wav";
     needs_encode := true;
     target := ["music"; "a.mp3"];
     temp_path := ["music"; ".~a.77aa.tmp"];
     plan_delete_mode := trash;
     plan_collision := version;
     plan_sample_rate := sr_44100;
     notes := ["will encode to 320 CBR, 44.1 kHz"] |}.

Definition two_temps_fs : FS :=
  <[ ["music"; ".~a.77aa.tmp"] := sample_file 4 ]> crowded_fs.

Lemma version_commits_monotone_witness :
  ∃ (k1 k2 : N) (fs1 fs2 : FS),
    Fsops.atomic_commit (sample_plan version trash) two_temps_fs
      = (Ok (cand_path ["music"; "a.mp3"] k1), fs1) ∧
    Fsops.atomic_commit second_plan fs1
      = (Ok (cand_path ["music"; "a.mp3"] k2), fs2) ∧
    (2 ≤ k1 < k2)%N ∧
    fs2 !! ["music"; "a.mp3"] = Some (sample_file 1) ∧
    fs2 !! cand_path ["music"; "a.mp3"] k1 = Some (sample_file 3) ∧
    fs2 !! cand_path ["music"; "a.mp3"] k2 = Some (sample_file 4).
Proof.
  apply (version_commits_monotone (sample_plan version trash) second_plan
           two_temps_fs (sample_file 1) (sample_file 3) (sample_file 4));
    try reflexivity; discriminate.
Defined.

(** X3. A name chosen by [_versioned_name] for a path with an extension
    lies in the directory of that path, is another name than the path's,
    and keeps the extension: the number goes between the stem and the
    suffix.  The file system is only read. *)
Theorem versioned_name_keeps_extension (path chosen : Path) fs fs' :
  PurePath.suffix path ≠ "" →
  Fsops._versioned_name path fs = (Ok chosen, fs') →
  PurePath.parent chosen = PurePath.parent path ∧
  PurePath.suffix chosen = PurePath.suffix path ∧
  (∃ k : N, (2 ≤ k)%N ∧
     PurePath.stem chosen = PurePath.stem path +:+ " (" +:+ pretty k +:+ ")") ∧
  chosen ≠ path ∧
  fs' = fs.
Proof.
  intros Hsfx Hres.
  assert (PurePath.name path ≠ "") as Hname.
  { intros Hname. apply Hsfx. unfold PurePath.suffix. by rewrite Hname. }
  destruct (_versioned_name_spec fs path Hname) as (k & Hk & Hvn & _ & _).
  rewrite Hvn in Hres. injection Hres as <- <-.
  set (x := PurePath.stem path +:+ " (" +:+ pretty k +:+ ")").
  assert (x ≠ "") as Hx.
  { unfold x. destruct (PurePath.stem path); [|by rewrite string_app_cons].
    by rewrite string_app_nil_l, string_app_cons. }
  assert (cand_path path k = PurePath.parent path ++ [x +:+ PurePath.suffix path])
    as Hcand.
  { unfold cand_path, x. by rewrite !string_app_assoc. }
  assert (PurePath.name (cand_path path k) = x +:+ PurePath.suffix path) as Hnm.
  { rewrite Hcand. apply name_joinpath. }
  assert (PurePath.stem (cand_path path k) = x ∧
          PurePath.suffix (cand_path path k) = PurePath.suffix path) as [Hst Hsf].
  { unfold PurePath.stem, PurePath.suffix at 1. rewrite Hnm.
    destruct (suffix_of_cases (PurePath.name path)) as [He|He]; [done|].
    by apply split_stem_ext. }
  split_and!; [|done|by exists k| |done].
  - rewrite Hcand. apply parent_joinpath.
  - intros Heq. apply (f_equal PurePath.stem) in Heq. rewrite Hst in Heq.
    apply (f_equal String.length) in Heq. unfold x in Heq.
    rewrite !string_length_app in Heq. simpl in Heq. lia.
Qed.

Lemma versioned_name_keeps_extension_witness :
  PurePath.parent ["music"; "a (3).mp3"] = PurePath.parent ["music"; "a.mp3"] ∧
  PurePath.suffix ["music"; "a (3).mp3"] = PurePath.suffix ["music"; "a.mp3"] ∧
  (∃ k : N, (2 ≤ k)%N ∧
     PurePath.stem ["music"; "a (3).mp3"]
     = PurePath.stem ["music"; "a.mp3"] +:+ " (" +:+ pretty k +:+ ")") ∧
  ["music"; "a (3).mp3"] ≠ ["music"; "a.mp3"] ∧
  crowded_fs = crowded_fs.
Proof.
  apply (versioned_name_keeps_extension ["music"; "a.mp3"]
           ["music"; "a (3).mp3"] crowded_fs crowded_fs).
  - discriminate.
  - reflexivity.
Defined.

End commit_safety.

(** ** planner.py: what every plan of a run satisfies *)

Section plan_invariants.

Implicit Types (os : Tree) (settings : Settings) (plan : TrackPlan).

(** Two strings with tails of the same length are equal only if their
    heads and their tails are. *)
Lemma string_app_inj_length (s s' t t' : string) :
  String.length t = String.length t' → s +:+ t = s' +:+ t' → s = s' ∧ t = t'.
Proof.
  intros Hlen. revert s'. induction s as [|a s IH]; intros [|b s'].
  - by rewrite !string_app_nil_l.
  - rewrite string_app_nil_l, string_app_cons. intros ->.
    simpl in Hlen. rewrite string_length_app in Hlen. lia.
  - rewrite string_app_nil_l, string_app_cons. intros <-.
    simpl in Hlen. rewrite string_length_app in Hlen. lia.
  - rewrite !string_app_cons. intros [= -> Heq].
    by destruct (IH _ Heq) as [-> ->].
Qed.

Lemma plan_for_fields settings (u : string) (p : Path) plan :
  Planner.plan_for settings u p = Ok plan →
  src plan = p ∧
  Planner._AUDIO_EXTS !! Str.lower (PurePath.suffix p) = Some (src_codec plan) ∧
  needs_encode plan = negb (String.eqb (src_codec plan) "mp3") ∧
  plan_delete_mode plan = delete_mode settings ∧
  plan_collision plan = collision settings ∧
  plan_sample_rate plan = sample_rate settings.
Proof.
  unfold Planner.plan_for.
  destruct (Planner._AUDIO_EXTS !! _) as [codec|]; [|done].
  destruct (PurePath.with_suffix p ".mp3"); simpl; [|done]. by intros [= <-].
Qed.

(** Every plan of a list is the plan of one of the files, made with one
    of the identifiers drawn for the list. *)
Lemma plans_from_elem settings (uuid4 : nat → string) i (files : list Path)
    plans plan :
  Planner.plans_from settings uuid4 i files = Ok plans → plan ∈ plans →
  ∃ (j : nat) (p : Path),
    i ≤ j < i + length files ∧ p ∈ files ∧
    Planner.plan_for settings (uuid4 j) p = Ok plan.
Proof.
  revert i plans. induction files as [|p files IH]; intros i plans; simpl.
  - intros [= <-] ?%elem_of_nil. done.
  - destruct (Planner.plan_for settings (uuid4 i) p) as [hd|] eqn:Hp;
      simpl; [|done].
    destruct (Planner.plans_from settings uuid4 (S i) files) as [rest|] eqn:Hr;
      simpl; [|done].
    intros [= <-] [->|Hin]%elem_of_cons.
    + exists i, p. split_and!; [lia|lia|left|done].
    + destruct (IH _ _ Hr Hin) as (j & q & Hj & Hq & Hplan).
      exists j, q. split_and!; [lia|lia|by right|done].
Qed.

Lemma plans_from_length settings (uuid4 : nat → string) i (files : list Path) plans :
  Planner.plans_from settings uuid4 i files = Ok plans →
  length plans = length files.
Proof.
  intros <-%plans_from_src. by rewrite length_fmap.
Qed.

Lemma build_run_plan_elem os (uuid4 : nat → string) inputs settings plans plan :
  Planner.build_run_plan os uuid4 inputs settings = Ok plans → plan ∈ plans →
  ∃ (j : nat) (p : Path),
    j < length plans ∧ p ∈ Planner.discovered os inputs ∧
    Planner.plan_for settings (uuid4 j) p = Ok plan.
Proof.
  intros (plans0 & Hfrom & ->)%build_run_plan_Ok Hin.
  rewrite sort_Permutation in Hin.
  destruct (plans_from_elem _ _ _ _ _ _ Hfrom Hin) as (j & p & Hj & Hp & Hplan).
  exists j, p. split_and!; [|by rewrite <-(sort_Permutation PySort.path_lt)|done].
  rewrite sort_Permutation, (plans_from_length _ _ _ _ _ Hfrom). lia.
Qed.

Lemma name_snoc (d : Path) (n : string) : PurePath.name (d ++ [n]) = n.
Proof. apply name_joinpath. Qed.

Lemma parent_snoc (d : Path) (n : string) : PurePath.parent (d ++ [n]) = d.
Proof. apply parent_joinpath. Qed.

Lemma temp_stem_nonempty (basename u : string) : temp_stem basename u ≠ "".
Proof. unfold temp_stem. by rewrite string_app_cons. Qed.

Lemma is_ext_tmp : is_ext ".tmp".
Proof. by exists "tmp". Qed.

(** X4. Every plan that [build_run_plan] returns carries the codec that
    the table gives for the lower-cased suffix of its source, asks for an
    encode exactly if that codec is not mp3, names as its target the
    source with the suffix replaced by ".mp3" and as its temp file a
    ".tmp" file in the source's directory, and takes the deletion mode,
    the collision policy and the sample rate from the settings. *)
Theorem planned_track_invariant os (uuid4 : nat → string) inputs settings
    plans plan :
  Planner.build_run_plan os uuid4 inputs settings = Ok plans →
  plan ∈ plans →
  Planner._AUDIO_EXTS !! Str.lower (PurePath.suffix (src plan))
    = Some (src_codec plan) ∧
  (needs_encode plan = false ↔ src_codec plan = "mp3") ∧
  PurePath.parent (target plan) = PurePath.parent (src plan) ∧
  PurePath.stem (target plan) = PurePath.stem (src plan) ∧
  PurePath.suffix (target plan) = ".mp3" ∧
  PurePath.parent (temp_path plan) = PurePath.parent (src plan) ∧
  PurePath.suffix (temp_path plan) = ".tmp" ∧
  plan_delete_mode plan = delete_mode settings ∧
  plan_collision plan = collision settings ∧
  plan_sample_rate plan = sample_rate settings.
Proof.
  intros Hrun Hin.
  destruct (build_run_plan_elem _ _ _ _ _ _ Hrun Hin) as (j & p & _ & _ & Hplan).
  pose proof (plan_for_fields _ _ _ _ Hplan)
    as (Hsrc & Hcodec & Henc & Hdel & Hcol & Hrate).
  pose proof (plan_for_paths _ _ _ _ Hplan) as (Hname & Htarget & Htemp).
  rewrite Hsrc.
  assert (PurePath.stem p ≠ "") as Hstem by by apply stem_of_nonempty.
  destruct (split_stem_ext (PurePath.stem p) ".mp3" Hstem is_ext_mp3)
    as [Hst Hsf].
  destruct (split_stem_ext (temp_stem (PurePath.stem p) (uuid4 j)) ".tmp"
              (temp_stem_nonempty _ _) is_ext_tmp) as [_ Htsf].
  split_and!; try done.
  - rewrite Henc. destruct (String.eqb_spec (src_codec plan) "mp3"); naive_solver.
  - rewrite Htarget. apply parent_snoc.
  - unfold PurePath.stem at 1. by rewrite Htarget, name_snoc.
  - unfold PurePath.suffix. by rewrite Htarget, name_snoc.
  - rewrite Htemp. apply parent_snoc.
  - unfold PurePath.suffix. by rewrite Htemp, name_snoc.
Qed.

Lemma planned_track_invariant_witness :
  Planner._AUDIO_EXTS !! Str.lower (PurePath.suffix ["music"; "b"; "2.mp3"])
    = Some "mp3" ∧
  (false = false ↔ "mp3" = "mp3") ∧
  PurePath.parent ["music"; "b"; "2.mp3"] = PurePath.parent ["music"; "b"; "2.mp3"] ∧
  PurePath.stem ["music"; "b"; "2.mp3"] = PurePath.stem ["music"; "b"; "2.mp3"] ∧
  PurePath.suffix ["music"; "b"; "2.mp3"] = ".mp3" ∧
  PurePath.parent ["music"; "b"; ".~2.2.tmp"] = PurePath.parent ["music"; "b"; "2.mp3"] ∧
  PurePath.suffix ["music"; "b"; ".~2.2.tmp"] = ".tmp" ∧
  trash = delete_mode default_settings ∧
  overwrite = collision default_settings ∧
  sr_44100 = sample_rate default_settings.
Proof.
  apply (planned_track_invariant sample_tree (λ i, pretty i) [["music"]]
           default_settings
           [ plan_of ["music"; "a"; "9.ogg"] "ogg" true
               ["music"; "a"; "9.mp3"] ["music"; "a"; ".~9.0.tmp"];
             plan_of ["music"; "b"; "1.flac"] "flac" true
               ["music"; "b"; "1.mp3"] ["music"; "b"; ".~1.1.tmp"];
             plan_of ["music"; "b"; "2.mp3"] "mp3" false
               ["music"; "b"; "2.mp3"] ["music"; "b"; ".~2.2.tmp"] ]
           (plan_of ["music"; "b"; "2.mp3"] "mp3" false
              ["music"; "b"; "2.mp3"] ["music"; "b"; ".~2.2.tmp"])).
  - reflexivity.
  - do 2 right. left.
Defined.

(** X5. A plan's target is its source exactly if the source's suffix is
    ".mp3" in lower case; an encode is never planned onto its own
    source.  (A source named with ".MP3" is copied, not encoded, to a
    target of another name.) *)
Theorem plan_in_place_iff os (uuid4 : nat → string) inputs settings plans plan :
  Planner.build_run_plan os uuid4 inputs settings = Ok plans →
  plan ∈ plans →
  (target plan = src plan ↔ PurePath.suffix (src plan) = ".mp3") ∧
  (needs_encode plan = true → target plan ≠ src plan).
Proof.
  intros Hrun Hin.
  destruct (build_run_plan_elem _ _ _ _ _ _ Hrun Hin) as (j & p & _ & _ & Hplan).
  pose proof (plan_for_fields _ _ _ _ Hplan) as (Hsrc & Hcodec & Henc & _).
  pose proof (plan_for_paths _ _ _ _ Hplan) as (Hname & Htarget & _).
  rewrite Hsrc.
  assert (target plan = p ↔ PurePath.suffix p = ".mp3") as Hiff.
  { rewrite Htarget. rewrite <-(path_parent_name p Hname) at 3.
    unfold PurePath.suffix, PurePath.stem.
    rewrite <-(stem_suffix (PurePath.name p)) at 2. split.
    - intros [_ Heq]%app_inj_tail. by apply String.app_inj in Heq.
    - by intros ->. }
  split; [done|].
  intros Htrue Heq. apply Hiff in Heq. rewrite Heq in Hcodec.
  injection Hcodec as Hcodec. rewrite <-Hcodec in Henc.
  rewrite Htrue in Henc. discriminate.
Qed.

Lemma plan_in_place_iff_witness :
  (["music"; "b"; "2.mp3"] = ["music"; "b"; "2.mp3"]
   ↔ PurePath.suffix ["music"; "b"; "2.mp3"] = ".mp3") ∧
  (false = true → ["music"; "b"; "2.mp3"] ≠ ["music"; "b"; "2.mp3"]).
Proof.
  apply (plan_in_place_iff sample_tree (λ i, pretty i) [["music"; "b"]]
           default_settings
           [ plan_of ["music"; "b"; "1.flac"] "flac" true
               ["music"; "b"; "1.mp3"] ["music"; "b"; ".~1.0.tmp"];
             plan_of ["music"; "b"; "2.mp3"] "mp3" false
               ["music"; "b"; "2.mp3"] ["music"; "b"; ".~2.1.tmp"] ]
           (plan_of ["music"; "b"; "2.mp3"] "mp3" false
              ["music"; "b"; "2.mp3"] ["music"; "b"; ".~2.1.tmp"])).
  - reflexivity.
  - right. left.
Defined.

(** Plans made with identifiers of one length have the same temp path
    only if they were made with the same identifier. *)
Lemma temp_path_inj settings (u u' : string) (p p' : Path) plan plan' :
  String.length u = String.length u' →
  Planner.plan_for settings u p = Ok plan →
  Planner.plan_for settings u' p' = Ok plan' →
  temp_path plan = temp_path plan' → u = u'.
Proof.
  intros Hlen (_ & _ & ->)%plan_for_paths (_ & _ & ->)%plan_for_paths.
  intros [_ Heq]%app_inj_tail.
  assert (∀ s v, temp_stem s v +:+ ".tmp" = (".~" +:+ s +:+ ".") +:+ v +:+ ".tmp")
    as Hshape.
  { intros s v. unfold temp_stem. by rewrite !string_app_assoc. }
  rewrite !Hshape in Heq.
  apply string_app_inj_length in Heq as [_ Heq].
  - by apply string_app_inj_r in Heq.
  - rewrite !string_length_app. simpl. lia.
Qed.

Lemma plans_from_temp_NoDup settings (uuid4 : nat → string) i
    (files : list Path) plans :
  (∀ j, String.length (uuid4 j) = 32) →
  (∀ j k, i ≤ j < i + length files → i ≤ k < i + length files →
          uuid4 j = uuid4 k → j = k) →
  Planner.plans_from settings uuid4 i files = Ok plans →
  NoDup (temp_path <$> plans).
Proof.
  intros Hlen. revert i plans.
  induction files as [|p files IH]; intros i plans Hinj; simpl.
  - intros [= <-]. constructor.
  - destruct (Planner.plan_for settings (uuid4 i) p) as [hd|] eqn:Hp;
      simpl; [|done].
    destruct (Planner.plans_from settings uuid4 (S i) files) as [rest|] eqn:Hr;
      simpl; [|done].
    intros [= <-]. rewrite fmap_cons. constructor.
    + intros (plan' & Heq & Hin)%list_elem_of_fmap.
      destruct (plans_from_elem _ _ _ _ _ _ Hr Hin) as (j & q & Hj & _ & Hplan').
      assert (uuid4 i = uuid4 j) as Hu.
      { apply (temp_path_inj settings _ _ p q hd plan'); [|done..].
        by rewrite !Hlen. }
      apply Hinj in Hu; simpl; lia.
    + apply (IH (S i)); [|done].
      intros j k Hj Hk. apply Hinj; simpl; lia.
Qed.

Lemma tmp_not_audio : Planner._AUDIO_EXTS !! Str.lower ".tmp" = None.
Proof. reflexivity. Qed.

(** X6. When the identifiers drawn during a run are 32 characters long
    and pairwise different, as the hexadecimal form of a UUID is, the
    temp paths of the plans are pairwise different, and none of them is
    the source or the target of any plan of the run. *)
Theorem temp_paths_unique os (uuid4 : nat → string) inputs settings plans :
  (∀ i, String.length (uuid4 i) = 32) →
  (∀ i j, i < length plans → j < length plans → uuid4 i = uuid4 j → i = j) →
  Planner.build_run_plan os uuid4 inputs settings = Ok plans →
  NoDup (temp_path <$> plans) ∧
  ∀ p q, p ∈ plans → q ∈ plans →
    temp_path p ≠ src q ∧ temp_path p ≠ target q.
Proof.
  intros Hlen Hinj Hrun. split.
  - apply build_run_plan_Ok in Hrun as (plans0 & Hfrom & ->).
    rewrite sort_Permutation.
    apply (plans_from_temp_NoDup settings uuid4 0
             (Planner._iter_audio_files os inputs) _ Hlen); [|done].
    intros j k Hj Hk. apply Hinj;
      rewrite sort_Permutation, (plans_from_length _ _ _ _ _ Hfrom); lia.
  - intros p q Hp Hq.
    destruct (build_run_plan_elem _ _ _ _ _ _ Hrun Hp) as (i & f & _ & _ & Hpf).
    destruct (build_run_plan_elem _ _ _ _ _ _ Hrun Hq) as (j & g & _ & _ & Hqf).
    pose proof (plan_for_paths _ _ _ _ Hpf) as (_ & _ & Htemp).
    pose proof (plan_for_paths _ _ _ _ Hqf) as (Hname & Htarget & _).
    pose proof (plan_for_fields _ _ _ _ Hqf) as (Hsrc & Hcodec & _).
    destruct (split_stem_ext (temp_stem (PurePath.stem f) (uuid4 i)) ".tmp"
                (temp_stem_nonempty _ _) is_ext_tmp) as [_ Htsf].
    assert (PurePath.suffix (temp_path p) = ".tmp") as Hsfx.
    { unfold PurePath.suffix. by rewrite Htemp, name_snoc. }
    split; intros Heq; rewrite Heq in Hsfx.
    + rewrite Hsrc in Hsfx. rewrite Hsfx, tmp_not_audio in Hcodec. done.
    + assert (PurePath.stem g ≠ "") as Hstem by by apply stem_of_nonempty.
      destruct (split_stem_ext (PurePath.stem g) ".mp3" Hstem is_ext_mp3)
        as [_ Hsf].
      unfold PurePath.suffix in Hsfx. rewrite Htarget, name_snoc in Hsfx.
      rewrite Hsf in Hsfx. discriminate.
Qed.

(** Identifiers as [uuid4().hex] has them; the first three differ. *)
Definition sample_uuid4 (i : nat) : string :=
  match i with
  | 0 => "0f3c2a9e5b7d4c1f8a6e3b2d1c0f9e8d"
  | 1 => "77aa01b2c3d4e5f60718293a4b5c6d7e"
  | 2 => "c0ffee00c0ffee00c0ffee00c0ffee00"
  | _ => "ffffffffffffffffffffffffffffffff"
  end.

Lemma temp_paths_unique_witness :
  NoDup (temp_path <$>
    [ plan_of ["music"; "b"; "1.flac"] "flac" true ["music"; "b"; "1.mp3"]
        ["music"; "b"; ".~1.0f3c2a9e5b7d4c1f8a6e3b2d1c0f9e8d.tmp"];
      plan_of ["music"; "b"; "2.mp3"] "mp3" false ["music"; "b"; "2.mp3"]
        ["music"; "b"; ".~2.77aa01b2c3d4e5f60718293a4b5c6d7e.tmp"] ]) ∧
  ∀ p q,
    p ∈ [ plan_of ["music"; "b"; "1.flac"] "flac" true ["music"; "b"; "1.mp3"]
            ["music"; "b"; ".~1.0f3c2a9e5b7d4c1f8a6e3b2d1c0f9e8d.tmp"];
          plan_of ["music"; "b"; "2.mp3"] "mp3" false ["music"; "b"; "2.mp3"]
            ["music"; "b"; ".~2.77aa01b2c3d4e5f60718293a4b5c6d7e.tmp"] ] →
    q ∈ [ plan_of ["music"; "b"; "1.flac"] "flac" true ["music"; "b"; "1.mp3"]
            ["music"; "b"; ".~1.0f3c2a9e5b7d4c1f8a6e3b2d1c0f9e8d.tmp"];
          plan_of ["music"; "b"; "2.mp3"] "mp3" false ["music"; "b"; "2.mp3"]
            ["music"; "b"; ".~2.77aa01b2c3d4e5f60718293a4b5c6d7e.tmp"] ] →
    temp_path p ≠ src q ∧ temp_path p ≠ target q.
Proof.
  apply (temp_paths_unique sample_tree sample_uuid4 [["music"; "b"]]
           default_settings).
  - intros [|[|[|i]]]; reflexivity.
  - intros [|[|i]] [|[|j]]; simpl; intros Hi Hj; try lia; try done.
  - reflexivity.
Defined.

(** X7. The plan list depends on the files that are discovered, not on
    the order in which the inputs are given or in which the walk lists
    directories and names: two runs that discover the same files, with
    their multiplicity, both raise the same error or return plan lists
    that agree in order and in every field but the temp path. *)
Theorem build_run_plan_order_independent os os' (uuid4 uuid4' : nat → string)
    inputs inputs' settings :
  Planner.discovered os inputs ≡ₚ Planner.discovered os' inputs' →
  same_plans (Planner.build_run_plan os uuid4 inputs settings)
             (Planner.build_run_plan os' uuid4' inputs' settings).
Proof.
  intros Hperm. unfold Planner.build_run_plan.
  rewrite (_iter_audio_files_enumeration os os' inputs inputs' Hperm).
  destruct (Planner._iter_audio_files os' inputs') as [|p files]; [done|].
  pose proof (plans_from_uuid settings uuid4 uuid4' 0 0 (p :: files)) as H.
  unfold same_plans in *.
  destruct (Planner.plans_from settings uuid4 0 (p :: files)),
           (Planner.plans_from settings uuid4' 0 (p :: files));
    simpl; try done.
  rewrite !(sort_fmap without_temp Planner.plan_lt Planner.plan_lt)
    by apply plan_lt_without_temp.
  by rewrite H.
Qed.

Lemma build_run_plan_order_independent_witness :
  same_plans
    (Planner.build_run_plan sample_tree (λ i, pretty i)
       [["music"; "a"]; ["music"; "b"]] default_settings)
    (Planner.build_run_plan sample_tree sample_uuid4
       [["music"; "b"; "2.mp3"]; ["music"; "a"; "9.ogg"]; ["shortcut.flac"]]
       default_settings).
Proof.
  apply (build_run_plan_order_independent sample_tree sample_tree).
  vm_compute. apply perm_swap.
Defined.

End plan_invariants.

(** ** tagging.py: what the tagger writes and what it keeps *)

Section tagger.

Implicit Types (fs : FS) (tags : ID3).

Lemma getall_add_delall (fr : Frame) tags :
  Mutagen.getall "APIC"
    (Mutagen.add "APIC:Cover (front)" fr (Mutagen.delall "APIC" tags)) = [fr].
Proof.
  unfold Mutagen.getall, Mutagen.add, Mutagen.delall.
  rewrite map_filter_insert_True by done.
  rewrite map_filter_filter.
  replace (filter _ tags) with (∅ : ID3).
  - by rewrite insert_empty, map_to_list_singleton.
  - symmetry. apply map_empty_filter. intros k x _ [H1 H2]. simpl in *.
    congruence.
Qed.

(** The tags before the save, given those the file had. *)
Definition retagged (src_tags : gmap string string) (pats : list string)
    (tags0 : ID3) : ID3 :=
  Mutagen.delall "APIC"
    (Tagging._strip_frames (Tagging.add_text_frames src_tags tags0) pats).

Lemma ensure_id3_inv temp fs r fs' :
  Tagging._ensure_id3_v23 temp fs = (r, fs') →
  fs' = fs ∧
  match r with
  | Ok tags0 =>
      ∃ tf, fs !! temp = Some tf ∧ tags0 = default ∅ (id3 tf)
  | Raise _ => True
  end.
Proof.
  unfold Tagging._ensure_id3_v23, Mutagen.load.
  destruct (fs !! temp) as [tf|]; [|by intros [= <- <-]].
  destruct (id3 tf) as [tags0|] eqn:Hid; intros [= <- <-].
  - split; [done|]. exists tf. by rewrite Hid.
  - split; [done|]. exists tf. by rewrite Hid.
Qed.

(** What a run of the tagger amounts to. *)
Lemma write_id3_cases temp png500 src_tags pats fs r fs' :
  Tagging.write_id3_v23_with_apic temp png500 src_tags pats fs = (r, fs') →
  (∃ e, r = Raise e ∧ fs' = fs) ∨
  ∃ tf tags',
    r = Ok tt ∧ fs !! temp = Some tf ∧
    fs' = <[temp := {| id3 := Some tags'; filetags := filetags tf;
                       picture := picture tf; payload := payload tf |}]> fs ∧
    ((tags' = retagged src_tags pats (default ∅ (id3 tf)) ∧
      (png500 = None ∨ ∃ cover, png500 = Some cover ∧ fs !! cover = None)) ∨
     ∃ cover cf im,
       png500 = Some cover ∧ fs !! cover = Some cf ∧ picture cf = Some im ∧
       im_size im = (500, 500)%Z ∧
       tags' = Mutagen.add "APIC:Cover (front)"
                 (APIC "image/png" 3 "Cover (front)" (Some im))
                 (retagged src_tags pats (default ∅ (id3 tf)))).
Proof.
  unfold Tagging.write_id3_v23_with_apic, bind at 1.
  destruct (Tagging._ensure_id3_v23 temp fs) as [[tags0|e] fs1] eqn:Hens;
    apply ensure_id3_inv in Hens as [-> Htf]; [|intros [= <- <-]; left; eauto].
  destruct Htf as (tf & Htf & ->). fold (retagged src_tags pats (default ∅ (id3 tf))).
  set (tags1 := retagged src_tags pats (default ∅ (id3 tf))).
  destruct png500 as [cover|].
  - unfold bind, Os.exists_, Tagging._load_png_bytes, ret.
    case_bool_decide as Hex.
    + destruct Hex as [cf Hcf]. rewrite Hcf.
      destruct (picture cf) as [im|] eqn:Hpic; simpl;
        [|intros [= <- <-]; left; eauto].
      case_bool_decide as Hsize; [|intros [= <- <-]; left; eauto].
      unfold Mutagen.save. rewrite Htf. simpl. intros [= <- <-]. right.
      exists tf, (Mutagen.add "APIC:Cover (front)"
                    (APIC "image/png" 3 "Cover (front)" (Some im)) tags1).
      split_and!; [done..|]. right. exists cover, cf, im. by rewrite Hpic.
    + unfold Mutagen.save. rewrite Htf. simpl. intros [= <- <-]. right.
      exists tf, tags1. split_and!; [done..|]. left. split; [done|].
      right. exists cover. split; [done|]. by apply eq_None_not_Some.
  - unfold bind, ret, Mutagen.save. rewrite Htf. simpl. intros [= <- <-]. right.
    exists tf, tags1. split_and!; [done..|]. left. split; [done|]. by left.
Qed.

(** X8. The tagger either raises and leaves every file as it was, or
    rewrites the tag block of the temp file and nothing else: the audio
    of the temp file is kept, and its tags afterwards hold no picture
    frame or exactly one, a front cover labelled image/png whose data is
    the picture, 500 by 500 pixels, of the given cover file. *)
Theorem write_id3_effect temp png500 src_tags pats fs :
  match Tagging.write_id3_v23_with_apic temp png500 src_tags pats fs with
  | (Raise _, fs') => fs' = fs
  | (Ok _, fs') =>
      ∃ tf tags',
        fs !! temp = Some tf ∧
        fs' = <[temp := {| id3 := Some tags'; filetags := filetags tf;
                           picture := picture tf; payload := payload tf |}]> fs ∧
        (Mutagen.getall "APIC" tags' = [] ∨
         ∃ cover cf im,
           png500 = Some cover ∧ fs !! cover = Some cf ∧
           picture cf = Some im ∧ im_size im = (500, 500)%Z ∧
           Mutagen.getall "APIC" tags'
           = [APIC "image/png" 3 "Cover (front)" (Some im)])
  end.
Proof.
  destruct (Tagging.write_id3_v23_with_apic temp png500 src_tags pats fs)
    as [r fs'] eqn:Hw.
  apply write_id3_cases in Hw
    as [(e & -> & ->)|(tf & tags' & -> & Htf & -> & Htags)]; [done|].
  exists tf, tags'. split_and!; [done..|].
  destruct Htags as [[-> _]|(cover & cf & im & -> & Hcf & Hpic & Hsize & ->)].
  - left. apply getall_delall.
  - right. exists cover, cf, im. split_and!; [done..|]. apply getall_add_delall.
Qed.

(** A file with a tag block of some kind, and a cover of the wanted
    size in the given format. *)
Definition untagged_temp_fs (format : string) : FS :=
  <[ ["music"; ".~a.0f3c.tmp"] := encoded_file ]>
  {[ ["music"; ".~a.0f3c.cover_500.jpg"] := cover_file format 500 ]}.

(** X9. Tagging, then checking: with a temp file and a cover file whose
    picture is 500 by 500 pixels, the tagger succeeds whatever the format
    of the picture, and the cover check on the tagged file then passes
    exactly if the picture is a JPEG. *)
Theorem tagged_cover_passes_iff_jpeg (temp cover : Path) src_tags pats fs
    (tf cf : File) (im : Image) :
  fs !! temp = Some tf →
  fs !! cover = Some cf →
  picture cf = Some im →
  im_size im = (500, 500)%Z →
  ∃ fs',
    Tagging.write_id3_v23_with_apic temp (Some cover) src_tags pats fs
      = (Ok tt, fs') ∧
    ((Validate.validate_id3_and_apic_500 temp fs').1 = Ok tt
     ↔ im_format im = "JPEG").
Proof.
  intros Htf Hcf Hpic Hsize.
  destruct (Tagging.write_id3_v23_with_apic temp (Some cover) src_tags pats fs)
    as [r fs'] eqn:Hw.
  pose proof Hw as Hcases. apply write_id3_cases in Hcases
    as [(e & -> & ->)|(tf' & tags' & -> & Htf' & -> & Htags)].
  - exfalso. revert Hw.
    unfold Tagging.write_id3_v23_with_apic, bind at 1.
    destruct (Tagging._ensure_id3_v23 temp fs) as [[tags0|e'] fs1] eqn:Hens.
    + apply ensure_id3_inv in Hens as [-> _].
      unfold bind, Os.exists_, Tagging._load_png_bytes, ret, Mutagen.save.
      rewrite bool_decide_eq_true_2 by by rewrite Hcf.
      rewrite Hcf, Hpic. simpl. by rewrite bool_decide_eq_true_2.
    + revert Hens. unfold Tagging._ensure_id3_v23, Mutagen.load.
      rewrite Htf. by destruct (id3 tf).
  - exists (<[temp := {| id3 := Some tags'; filetags := filetags tf';
                         picture := picture tf'; payload := payload tf' |}]> fs).
    split; [done|].
    rewrite validate_id3_unfold, lookup_insert_eq. simpl.
    destruct Htags as [[_ [?|(c & [= <-] & Hnone)]]|
                       (c & cf' & im' & [= <-] & Hcf' & Hpic' & _ & ->)];
      [done|congruence|].
    assert (im' = im) as -> by congruence.
    unfold retagged. rewrite getall_add_delall, check_apics_Ok. split.
    + by intros (fr & im' & [= <-] & [= <-] & _ & Hfmt).
    + intros Hfmt. by eexists _, im.
Qed.

Lemma tagged_cover_passes_iff_jpeg_witness :
  ∃ fs',
    Tagging.write_id3_v23_with_apic ["music"; ".~a.0f3c.tmp"]
      (Some ["music"; ".~a.0f3c.cover_500.jpg"]) {[ "title" := "a" ]}
      ["PRIV"] (untagged_temp_fs "PNG")
      = (Ok tt, fs') ∧
    ((Validate.validate_id3_and_apic_500 ["music"; ".~a.0f3c.tmp"] fs').1 = Ok tt
     ↔ "PNG" = "JPEG").
Proof.
  apply (tagged_cover_passes_iff_jpeg ["music"; ".~a.0f3c.tmp"]
           ["music"; ".~a.0f3c.cover_500.jpg"] {[ "title" := "a" ]} ["PRIV"]
           (untagged_temp_fs "PNG") encoded_file (cover_file "PNG" 500)
           {| im_format := "PNG"; im_size := (500, 500)%Z |});
    reflexivity.
Defined.

(** The frames the tagger sets. *)
Definition _TEXT_FRAMES : list string :=
  ["TIT2"; "TALB"; "TPE1"; "TPE2"; "TCON"; "TRCK"; "TPOS"; "TDRC"].

Lemma add_text_frames_other src_tags (key : string) :
  key ∉ _TEXT_FRAMES → Tagging.add_text_frames src_tags ∅ !! key = None.
Proof.
  intros Hkey. apply eq_None_not_Some. intros [fr Hfr].
  apply add_text_frames_written in Hfr. apply Hkey. unfold _TEXT_FRAMES.
  destruct Hfr; set_solver.
Qed.

Lemma lookup_retagged src_tags pats tags0 (key : string) (fr : Frame) :
  Tagging.add_text_frames src_tags tags0 !! key = Some fr →
  Mutagen.has_name "APIC" key = false →
  Tagging.strip_match pats key fr = false →
  retagged src_tags pats tags0 !! key = Some fr.
Proof.
  intros Hfr Hname Hstrip. unfold retagged, Mutagen.delall, Tagging._strip_frames.
  apply map_lookup_filter_Some. split; [|done].
  apply map_lookup_filter_Some. by split.
Qed.

(** X10. The tagger keeps what it has no business with: a frame of the
    temp file that is none of the eight text frames it sets, no picture
    frame and not matched by the strip patterns is in the tags after a
    successful run, unchanged. *)
Theorem write_id3_keeps_other_frames temp png500 src_tags pats fs fs'
    (tf : File) (tags0 : ID3) (key : string) (fr : Frame) :
  Tagging.write_id3_v23_with_apic temp png500 src_tags pats fs = (Ok tt, fs') →
  fs !! temp = Some tf →
  id3 tf = Some tags0 →
  tags0 !! key = Some fr →
  key ∉ _TEXT_FRAMES →
  Mutagen.has_name "APIC" key = false →
  Tagging.strip_match pats key fr = false →
  ∃ tf' tags',
    fs' !! temp = Some tf' ∧ id3 tf' = Some tags' ∧ tags' !! key = Some fr.
Proof.
  intros Hw Htf Hid Hfr Hkey Hname Hstrip.
  apply write_id3_cases in Hw
    as [(e & [=] & _)|(tf' & tags' & _ & Htf' & -> & Htags)].
  assert (tf' = tf) as -> by congruence. rewrite Hid in Htags. simpl in Htags.
  assert (retagged src_tags pats tags0 !! key = Some fr) as Hkept.
  { apply lookup_retagged; [|done..].
    rewrite add_text_frames_union. apply lookup_union_Some_raw. right.
    split; [by apply add_text_frames_other|done]. }
  eexists _, tags'. split_and!; [apply lookup_insert_eq|done|].
  destruct Htags as [[-> _]|(cover & cf & im & _ & _ & _ & _ & ->)]; [done|].
  unfold Mutagen.add. rewrite lookup_insert_ne; [done|].
  intros <-. done.
Qed.

(** A copied MP3 with lyrics, a private frame and an old cover. *)
Definition lyrics_fs : FS :=
  {[ ["music"; ".~a.0f3c.tmp"] :=
       {| id3 := Some (<[ "USLT::eng" := OtherFrame "Birds flying high" ]>
                       (<[ "PRIV" := OtherFrame "owner" ]>
                        {[ "APIC:old" := png_cover ]}));
          filetags := None; picture := None; payload := [42%N] |} ]}.

Lemma write_id3_keeps_other_frames_witness :
  ∃ tf' tags',
    (<[ ["music"; ".~a.0f3c.tmp"] :=
          {| id3 := Some (<[ "TIT2" := TextFrame "a" ]>
                          {[ "USLT::eng" := OtherFrame "Birds flying high" ]});
             filetags := None; picture := None; payload := [42%N] |} ]>
       lyrics_fs) !! ["music"; ".~a.0f3c.tmp"] = Some tf' ∧
    id3 tf' = Some tags' ∧
    tags' !! "USLT::eng" = Some (OtherFrame "Birds flying high").
Proof.
  apply (write_id3_keeps_other_frames ["music"; ".~a.0f3c.tmp"] None
           {[ "title" := "a" ]} ["TXXX:iTunNORM"; "PRIV"] lyrics_fs _
           {| id3 := Some (<[ "USLT::eng" := OtherFrame "Birds flying high" ]>
                           (<[ "PRIV" := OtherFrame "owner" ]>
                            {[ "APIC:old" := png_cover ]}));
              filetags := None; picture := None; payload := [42%N] |}
           (<[ "USLT::eng" := OtherFrame "Birds flying high" ]>
            (<[ "PRIV" := OtherFrame "owner" ]> {[ "APIC:old" := png_cover ]}))).
  - reflexivity.
  - reflexivity.
  - reflexivity.
  - reflexivity.
  - unfold _TEXT_FRAMES. set_solver.
  - reflexivity.
  - reflexivity.
Defined.

(** The keys of the reduced tag map. *)
Definition _REDUCED_KEYS : list string :=
  ["artist"; "album"; "albumartist"; "title"; "date"; "genre";
   "track"; "tracktotal"; "disc"; "disctotal"].

Lemma nonempty_ne (t : string) : Str.nonempty t = true → t ≠ "".
Proof. by destruct t. Qed.

Lemma tags_of_keys atags stem (k : string) :
  is_Some (Tagging.tags_of atags stem !! k) → k ∈ _REDUCED_KEYS.
Proof.
  unfold _REDUCED_KEYS.
  destruct (decide (k = "title")) as [->|Htitle]; [set_solver|].
  rewrite lookup_tags_of by done. unfold tags_before_title.
  destruct (decide (k = "disc")) as [->|Hdisc]; [set_solver|].
  destruct (decide (k = "disctotal")) as [->|Hdt]; [set_solver|].
  rewrite lookup_pull_number_other by done.
  destruct (decide (k = "track")) as [->|Htrack]; [set_solver|].
  destruct (decide (k = "tracktotal")) as [->|Htt]; [set_solver|].
  rewrite lookup_pull_number_other by done.
  intros [s Hs]. apply lookup_generic_tags in Hs as [Hin _]. set_solver.
Qed.

Lemma tags_of_has_title atags stem :
  ∃ t, Tagging.tags_of atags stem !! "title" = Some t ∧ (stem ≠ "" → t ≠ "").
Proof.
  unfold Tagging.tags_of. fold (tags_before_title atags).
  destruct (tags_before_title atags !! "title") as [t|] eqn:Ht.
  - destruct (Str.nonempty t) eqn:Hne.
    + exists t. split; [done|]. intros _. by apply nonempty_ne.
    + exists stem. by rewrite lookup_insert_eq.
  - exists stem. by rewrite lookup_insert_eq.
Qed.

(** X11. The tags read from a source are a map over the ten reduced
    keys, whatever the source's own tags are called, and always hold a
    title, which is not empty unless the file name without its suffix
    is; reading changes no file. *)
Theorem read_source_tags_vocabulary (src : Path) fs st fs' :
  Tagging.read_source_tags src fs = (Ok st, fs') →
  fs' = fs ∧
  (∀ k : string, is_Some (st !! k) → k ∈ _REDUCED_KEYS) ∧
  ∃ t, st !! "title" = Some t ∧ (PurePath.stem src ≠ "" → t ≠ "").
Proof.
  intros Hread.
  assert (fs' = fs) as ->.
  { apply map_eq. intros p.
    pose proof (only_writes_read_source_tags [] src fs p) as Hfr.
    rewrite Hread in Hfr. apply Hfr, not_elem_of_nil. }
  split; [done|].
  apply read_source_tags_Ok in Hread as (f & _ & [->|(atags & _ & ->)]).
  - split.
    + intros k [s Hs]. apply lookup_singleton_Some in Hs as [<- _].
      unfold _REDUCED_KEYS. set_solver.
    + exists (PurePath.stem src). by rewrite lookup_singleton_eq.
  - split; [apply tags_of_keys|apply tags_of_has_title].
Qed.

Lemma read_source_tags_vocabulary_witness :
  tagged_fs = tagged_fs ∧
  (∀ k : string,
     is_Some ((<[ "artist" := "Nina" ]>
               (<[ "title" := "Feeling" ]> {[ "track" := "3" ]})
               : gmap string string) !! k) →
     k ∈ _REDUCED_KEYS) ∧
  ∃ t, (<[ "artist" := "Nina" ]>
        (<[ "title" := "Feeling" ]> {[ "track" := "3" ]})
        : gmap string string) !! "title" = Some t ∧
       (PurePath.stem ["music"; "a.flac"] ≠ "" → t ≠ "").
Proof.
  apply (read_source_tags_vocabulary ["music"; "a.flac"] tagged_fs).
  reflexivity.
Defined.

(** *** The reduced tags in the produced file *)

(** What a tag mapping holds under a key: the string form of the value,
    of its first item when the value is a list or a tuple; nothing when
    the key is missing or its value is empty. *)
Definition generic_value (atags : gmap string pyval) (k : string) : option string :=
  match atags !! k with
  | Some v => if Py.truthy v then Some (Py.str (Tagging._get_first v)) else None
  | None => None
  end.

(** The text the tags of the source file hold under a key. *)
Definition source_text fs (src : Path) (k : string) : option string :=
  match fs !! src with
  | Some f =>
      match filetags f with
      | Some atags => generic_value atags k
      | None => None
      end
  | None => None
  end.

(** The title a track is to get: the one the tags of the source hold,
    and the file name without its suffix when they hold none. *)
Definition title_for fs (src : Path) : string :=
  match source_text fs src "title" with
  | Some t => if Str.nonempty t then t else PurePath.stem src
  | None => PurePath.stem src
  end.

Lemma lookup_copy_generic_eq atags (k : string) (tags : gmap string string)
    (j : string) :
  Tagging.copy_generic atags k tags !! j
  = if decide (k = j)
    then match generic_value atags k with
         | Some s => Some s
         | None => tags !! j
         end
    else tags !! j.
Proof.
  unfold Tagging.copy_generic, generic_value.
  destruct (decide (k = j)) as [->|Hne].
  - destruct (atags !! j) as [v|]; [|done].
    destruct (Py.truthy v); [|done]. by rewrite lookup_insert_eq.
  - destruct (atags !! k) as [v|]; [|done].
    destruct (Py.truthy v); [|done]. by rewrite lookup_insert_ne.
Qed.

Lemma lookup_generic_fold atags (keys : list string)
    (init : gmap string string) (j : string) :
  foldl (λ (m : gmap string string) k, Tagging.copy_generic atags k m)
    init keys !! j
  = if decide (j ∈ keys)
    then match generic_value atags j with
         | Some s => Some s
         | None => init !! j
         end
    else init !! j.
Proof.
  revert init. induction keys as [|k keys IH]; intros init; simpl.
  - destruct (decide (j ∈ [])) as [Hin|]; [|done].
    by apply elem_of_nil in Hin.
  - rewrite IH, lookup_copy_generic_eq.
    destruct (decide (k = j)) as [->|Hne], (decide (j ∈ keys)) as [Hin|Hnin],
             (decide (j ∈ _ :: keys)) as [Hin'|Hnin'];
      try done; try (exfalso; set_solver);
      by destruct (generic_value atags j).
Qed.

Lemma tags_of_generic_eq atags stem (k : string) :
  k ∈ ["artist"; "album"; "albumartist"; "date"; "genre"] →
  Tagging.tags_of atags stem !! k = generic_value atags k.
Proof.
  intros Hk. rewrite lookup_tags_of by set_solver. unfold tags_before_title.
  rewrite !lookup_pull_number_other by set_solver.
  rewrite lookup_generic_fold, decide_True by set_solver.
  by destruct (generic_value atags k).
Qed.

Lemma tags_of_title_eq atags stem :
  Tagging.tags_of atags stem !! "title"
  = Some match generic_value atags "title" with
         | Some t => if Str.nonempty t then t else stem
         | None => stem
         end.
Proof.
  assert (tags_before_title atags !! "title" = generic_value atags "title")
    as Hbefore.
  { unfold tags_before_title. rewrite !lookup_pull_number_other by done.
    rewrite lookup_generic_fold, decide_True by set_solver.
    by destruct (generic_value atags "title"). }
  unfold Tagging.tags_of. fold (tags_before_title atags).
  destruct (tags_before_title atags !! "title") as [t|] eqn:Ht;
    rewrite <-Hbefore.
  - destruct (Str.nonempty t); [done|]. by rewrite lookup_insert_eq.
  - by rewrite lookup_insert_eq.
Qed.

(** The title of the reduced map is the title the track is to get. *)
Lemma read_source_tags_title (src : Path) fs st fs1 :
  Tagging.read_source_tags src fs = (Ok st, fs1) →
  st !! "title" = Some (title_for fs src).
Proof.
  unfold Tagging.read_source_tags, title_for, source_text.
  destruct (fs !! src) as [f|]; [|done].
  destruct (filetags f) as [atags|].
  - case_bool_decide as Hempty.
    + intros [= <- _]. subst atags. unfold generic_value.
      by rewrite lookup_empty, lookup_singleton_eq.
    + intros [= <- _]. apply tags_of_title_eq.
  - intros [= <- _]. by rewrite lookup_singleton_eq.
Qed.

(** The other generic fields of the reduced map are what the tags of the
    source hold. *)
Lemma read_source_tags_generic (src : Path) fs st fs1 (k : string) :
  k ∈ ["artist"; "album"; "albumartist"; "date"; "genre"] →
  Tagging.read_source_tags src fs = (Ok st, fs1) →
  st !! k = source_text fs src k.
Proof.
  intros Hk. unfold Tagging.read_source_tags, source_text.
  destruct (fs !! src) as [f|]; [|done].
  destruct (filetags f) as [atags|].
  - case_bool_decide as Hempty.
    + intros [= <- _]. subst atags. unfold generic_value.
      rewrite lookup_empty. apply lookup_singleton_ne. set_solver.
    + intros [= <- _]. by apply tags_of_generic_eq.
  - intros [= <- _]. apply lookup_singleton_ne. set_solver.
Qed.

(** Where the text of a frame the tagger writes comes from: the title is
    the title the track is to get; album, artist, album artist, genre
    and date are what the tags of the source hold under that field; a
    track or disc number is the one of the reduced map, which has one
    only if the source holds one, and a total is appended only if the
    source holds that total. *)
Definition provenance fs (src : Path) (st : gmap string string)
    (key text : string) : Prop :=
  (key = "TIT2" ∧ text = title_for fs src) ∨
  (key = "TALB" ∧ source_text fs src "album" = Some text) ∨
  (key = "TPE1" ∧ source_text fs src "artist" = Some text) ∨
  (key = "TPE2" ∧ source_text fs src "albumartist" = Some text) ∨
  (key = "TCON" ∧ source_text fs src "genre" = Some text) ∨
  (key = "TDRC" ∧ source_text fs src "date" = Some text) ∨
  (key = "TRCK" ∧ source_tag fs src ["tracknumber"; "track"; "trkn"] ∧
     ∃ n, st !! "track" = Some n ∧
       (text = n ∨
        ∃ t, st !! "tracktotal" = Some t ∧ text = n +:+ "/" +:+ t ∧
             source_total fs src ["tracknumber"; "track"; "trkn"]
               ["totaltracks"; "tracktotal"])) ∨
  (key = "TPOS" ∧ source_tag fs src ["discnumber"; "disc"; "disk"] ∧
     ∃ n, st !! "disc" = Some n ∧
       (text = n ∨
        ∃ t, st !! "disctotal" = Some t ∧ text = n +:+ "/" +:+ t ∧
             source_total fs src ["discnumber"; "disc"; "disk"]
               ["totaldiscs"; "disctotal"])).

(** The frames [add_text_frames] makes of the reduced map of a source
    come from that source. *)
Lemma written_provenance (src : Path) fs st fs1 (key : string) (fr : Frame) :
  Tagging.read_source_tags src fs = (Ok st, fs1) →
  Tagging.add_text_frames st ∅ !! key = Some fr →
  ∃ text, fr = TextFrame text ∧ provenance fs src st key text.
Proof.
  intros Hread Hw.
  pose proof (read_source_tags_title _ _ _ _ Hread) as Htitle.
  assert (∀ k s, k ∈ ["artist"; "album"; "albumartist"; "date"; "genre"] →
            st !! k = Some s → source_text fs src k = Some s) as Hgen.
  { intros k s Hk Hs. by rewrite <-(read_source_tags_generic _ _ _ _ k Hk Hread). }
  pose proof (read_source_tags_Ok _ _ _ _ Hread) as (f & Hf & Hst).
  assert (st !! "album_artist" = None) as Hnone.
  { destruct Hst as [->|(atags & _ & ->)]; [done|].
    apply eq_None_not_Some. intros Hin%tags_of_keys.
    unfold _REDUCED_KEYS in Hin. set_solver. }
  assert (∀ n, st !! "track" = Some n →
            source_tag fs src ["tracknumber"; "track"; "trkn"]) as Htrack.
  { intros n Hn. destruct Hst as [->|(atags & Ha & ->)]; [done|].
    apply tags_of_track in Hn. by apply source_tag_of_pull_any with f atags. }
  assert (∀ n, st !! "disc" = Some n →
            source_tag fs src ["discnumber"; "disc"; "disk"]) as Hdisc.
  { intros n Hn. destruct Hst as [->|(atags & Ha & ->)]; [done|].
    apply tags_of_disc in Hn. by apply source_tag_of_pull_any with f atags. }
  assert (∀ atags nk tk,
            filetags f = Some atags →
            (is_Some (Tagging.pull_any atags tk) ∨
             ∃ v x0 x1 rest, Tagging.pull_any atags nk = Some v ∧
               Py.nonempty_seq v = Some (x0, x1 :: rest) ∧
               Py.truthy x1 = true) →
            source_total fs src nk tk) as Htot.
  { intros atags nk tk Ha [Hs|(v & x0 & x1 & rest & ? & ? & ?)].
    - left. by apply source_tag_of_pull_any with f atags.
    - right. by exists f, atags, v, x0, x1, rest. }
  assert (∀ t, st !! "tracktotal" = Some t →
            source_total fs src ["tracknumber"; "track"; "trkn"]
              ["totaltracks"; "tracktotal"]) as Httotal.
  { intros t Ht. destruct Hst as [->|(atags & Ha & ->)]; [done|].
    apply (Htot atags); [done|]. by apply tags_of_tracktotal in Ht. }
  assert (∀ t, st !! "disctotal" = Some t →
            source_total fs src ["discnumber"; "disc"; "disk"]
              ["totaldiscs"; "disctotal"]) as Hdtotal.
  { intros t Ht. destruct Hst as [->|(atags & Ha & ->)]; [done|].
    apply (Htot atags); [done|]. by apply tags_of_disctotal in Ht. }
  apply add_text_frames_written in Hw. unfold provenance.
  destruct Hw as [s H|s H|s H|s [H|H]|s H|n H|n t H Ht|n H|n t H Ht|s H];
    (eexists; split; [reflexivity|]).
  - left. split; [done|]. congruence.
  - right; left. split; [done|]. apply Hgen; [set_solver|done].
  - do 2 right; left. split; [done|]. apply Hgen; [set_solver|done].
  - do 3 right; left. split; [done|]. apply Hgen; [set_solver|done].
  - congruence.
  - do 4 right; left. split; [done|]. apply Hgen; [set_solver|done].
  - do 6 right; left. split_and!; [done|by eapply Htrack|by eauto].
  - do 6 right; left. split_and!; [done|by eapply Htrack|].
    exists n. split; [done|]. right. exists t. split_and!; [done..|].
    by eapply Httotal.
  - do 7 right. split_and!; [done|by eapply Hdisc|by eauto].
  - do 7 right. split_and!; [done|by eapply Hdisc|].
    exists n. split; [done|]. right. exists t. split_and!; [done..|].
    by eapply Hdtotal.
  - do 5 right; left. split; [done|]. apply Hgen; [set_solver|done].
Qed.

Lemma lookup_set_text_ne key v tags (j : string) :
  key ≠ j → Tagging.set_text key v tags !! j = tags !! j.
Proof.
  intros Hne. unfold Tagging.set_text, Mutagen.add.
  destruct v as [s|]; [|done]. destruct (Str.nonempty s); [|done].
  by rewrite lookup_insert_ne.
Qed.

Lemma lookup_set_number_ne key num total tags (j : string) :
  key ≠ j → Tagging.set_number key num total tags !! j = tags !! j.
Proof.
  intros Hne. unfold Tagging.set_number, Mutagen.add.
  destruct (Tagging.or_else num None); [|done].
  destruct (Tagging.or_else total None); by rewrite lookup_insert_ne.
Qed.

Lemma add_text_frames_title st tags0 (t : string) :
  st !! "title" = Some t → t ≠ "" →
  Tagging.add_text_frames st tags0 !! "TIT2" = Some (TextFrame t).
Proof.
  intros Ht Hne. unfold Tagging.add_text_frames.
  rewrite lookup_set_text_ne by done.
  rewrite !lookup_set_number_ne by done.
  rewrite !lookup_set_text_ne by done.
  rewrite Ht. unfold Tagging.set_text, Mutagen.add.
  destruct t; [done|]. simpl. by rewrite lookup_insert_eq.
Qed.

(** The title frame of a tagged file. *)
Lemma retagged_title (src : Path) fs st fs1 pats tags0 :
  Tagging.read_source_tags src fs = (Ok st, fs1) →
  title_for fs src ≠ "" → "TIT2" ∉ pats →
  retagged st pats tags0 !! "TIT2" = Some (TextFrame (title_for fs src)).
Proof.
  intros Hread Hne Hpats.
  apply lookup_retagged; [|done|].
  - apply add_text_frames_title; [|done]. by eapply read_source_tags_title.
  - unfold Tagging.strip_match. by rewrite bool_decide_eq_false_2.
Qed.

Lemma text_frame_no_picture (key : string) :
  key ∈ _TEXT_FRAMES → key ≠ "APIC:Cover (front)".
Proof. unfold _TEXT_FRAMES. intros Hin ->. set_solver. Qed.

(** C9, as the code has it.  In the file the tagger has written for a
    source, the title frame holds the title the tags of the source
    hold, and the file name without its suffix when they hold none
    (unless that text is empty or the strip patterns name the frame);
    and every frame under one of the eight text keys either was in the
    temp file before the tagger ran, or holds text from the source:
    for album, artist, album artist, genre and date what the tags of
    the source hold under that field, so that the field is written only
    if the source holds it, for track and disc the number the source
    holds, a total being appended only if the source holds that
    total. *)
Theorem reduced_tags_from_source (src temp : Path) png500 pats fs st fs1 fs' :
  Tagging.read_source_tags src fs = (Ok st, fs1) →
  Tagging.write_id3_v23_with_apic temp png500 st pats fs1 = (Ok tt, fs') →
  ∃ tf tf' tags',
    fs !! temp = Some tf ∧ fs' !! temp = Some tf' ∧ id3 tf' = Some tags' ∧
    ("TIT2" ∈ pats ∨ title_for fs src = "" ∨
     tags' !! "TIT2" = Some (TextFrame (title_for fs src))) ∧
    ∀ (key : string) (fr : Frame),
      key ∈ _TEXT_FRAMES → tags' !! key = Some fr →
      default ∅ (id3 tf) !! key = Some fr ∨
      ∃ text, fr = TextFrame text ∧ provenance fs src st key text.
Proof.
  intros Hread Hw.
  assert (fs1 = fs) as ->.
  { eapply only_writes_nil; [|exact Hread]. apply only_writes_read_source_tags. }
  apply write_id3_cases in Hw
    as [(e & [=] & _)|(tf & tags' & _ & Htf & -> & Htags)].
  set (tags1 := retagged st pats (default ∅ (id3 tf))) in *.
  assert (∀ key : string, key ∈ _TEXT_FRAMES → tags' !! key = tags1 !! key)
    as Hsame.
  { intros key Hkey.
    destruct Htags as [[-> _]|(cover & cf & im & _ & _ & _ & _ & ->)]; [done|].
    unfold Mutagen.add. rewrite lookup_insert_ne; [done|].
    apply not_eq_sym. by apply text_frame_no_picture. }
  eexists tf, _, tags'. split_and!; [done|apply lookup_insert_eq|done| |].
  - destruct (decide ("TIT2" ∈ pats)) as [|Hpats]; [by left|right].
    destruct (decide (title_for fs src = "")) as [|Hne]; [by left|right].
    rewrite Hsame by (unfold _TEXT_FRAMES; set_solver).
    by eapply retagged_title.
  - intros key fr Hkey Hfr. rewrite (Hsame key Hkey) in Hfr.
    unfold tags1, retagged, Mutagen.delall, Tagging._strip_frames in Hfr.
    apply map_lookup_filter_Some in Hfr as [Hfr _].
    apply map_lookup_filter_Some in Hfr as [Hfr _].
    rewrite add_text_frames_union in Hfr.
    apply lookup_union_Some_raw in Hfr as [Hfr|[_ Hfr]]; [right|by left].
    by eapply written_provenance.
Qed.

(** The tagged source and the temp file the encoder has made of it. *)
Definition tagged_temp_fs : FS :=
  <[ ["music"; ".~a.0f3c.tmp"] := encoded_file ]> tagged_fs.

Lemma reduced_tags_from_source_witness :
  ∃ tf tf' tags',
    tagged_temp_fs !! ["music"; ".~a.0f3c.tmp"] = Some tf ∧
    (Tagging.write_id3_v23_with_apic ["music"; ".~a.0f3c.tmp"] None
       (<[ "artist" := "Nina" ]>
        (<[ "title" := "Feeling" ]> {[ "track" := "3" ]}))
       ["TXXX:iTunNORM"; "PRIV"] tagged_temp_fs).2
      !! ["music"; ".~a.0f3c.tmp"] = Some tf' ∧
    id3 tf' = Some tags' ∧
    ("TIT2" ∈ ["TXXX:iTunNORM"; "PRIV"] ∨
     title_for tagged_temp_fs ["music"; "a.flac"] = "" ∨
     tags' !! "TIT2"
     = Some (TextFrame (title_for tagged_temp_fs ["music"; "a.flac"]))) ∧
    ∀ (key : string) (fr : Frame),
      key ∈ _TEXT_FRAMES → tags' !! key = Some fr →
      default ∅ (id3 tf) !! key = Some fr ∨
      ∃ text, fr = TextFrame text ∧
        provenance tagged_temp_fs ["music"; "a.flac"]
          (<[ "artist" := "Nina" ]>
           (<[ "title" := "Feeling" ]> {[ "track" := "3" ]})) key text.
Proof.
  apply (reduced_tags_from_source ["music"; "a.flac"] ["music"; ".~a.0f3c.tmp"]
           None ["TXXX:iTunNORM"; "PRIV"] tagged_temp_fs
           (<[ "artist" := "Nina" ]>
            (<[ "title" := "Feeling" ]> {[ "track" := "3" ]}))
           tagged_temp_fs).
  - reflexivity.
  - reflexivity.
Defined.

(** The file written for the sample source: the title and the artist
    are the source's, the track number stands without a total. *)
Example reduced_tags_sample :
  (Tagging.write_id3_v23_with_apic ["music"; ".~a.0f3c.tmp"] None
     (<[ "artist" := "Nina" ]>
      (<[ "title" := "Feeling" ]> {[ "track" := "3" ]}))
     ["TXXX:iTunNORM"; "PRIV"] tagged_temp_fs).2
    !! ["music"; ".~a.0f3c.tmp"]
  = Some {| id3 := Some (<[ "TIT2" := TextFrame "Feeling" ]>
                         (<[ "TPE1" := TextFrame "Nina" ]>
                          {[ "TRCK" := TextFrame "3" ]}));
            filetags := None; picture := None; payload := [42%N] |} ∧
  title_for tagged_temp_fs ["music"; "a.flac"] = "Feeling" ∧
  source_text tagged_temp_fs ["music"; "a.flac"] "artist" = Some "Nina" ∧
  source_text tagged_temp_fs ["music"; "a.flac"] "album" = None.
Proof. by split_and!. Qed.

(** X12. Reading the source's tags and writing them: unless the strip
    patterns name the title frame, every file the tagger has written for
    a source with a file name holds a title, and one that is not empty:
    the title the tags of the source hold, if it is not empty, and else
    the file name without its suffix. *)
Theorem tagged_file_has_title (src temp : Path) png500 pats fs st fs1 fs' :
  Tagging.read_source_tags src fs = (Ok st, fs1) →
  Tagging.write_id3_v23_with_apic temp png500 st pats fs1 = (Ok tt, fs') →
  PurePath.stem src ≠ "" →
  "TIT2" ∉ pats →
  ∃ tf' tags',
    fs' !! temp = Some tf' ∧ id3 tf' = Some tags' ∧
    tags' !! "TIT2" = Some (TextFrame (title_for fs src)) ∧
    title_for fs src ≠ "" ∧
    (title_for fs src = PurePath.stem src ∨
     source_text fs src "title" = Some (title_for fs src)).
Proof.
  intros Hread Hw Hstem Hpats.
  assert (title_for fs src ≠ "" ∧
          (title_for fs src = PurePath.stem src ∨
           source_text fs src "title" = Some (title_for fs src))) as [Hne Hfrom].
  { unfold title_for. destruct (source_text fs src "title") as [t|]; [|auto].
    destruct (Str.nonempty t) eqn:Ht; [|auto].
    split; [by apply nonempty_ne|by right]. }
  apply write_id3_cases in Hw
    as [(e & [=] & _)|(tf & tags' & _ & Htf & -> & Htags)].
  pose proof (retagged_title src fs st fs1 pats (default ∅ (id3 tf))
                Hread Hne Hpats) as Hkept.
  eexists _, tags'. split_and!; [apply lookup_insert_eq|done| |done..].
  destruct Htags as [[-> _]|(cover & cf & im & _ & _ & _ & _ & ->)]; [done|].
  unfold Mutagen.add. by rewrite lookup_insert_ne.
Qed.

Lemma tagged_file_has_title_witness :
  ∃ tf' tags',
    (Tagging.write_id3_v23_with_apic ["music"; ".~a.0f3c.tmp"] None
       (<[ "artist" := "Nina" ]> {[ "title" := "a" ]})
       ["TXXX:iTunNORM"; "PRIV"]
       (<[ ["music"; ".~a.0f3c.tmp"] := encoded_file ]> flac_only_fs)).2
      !! ["music"; ".~a.0f3c.tmp"] = Some tf' ∧
    id3 tf' = Some tags' ∧
    tags' !! "TIT2"
    = Some (TextFrame
              (title_for (<[ ["music"; ".~a.0f3c.tmp"] := encoded_file ]>
                            flac_only_fs) ["music"; "a.flac"])) ∧
    title_for (<[ ["music"; ".~a.0f3c.tmp"] := encoded_file ]> flac_only_fs)
      ["music"; "a.flac"] ≠ "" ∧
    (title_for (<[ ["music"; ".~a.0f3c.tmp"] := encoded_file ]> flac_only_fs)
       ["music"; "a.flac"] = PurePath.stem ["music"; "a.flac"] ∨
     source_text (<[ ["music"; ".~a.0f3c.tmp"] := encoded_file ]> flac_only_fs)
       ["music"; "a.flac"] "title"
     = Some (title_for (<[ ["music"; ".~a.0f3c.tmp"] := encoded_file ]>
                          flac_only_fs) ["music"; "a.flac"])).
Proof.
  apply (tagged_file_has_title ["music"; "a.flac"] ["music"; ".~a.0f3c.tmp"]
           None ["TXXX:iTunNORM"; "PRIV"]
           (<[ ["music"; ".~a.0f3c.tmp"] := encoded_file ]> flac_only_fs)
           (<[ "artist" := "Nina" ]> {[ "title" := "a" ]})
           (<[ ["music"; ".~a.0f3c.tmp"] := encoded_file ]> flac_only_fs)).
  - reflexivity.
  - reflexivity.
  - discriminate.
  - set_solver.
Defined.

End tagger.

(** ** validate.py: the bit rate check *)

Section bitrate.

(** The arguments of the bit rate probe. *)
Definition bitrate_args (dst : Path) : list string :=
  ["-v"; "error"; "-select_streams"; "a:0"; "-show_entries";
   "stream=bit_rate"; "-of"; "json"; PurePath.str dst].

(** X13. With a probe that reports a bit rate for the first audio
    stream, the bit rate check fails exactly for an encoded track below
    319000 bit/s: a copied MP3 passes whatever its bit rate, and there is
    no upper bound.  The check changes no file. *)
Theorem bitrate_check_fails_iff (tools : Tools) (settings : Settings)
    (plan : TrackPlan) (dst : Path) (fs : FS)
    (data : ProbeData) (st : ProbeStream) (rest : list ProbeStream) (br : Z) :
  ffprobe tools (ffmpeg_path settings) (bitrate_args dst) fs
    = (Exited0, Some data) →
  pd_streams data = Some (st :: rest) →
  st_bit_rate st = Val br →
  Validate.validate_bitrate_if_encoded tools settings plan dst fs
  = (if needs_encode plan && (br <? 319000)%Z
     then Raise (ValueError "Audio bitrate is not 320000") else Ok tt, fs).
Proof.
  intros Hprobe Hstreams Hbr.
  unfold Validate.validate_bitrate_if_encoded.
  destruct (needs_encode plan); [|done]. simpl.
  unfold bind, Utils_ffmpeg.run_ffprobe_json, lift, Validate.first_bit_rate.
  fold (bitrate_args dst). rewrite Hprobe, Hstreams, Hbr. simpl.
  destruct (Z.ltb_spec br 319000) as [Hlt|Hge].
  - rewrite andb_true_r. by destruct (Z.eqb_spec br 320000) as [->|]; [lia|].
  - by rewrite andb_false_r.
Qed.

(** A prober that reports 128 kb/s. *)
Definition low_rate_tools : Tools :=
  {| ffmpeg := λ _ _ _, (Exited0, Some encoded_file);
     ffprobe := λ _ _ _,
       (Exited0,
        Some {| pd_duration := Val 180%float;
                pd_streams :=
                  Some [ {| st_index := Val 0%Z; st_attached_pic := None;
                            st_codec_name := Some "mp3"; st_width := None;
                            st_height := None;
                            st_bit_rate := Val 128000%Z |} ] |}) |}.

Lemma bitrate_check_fails_iff_witness :
  Validate.validate_bitrate_if_encoded low_rate_tools default_settings
    (sample_plan overwrite trash) ["music"; ".~a.0f3c.tmp"] crowded_fs
  = (if needs_encode (sample_plan overwrite trash) && (128000 <? 319000)%Z
     then Raise (ValueError "Audio bitrate is not 320000") else Ok tt,
     crowded_fs).
Proof.
  apply (bitrate_check_fails_iff low_rate_tools default_settings
           (sample_plan overwrite trash) ["music"; ".~a.0f3c.tmp"] crowded_fs
           {| pd_duration := Val 180%float;
              pd_streams :=
                Some [ {| st_index := Val 0%Z; st_attached_pic := None;
                          st_codec_name := Some "mp3"; st_width := None;
                          st_height := None;
                          st_bit_rate := Val 128000%Z |} ] |}
           {| st_index := Val 0%Z; st_attached_pic := None;
              st_codec_name := Some "mp3"; st_width := None;
              st_height := None; st_bit_rate := Val 128000%Z |} []);
    reflexivity.
Defined.

End bitrate.

(** ** artwork.py: where the art comes from and what resolving it touches *)

Section art_resolution.

Implicit Types (fs : FS) (plan : TrackPlan) (tools : Tools) (settings : Settings).

Lemma find_first {A B} (P : B → bool) (f : A → B) (l : list A) (i : nat) (x : A) :
  l !! i = Some x → P (f x) = true →
  (∀ j y, j < i → l !! j = Some y → P (f y) = false) →
  List.find P (map f l) = Some (f x).
Proof.
  revert i. induction l as [|a l IH]; intros [|i] Hx HP Hbefore; try done.
  - injection Hx as ->. simpl. by rewrite HP.
  - simpl. rewrite (Hbefore 0 a) by (done || lia).
    apply (IH i); [done..|].
    intros j y Hj Hy. apply (Hbefore (S j) y); [lia|done].
Qed.

Lemma find_folder_art_first (directory : Path) fs (i : nat) (nm : string) :
  Artwork._FOLDER_CANDIDATES !! i = Some nm →
  is_Some (fs !! PurePath.joinpath directory nm) →
  (∀ j nm', j < i → Artwork._FOLDER_CANDIDATES !! j = Some nm' →
     fs !! PurePath.joinpath directory nm' = None) →
  Artwork._find_folder_art directory fs
  = (Ok (Some (PurePath.joinpath directory nm)), fs).
Proof.
  intros Hnm Hex Hbefore. unfold Artwork._find_folder_art.
  rewrite (find_first _ _ _ i nm Hnm); [done| |].
  - by apply bool_decide_eq_true_2.
  - intros j y Hj Hy. apply bool_decide_eq_false_2.
    rewrite (Hbefore j y Hj Hy). by intros [? ?].
Qed.

(** X14. Folder art comes first: when the source's directory holds one
    of the six cover names, the art source is the first of them in the
    order of the list, whatever the prober would report about pictures
    the source embeds, and no file is changed. *)
Theorem folder_art_precedence tools plan settings fs (i : nat) (nm : string) :
  Artwork._FOLDER_CANDIDATES !! i = Some nm →
  is_Some (fs !! PurePath.joinpath (PurePath.parent (src plan)) nm) →
  (∀ j nm', j < i → Artwork._FOLDER_CANDIDATES !! j = Some nm' →
     fs !! PurePath.joinpath (PurePath.parent (src plan)) nm' = None) →
  Artwork.detect_art_source tools plan settings fs
  = (Ok {| kind := folder;
           file_path := Some (PurePath.joinpath (PurePath.parent (src plan)) nm);
           stream_index := None; detail := nm |}, fs).
Proof.
  intros Hnm Hex Hbefore. unfold Artwork.detect_art_source, bind.
  rewrite (find_folder_art_first _ fs i nm) by done.
  unfold ret. by rewrite name_joinpath.
Qed.

(** An album directory with two covers, and a track that embeds a
    picture as well. *)
Definition two_covers_fs : FS :=
  <[ ["music"; "a.flac"] := flac_file ]>
  (<[ ["music"; "folder.jpg"] := cover_file "JPEG" 800 ]>
   {[ ["music"; "cover.png"] := cover_file "PNG" 640 ]}).

Lemma folder_art_precedence_witness :
  Artwork.detect_art_source broken_extractor (sample_plan overwrite trash)
    default_settings two_covers_fs
  = (Ok {| kind := folder;
           file_path :=
             Some (PurePath.joinpath
                     (PurePath.parent (src (sample_plan overwrite trash)))
                     "cover.png");
           stream_index := None; detail := "cover.png" |}, two_covers_fs).
Proof.
  apply (folder_art_precedence broken_extractor (sample_plan overwrite trash)
           default_settings two_covers_fs 2 "cover.png").
  - reflexivity.
  - by eexists.
  - intros [|[|j]] nm' Hj; [by intros [= <-]..|lia].
Defined.

(** The path of the copy of a cover named [nm]. *)
Definition art_copy_path plan (nm : string) : Path :=
  PurePath.parent (temp_path plan)
    ++ [PurePath.stem (temp_path plan) +:+ PurePath.suffix_of nm].

(** X15. Finding folder art and extracting it: the first cover of the
    directory is copied as it is to a file beside the temp file, named
    with the stem of the temp file and the extension of the cover; the
    cover stays where it is and no other file is changed.  The copy
    must be another path than the cover, as it is for the temp paths
    the planner makes, whose names begin with [.~]: [shutil.copy2]
    refuses to copy a file onto itself. *)
Theorem folder_art_is_copied tools plan settings fs (i : nat) (nm : string)
    (cf : File) :
  PurePath.name (temp_path plan) ≠ "" →
  art_copy_path plan nm ≠ PurePath.joinpath (PurePath.parent (src plan)) nm →
  Artwork._FOLDER_CANDIDATES !! i = Some nm →
  fs !! PurePath.joinpath (PurePath.parent (src plan)) nm = Some cf →
  (∀ j nm', j < i → Artwork._FOLDER_CANDIDATES !! j = Some nm' →
     fs !! PurePath.joinpath (PurePath.parent (src plan)) nm' = None) →
  bind (Artwork.detect_art_source tools plan settings)
       (Artwork.extract_art_to_file tools plan settings) fs
  = (Ok (Some (art_copy_path plan nm)), <[art_copy_path plan nm := cf]> fs) ∧
  <[art_copy_path plan nm := cf]> fs
    !! PurePath.joinpath (PurePath.parent (src plan)) nm = Some cf.
Proof.
  intros Hname Hapart Hnm Hcf Hbefore. split.
  - unfold bind at 1, Artwork.detect_art_source, bind at 1.
    rewrite (find_folder_art_first _ fs i nm) by (done || by eexists).
    unfold ret at 1, Artwork.extract_art_to_file. simpl.
    unfold Artwork._temp_art_path, PurePath.with_suffix, PurePath.suffix.
    rewrite name_joinpath.
    assert (Str.lower (PurePath.suffix_of nm) = PurePath.suffix_of nm ∧
            PurePath.valid_suffix (PurePath.suffix_of nm) = true) as [-> Hvalid].
    { destruct i as [|[|[|[|[|[|i]]]]]]; simplify_eq/=; by split. }
    rewrite Hvalid. simpl. rewrite decide_False by done.
    unfold bind, lift, Os.copy2, ret. rewrite Hcf.
    fold (art_copy_path plan nm). by rewrite decide_False by done.
  - by rewrite lookup_insert_ne.
Qed.

Lemma folder_art_is_copied_witness :
  bind (Artwork.detect_art_source missing_tools (sample_plan overwrite trash)
          default_settings)
       (Artwork.extract_art_to_file missing_tools (sample_plan overwrite trash)
          default_settings) two_covers_fs
  = (Ok (Some (art_copy_path (sample_plan overwrite trash) "cover.png")),
     <[art_copy_path (sample_plan overwrite trash) "cover.png"
         := cover_file "PNG" 640]> two_covers_fs) ∧
  <[art_copy_path (sample_plan overwrite trash) "cover.png"
      := cover_file "PNG" 640]> two_covers_fs
    !! PurePath.joinpath (PurePath.parent (src (sample_plan overwrite trash)))
         "cover.png"
  = Some (cover_file "PNG" 640).
Proof.
  apply (folder_art_is_copied missing_tools (sample_plan overwrite trash)
           default_settings two_covers_fs 2 "cover.png" (cover_file "PNG" 640)).
  - discriminate.
  - discriminate.
  - reflexivity.
  - reflexivity.
  - intros [|[|j]] nm' Hj; [by intros [= <-]..|lia].
Defined.

(** With a temp path named like the cover, the copy would be the cover
    itself and the extraction raises. *)
Example folder_art_same_file :
  (Artwork.extract_art_to_file missing_tools
     (plan_of ["music"; "a.flac"] "flac" true ["music"; "a.mp3"]
        ["music"; "cover.tmp"])
     default_settings folder_art folder_fs).1
  = Raise (OSError "are the same file").
Proof. reflexivity. Qed.

Lemma only_writes_detect W tools plan settings :
  only_writes W (Artwork.detect_art_source tools plan settings).
Proof.
  intros fs p _.
  unfold Artwork.detect_art_source, bind, Artwork._find_folder_art.
  destruct (List.find _ _); [done|].
  pose proof (only_writes_bind [] _ (λ data,
                match List.find (λ st, bool_decide (st_attached_pic st = Some 1%Z))
                        (default [] (pd_streams data)) with
                | Some st => bind (lift (Artwork.embedded_art st)) (λ a, ret (Some a))
                | None =>
                    match default [] (pd_streams data) with
                    | st0 :: _ =>
                        bind (lift (Artwork.embedded_art st0)) (λ a, ret (Some a))
                    | [] => ret None
                    end
                end)
                (only_writes_run_ffprobe_json [] tools settings
                   (Artwork.stream_args (src plan)))) as Hprobe.
  fold (Artwork.probe_embedded tools plan settings) in Hprobe.
  assert (only_writes [] (Artwork.probe_embedded tools plan settings)) as Hfr.
  { apply Hprobe. intros data. destruct (List.find _ _); [auto with frame|].
    destruct (default [] (pd_streams data)); auto with frame. }
  specialize (Hfr fs p (not_elem_of_nil _)).
  by destruct (Artwork.probe_embedded tools plan settings fs)
    as [[[art|]|[]] fs'].
Qed.

(** The paths a plan's temporary art can have. *)
Definition temp_art_of plan (p : Path) : Prop :=
  ∃ sfx, Artwork._temp_art_path plan sfx = Ok p.

Lemma extract_writes_temp_art tools plan settings art fs (p : Path) :
  ¬ temp_art_of plan p →
  (Artwork.extract_art_to_file tools plan settings art fs).2 !! p = fs !! p.
Proof.
  intros Hp. unfold Artwork.extract_art_to_file.
  destruct (kind art), (file_path art) as [fp|], (stream_index art) as [idx|];
    try done.
  all: unfold bind at 1, lift.
  all: destruct (Artwork._temp_art_path plan _) as [out|e] eqn:Hout; [|done].
  all: assert (p ∉ [out]) as Hne
         by (intros ->%list_elem_of_singleton; apply Hp; eexists; exact Hout).
  all: match goal with
       | |- (bind ?m _ _).2 !! _ = _ =>
           assert (only_writes [out] m) as Hm
             by (apply only_writes_copy2 || apply only_writes_run_ffmpeg);
           exact (only_writes_bind [out] m _ Hm
                    (λ _, only_writes_ret _ _) fs p Hne)
       end.
Qed.

Lemma normalize_writes_temp_art tools plan settings src_image fs (p : Path) :
  ¬ temp_art_of plan p →
  (Artwork.normalize_art_to_jpeg_500 tools plan settings src_image fs).2 !! p
  = fs !! p.
Proof.
  intros Hp. unfold Artwork.normalize_art_to_jpeg_500.
  destruct src_image as [si|]; [|done].
  unfold bind at 1, Os.exists_. destruct (negb _); [done|].
  unfold bind at 1, lift.
  destruct (Artwork._temp_art_path plan _) as [out|e] eqn:Hout; [|done].
  assert (p ∉ [out]) as Hne
    by (intros ->%list_elem_of_singleton; apply Hp; eexists; exact Hout).
  match goal with
  | |- (bind ?m _ _).2 !! _ = _ =>
      exact (only_writes_bind [out] m _ (only_writes_run_ffmpeg _ _ _ _)
               (λ _, only_writes_ret _ _) fs p Hne)
  end.
Qed.

(** X16. Resolving the artwork of the plans of a run, whether it
    returns the rows or is cut short by an error, changes no file but
    temporary art files of these plans (the temp path of a plan with
    another suffix): sources, covers and targets are as they were. *)
Theorem art_resolution_writes_temp_art_only tools settings
    (plans : list TrackPlan) fs (p : Path) :
  (∀ plan, plan ∈ plans → ¬ temp_art_of plan p) →
  (Cli.build_rows tools settings plans fs).2 !! p = fs !! p.
Proof.
  revert fs. induction plans as [|plan rest IH]; intros fs Hp; [done|].
  assert (¬ temp_art_of plan p) as Hplan by (apply Hp; left).
  assert (∀ q, q ∈ rest → ¬ temp_art_of q p) as Hrest
    by (intros q Hq; apply Hp; by right).
  simpl. unfold bind at 1.
  pose proof (only_writes_detect [] tools plan settings fs p
                (not_elem_of_nil _)) as Hdetect.
  destruct (Artwork.detect_art_source tools plan settings fs)
    as [[art|e] fs1]; simpl in Hdetect; [|done].
  unfold bind at 1.
  pose proof (extract_writes_temp_art tools plan settings art fs1 p Hplan)
    as Hextract.
  destruct (Artwork.extract_art_to_file tools plan settings art fs1)
    as [[src_image|e] fs2]; simpl in *; [|congruence].
  unfold bind at 1.
  pose proof (normalize_writes_temp_art tools plan settings src_image fs2 p Hplan)
    as Hnorm.
  destruct (Artwork.normalize_art_to_jpeg_500 tools plan settings src_image fs2)
    as [[png500|e] fs3]; simpl in *; [|congruence].
  unfold bind at 1. specialize (IH fs3 Hrest).
  destruct (Cli.build_rows tools settings rest fs3) as [[rows|e] fs4];
    simpl in *; congruence.
Qed.

Lemma art_resolution_writes_temp_art_only_witness :
  (Cli.build_rows no_prober default_settings [sample_plan overwrite trash]
     folder_fs).2 !! ["music"; "a.flac"]
  = folder_fs !! ["music"; "a.flac"].
Proof.
  apply (art_resolution_writes_temp_art_only no_prober default_settings
           [sample_plan overwrite trash] folder_fs ["music"; "a.flac"]).
  intros plan ->%list_elem_of_singleton [sfx Hsfx].
  unfold Artwork._temp_art_path, PurePath.with_suffix in Hsfx.
  destruct (negb (PurePath.valid_suffix sfx)); [discriminate|].
  simpl in Hsfx. discriminate.
Defined.















End art_resolution.

(** ** cli.py: a track from the first stage to the cleanup *)

Section track_outcomes.

Implicit Types (fs : FS) (plan : TrackPlan) (tools : Tools) (settings : Settings).

Lemma cleanup_paths_Ok (paths : list Path) fs :
  (Fsops.cleanup_paths paths fs).1 = Ok tt.
Proof.
  revert fs. induction paths as [|p rest IH]; intros fs; [done|].
  simpl. unfold bind, try_pass. destruct (Os.unlink p fs) as [r fs1]. apply IH.
Qed.

(** The cleanup creates no file. *)
Lemma cleanup_paths_absent (paths : list Path) fs (p : Path) :
  fs !! p = None → (Fsops.cleanup_paths paths fs).2 !! p = None.
Proof.
  revert fs. induction paths as [|q rest IH]; intros fs Hp; [done|].
  simpl. unfold bind, try_pass, Os.unlink.
  destruct (fs !! q); apply IH; [|done].
  by apply lookup_delete_None; right.
Qed.

(** The guard of the deletion. *)
Definition deletes_source (os : Tree) plan settings (final : Path) : bool :=
  negb (String.eqb (Str.lower (src_codec plan)) "mp3")
  && replace_in_place settings
  && negb (bool_decide (resolve os final = resolve os (src plan))).

Definition failed (e : exn) : Outcome :=
  {| success := false; final_target := None; deleted := false; error := Some e |}.

Definition done_ (final : Path) (del : bool) : Outcome :=
  {| success := true; final_target := Some final; deleted := del; error := None |}.

(** The ways a track can go. *)
Inductive track_run tools (os : Tree) plan (src_image png500 : option Path)
    settings fs : Outcome → FS → Prop :=
| run_stage_failed e fs1 :
    Cli.stages_before_commit tools plan png500 settings fs = (Raise e, fs1) →
    track_run tools os plan src_image png500 settings fs
      (failed e) (Cli.on_failure plan src_image png500 fs1).2
| run_commit_failed e fs1 fs2 :
    Cli.stages_before_commit tools plan png500 settings fs = (Ok tt, fs1) →
    Fsops.atomic_commit plan fs1 = (Raise e, fs2) →
    track_run tools os plan src_image png500 settings fs
      (failed e) (Cli.on_failure plan src_image png500 fs2).2
| run_kept final fs1 fs2 :
    Cli.stages_before_commit tools plan png500 settings fs = (Ok tt, fs1) →
    Fsops.atomic_commit plan fs1 = (Ok final, fs2) →
    deletes_source os plan settings final = false →
    track_run tools os plan src_image png500 settings fs
      (done_ final false)
      (Fsops.cleanup_paths (omap id [src_image; png500]) fs2).2
| run_deleted final fs1 fs2 fs3 :
    Cli.stages_before_commit tools plan png500 settings fs = (Ok tt, fs1) →
    Fsops.atomic_commit plan fs1 = (Ok final, fs2) →
    deletes_source os plan settings final = true →
    Fsops.delete_source plan fs2 = (Ok tt, fs3) →
    track_run tools os plan src_image png500 settings fs
      (done_ final true)
      (Fsops.cleanup_paths (omap id [src_image; png500]) fs3).2
| run_delete_failed final e fs1 fs2 fs3 :
    Cli.stages_before_commit tools plan png500 settings fs = (Ok tt, fs1) →
    Fsops.atomic_commit plan fs1 = (Ok final, fs2) →
    deletes_source os plan settings final = true →
    Fsops.delete_source plan fs2 = (Raise e, fs3) →
    track_run tools os plan src_image png500 settings fs
      (failed e) (Cli.on_failure plan src_image png500 fs3).2.

Lemma process_one_run_eq tools os plan art src_image png500 settings fs out fs' :
  Cli.process_one tools os plan art src_image png500 settings fs = (out, fs') →
  track_run tools os plan src_image png500 settings fs out fs'.
Proof.
  unfold Cli.process_one, bind at 1.
  destruct (Cli.stages_before_commit tools plan png500 settings fs)
    as [[[]|e] fs1] eqn:Hst; [|intros [= <- <-]; by apply run_stage_failed].
  unfold Cli.commit_and_after, bind at 1.
  destruct (Fsops.atomic_commit plan fs1) as [[final|e] fs2] eqn:Hc;
    [|intros [= <- <-]; by eapply run_commit_failed].
  unfold bind at 1.
  destruct (deletes_source os plan settings final) eqn:Hguard.
  - unfold deletes_source in Hguard.
    apply andb_true_iff in Hguard as [[Hmp3 Hrip]%andb_true_iff Hsame].
    rewrite Hmp3, Hrip, Hsame. simpl. unfold bind at 1.
    assert (deletes_source os plan settings final = true) as Hguard.
    { unfold deletes_source. by rewrite Hmp3, Hrip, Hsame. }
    destruct (Fsops.delete_source plan fs2) as [[[]|e] fs3] eqn:Hd;
      [|intros [= <- <-]; by eapply run_delete_failed].
    unfold ret, bind.
    pose proof (cleanup_paths_Ok (omap id [src_image; png500]) fs3) as Hok.
    destruct (Fsops.cleanup_paths _ fs3) as [r fs4] eqn:Hcl. simpl in Hok. subst r.
    intros [= <- <-].
    replace fs4 with (Fsops.cleanup_paths (omap id [src_image; png500]) fs3).2
      by by rewrite Hcl.
    by eapply run_deleted.
  - assert ((if negb (String.eqb (Str.lower (src_codec plan)) "mp3")
                && replace_in_place settings
             then if negb (bool_decide (resolve os final = resolve os (src plan)))
                  then bind (Fsops.delete_source plan) (λ _, ret true)
                  else ret false
             else ret false) fs2 = (Ok false, fs2)) as ->.
    { unfold deletes_source in Hguard.
      destruct (negb (String.eqb _ _) && replace_in_place settings); [|done].
      simpl in Hguard. by rewrite Hguard. }
    unfold ret, bind.
    pose proof (cleanup_paths_Ok (omap id [src_image; png500]) fs2) as Hok.
    destruct (Fsops.cleanup_paths _ fs2) as [r fs4] eqn:Hcl. simpl in Hok. subst r.
    intros [= <- <-].
    replace fs4 with (Fsops.cleanup_paths (omap id [src_image; png500]) fs2).2
      by by rewrite Hcl.
    by eapply run_kept.
Qed.

Lemma process_one_run tools os plan art src_image png500 settings fs :
  track_run tools os plan src_image png500 settings fs
    (Cli.process_one tools os plan art src_image png500 settings fs).1
    (Cli.process_one tools os plan art src_image png500 settings fs).2.
Proof.
  destruct (Cli.process_one tools os plan art src_image png500 settings fs)
    as [out fs'] eqn:Hrun.
  by apply process_one_run_eq in Hrun.
Qed.

Lemma atomic_commit_cases plan fs r fs' :
  Fsops.atomic_commit plan fs = (r, fs') →
  (plan_collision plan = skip ∧ is_Some (fs !! target plan) ∧
   r = Ok (target plan) ∧ fs' = fs) ∨
  (∃ e, r = Raise e ∧ fs' = fs) ∨
  (∃ final f,
     r = Ok final ∧ fs !! temp_path plan = Some f ∧
     fs' = <[final := f]> (delete (temp_path plan) fs)).
Proof.
  assert (∀ tgt, Fsops.place (temp_path plan) tgt fs = (r, fs') →
            (∃ e, r = Raise e ∧ fs' = fs) ∨
            (∃ final f,
               r = Ok final ∧ fs !! temp_path plan = Some f ∧
               fs' = <[final := f]> (delete (temp_path plan) fs))) as Hplace.
  { intros tgt [(f & Hf & -> & ->)|(Hf & -> & ->)]%place_inv; [right|left]; eauto. }
  unfold Fsops.atomic_commit, bind at 1, Os.exists_.
  case_bool_decide as Hex.
  - destruct (plan_collision plan) eqn:Hpol.
    + intros H. right. by apply (Hplace _ H).
    + intros [= <- <-]. by left.
    + unfold bind at 1, Fsops._versioned_name.
      destruct (Fsops._versioned_loop _ _ _ _) as [[tgt|e]|].
      * intros H. right. by apply (Hplace _ H).
      * intros [= <- <-]. right. left. eauto.
      * intros [= <- <-]. right. left. eauto.
  - intros H. right. by apply (Hplace _ H).
Qed.

(** A commit changes no path but the temp file and the returned one. *)
Lemma atomic_commit_frame plan fs final fs' (p : Path) :
  Fsops.atomic_commit plan fs = (Ok final, fs') →
  p ≠ temp_path plan → p ≠ final → fs' !! p = fs !! p.
Proof.
  intros [(_ & _ & _ & ->)|[(e & [=] & _)|(final' & f & [= <-] & _ & ->)]]
    %atomic_commit_cases Htemp Hfinal; [done|].
  by rewrite lookup_insert_ne, lookup_delete_ne.
Qed.

Lemma atomic_commit_Raise plan fs e fs' :
  Fsops.atomic_commit plan fs = (Raise e, fs') → fs' = fs.
Proof.
  by intros [(_ & _ & [=] & _)|[(e' & _ & ->)|(final' & f & [=] & _)]]
    %atomic_commit_cases.
Qed.

Lemma delete_source_cases plan fs r fs' :
  Fsops.delete_source plan fs = (r, fs') →
  (r = Ok tt ∧ fs' = delete (src plan) fs) ∨ (∃ e, r = Raise e ∧ fs' = fs).
Proof.
  unfold Fsops.delete_source, Os.send2trash, Os.unlink.
  destruct (plan_delete_mode plan), (fs !! src plan) eqn:Hsrc;
    intros [= <- <-]; eauto.
  left. split; [done|]. symmetry. by apply delete_id.
Qed.

Lemma guard_apart (os : Tree) plan settings (final : Path) :
  deletes_source os plan settings final = true → final ≠ src plan.
Proof.
  unfold deletes_source. intros [_ Hsame%negb_true_iff]%andb_true_iff ->.
  by rewrite bool_decide_eq_true_2 in Hsame.
Qed.

(** When the stages before the commit return, the temp file has passed
    the cover check. *)
Lemma stages_Ok_cover tools plan png500 settings fs fs1 :
  Cli.stages_before_commit tools plan png500 settings fs = (Ok tt, fs1) →
  one_cover 500 "JPEG" fs1 (temp_path plan).
Proof.
  unfold Cli.stages_before_commit.
  intros (_ & f1 & _ & Hst)%bind_Ok_inv.
  apply bind_Ok_inv in Hst as (src_tags & f2 & _ & Hst).
  apply bind_Ok_inv in Hst as ([] & f3 & _ & Hst).
  apply bind_Ok_inv in Hst as ([] & f4 & _ & Hst).
  apply bind_Ok_inv in Hst as ([] & f5 & _ & Hst).
  pose proof (only_writes_nil _ _ _ _ (only_writes_validate_id3 [] _) Hst) as ->.
  pose proof (validate_id3_unfold (temp_path plan) f5) as Hun.
  rewrite Hst in Hun. simpl in Hun.
  destruct (f5 !! temp_path plan) as [f|] eqn:Hf; [|done].
  destruct (id3 f) as [tags|] eqn:Htags; [|done].
  symmetry in Hun. apply check_apics_Ok in Hun as (fr & im & ? & ? & ? & ?).
  by exists f, tags, fr, im.
Qed.

Lemma stages_frame tools plan png500 settings fs r fs1 (p : Path) :
  Cli.stages_before_commit tools plan png500 settings fs = (r, fs1) →
  p ≠ temp_path plan → fs1 !! p = fs !! p.
Proof.
  intros Hst Hp.
  pose proof (only_writes_stages tools plan png500 settings fs p) as Hfr.
  rewrite Hst in Hfr. apply Hfr. set_solver.
Qed.

Lemma cleanup_frame (paths : list Path) fs (p : Path) :
  p ∉ paths → (Fsops.cleanup_paths paths fs).2 !! p = fs !! p.
Proof. apply only_writes_cleanup_paths. Qed.

Lemma on_failure_frame plan src_image png500 fs (p : Path) :
  p ∉ temp_path plan :: omap id [src_image; png500] →
  (Cli.on_failure plan src_image png500 fs).2 !! p = fs !! p.
Proof. apply only_writes_on_failure. Qed.

(** X18. Under the policy [skip], a track whose target exists is taken
    through all stages and then reported as done with the target as its
    final path: the file at the target is the one that was there, and
    the temp file, encoded and tagged, stays on the disk. *)
Theorem skip_keeps_target_and_temp tools os plan art src_image png500 settings
    fs (old : File) :
  plan_collision plan = skip →
  fs !! target plan = Some old →
  target plan ∉ temp_path plan :: omap id [src_image; png500] →
  temp_path plan ∉ src plan :: omap id [src_image; png500] →
  success (Cli.process_one tools os plan art src_image png500 settings fs).1
    = true →
  final_target (Cli.process_one tools os plan art src_image png500 settings fs).1
    = Some (target plan) ∧
  (Cli.process_one tools os plan art src_image png500 settings fs).2
    !! target plan = Some old ∧
  is_Some ((Cli.process_one tools os plan art src_image png500 settings fs).2
             !! temp_path plan).
Proof.
  intros Hskip Hold Htarget Htemp Hok.
  apply not_elem_of_cons in Htarget as [Htt Htarget].
  apply not_elem_of_cons in Htemp as [Hts Htemp].
  assert (∀ fs1 final fs2,
            Cli.stages_before_commit tools plan png500 settings fs = (Ok tt, fs1) →
            Fsops.atomic_commit plan fs1 = (Ok final, fs2) →
            final = target plan ∧ fs2 !! target plan = Some old ∧
            is_Some (fs2 !! temp_path plan)) as Hcommit.
  { intros fs1 final fs2 Hst Hc.
    assert (fs1 !! target plan = Some old) as Hold1
      by by rewrite (stages_frame _ _ _ _ _ _ _ _ Hst).
    destruct (stages_Ok_cover _ _ _ _ _ _ Hst) as (f & _ & _ & _ & Hf & _).
    revert Hc. unfold Fsops.atomic_commit, bind, Os.exists_.
    rewrite bool_decide_eq_true_2 by by rewrite Hold1.
    rewrite Hskip. intros [= <- <-]. by rewrite Hf. }
  destruct (process_one_run tools os plan art src_image png500 settings fs)
    as [| |final fs1 fs2 Hst Hc Hguard|final fs1 fs2 fs3 Hst Hc Hguard Hd|];
    try done.
  - destruct (Hcommit _ _ _ Hst Hc) as (-> & Ht & Hf).
    simpl. by rewrite !cleanup_frame.
  - destruct (Hcommit _ _ _ Hst Hc) as (-> & Ht & Hf).
    apply guard_apart in Hguard.
    apply delete_source_cases in Hd as [[_ ->]|(e & [=] & _)].
    simpl. rewrite !cleanup_frame by done.
    by rewrite !lookup_delete_ne.
Qed.

(** The album directory with an MP3 already at the target. *)
Definition album_with_target_fs : FS :=
  <[ ["music"; "a.mp3"] := sample_file 1 ]> album_fs.

Lemma skip_keeps_target_and_temp_witness :
  final_target (Cli.process_one working_tools identity_tree
                  (sample_plan skip hard) sample_art None
                  (Some ["music"; ".~a.0f3c.cover_500.jpg"]) default_settings
                  album_with_target_fs).1
    = Some (target (sample_plan skip hard)) ∧
  (Cli.process_one working_tools identity_tree (sample_plan skip hard)
     sample_art None (Some ["music"; ".~a.0f3c.cover_500.jpg"])
     default_settings album_with_target_fs).2
    !! target (sample_plan skip hard) = Some (sample_file 1) ∧
  is_Some ((Cli.process_one working_tools identity_tree (sample_plan skip hard)
              sample_art None (Some ["music"; ".~a.0f3c.cover_500.jpg"])
              default_settings album_with_target_fs).2
             !! temp_path (sample_plan skip hard)).
Proof.
  apply (skip_keeps_target_and_temp working_tools identity_tree
           (sample_plan skip hard) sample_art None
           (Some ["music"; ".~a.0f3c.cover_500.jpg"]) default_settings
           album_with_target_fs (sample_file 1)).
  - reflexivity.
  - reflexivity.
  - simpl. set_solver.
  - simpl. set_solver.
  - reflexivity.
Defined.

(** X19. The source is deleted only when the outcome says so.  When
    a track is reported with the source deleted, it is a success, the
    source was not an MP3, replacing in place was asked for, and the
    source is gone; in every other outcome, failures included, the
    source file is the one it was, unless it is itself the final path
    the track was committed to. *)
Theorem source_deleted_only_when_reported tools os plan art src_image png500
    settings fs :
  src plan ∉ temp_path plan :: omap id [src_image; png500] →
  if deleted (Cli.process_one tools os plan art src_image png500 settings fs).1
  then
    success (Cli.process_one tools os plan art src_image png500 settings fs).1
      = true ∧
    replace_in_place settings = true ∧
    Str.lower (src_codec plan) ≠ "mp3" ∧
    (Cli.process_one tools os plan art src_image png500 settings fs).2
      !! src plan = None
  else
    final_target (Cli.process_one tools os plan art src_image png500 settings fs).1
      = Some (src plan) ∨
    (Cli.process_one tools os plan art src_image png500 settings fs).2
      !! src plan = fs !! src plan.
Proof.
  intros Hsrc. pose proof Hsrc as Hsrc'.
  apply not_elem_of_cons in Hsrc' as [Hst Hart].
  destruct (process_one_run tools os plan art src_image png500 settings fs)
    as [e fs1 Hstages|e fs1 fs2 Hstages Hc|final fs1 fs2 Hstages Hc Hguard|
        final fs1 fs2 fs3 Hstages Hc Hguard Hd|
        final e fs1 fs2 fs3 Hstages Hc Hguard Hd]; simpl.
  - right. rewrite on_failure_frame by done. by eapply stages_frame.
  - right. rewrite on_failure_frame by done.
    apply atomic_commit_Raise in Hc as ->. by eapply stages_frame.
  - destruct (decide (final = src plan)) as [->|Hne]; [by left|right].
    rewrite cleanup_frame by done.
    rewrite (atomic_commit_frame _ _ _ _ _ Hc) by done. by eapply stages_frame.
  - pose proof Hguard as Hfacts. unfold deletes_source in Hfacts.
    apply andb_true_iff in Hfacts as [[Hmp3 Hrip]%andb_true_iff _].
    split_and!; [done..| |].
    + intros Heq. by rewrite Heq in Hmp3.
    + apply cleanup_paths_absent.
      apply delete_source_cases in Hd as [[_ ->]|(e & [=] & _)].
      apply lookup_delete_eq.
  - right. apply guard_apart in Hguard.
    rewrite on_failure_frame by done.
    apply delete_source_cases in Hd as [[[=] _]|(e' & _ & ->)].
    rewrite (atomic_commit_frame _ _ _ _ _ Hc) by done. by eapply stages_frame.
Qed.

Lemma source_deleted_only_when_reported_witness :
  if deleted (Cli.process_one working_tools identity_tree
                (sample_plan overwrite hard) sample_art None
                (Some ["music"; ".~a.0f3c.cover_500.jpg"]) default_settings
                album_fs).1
  then
    success (Cli.process_one working_tools identity_tree
               (sample_plan overwrite hard) sample_art None
               (Some ["music"; ".~a.0f3c.cover_500.jpg"]) default_settings
               album_fs).1 = true ∧
    replace_in_place default_settings = true ∧
    Str.lower (src_codec (sample_plan overwrite hard)) ≠ "mp3" ∧
    (Cli.process_one working_tools identity_tree (sample_plan overwrite hard)
       sample_art None (Some ["music"; ".~a.0f3c.cover_500.jpg"])
       default_settings album_fs).2 !! src (sample_plan overwrite hard) = None
  else
    final_target (Cli.process_one working_tools identity_tree
                    (sample_plan overwrite hard) sample_art None
                    (Some ["music"; ".~a.0f3c.cover_500.jpg"]) default_settings
                    album_fs).1 = Some (src (sample_plan overwrite hard)) ∨
    (Cli.process_one working_tools identity_tree (sample_plan overwrite hard)
       sample_art None (Some ["music"; ".~a.0f3c.cover_500.jpg"])
       default_settings album_fs).2 !! src (sample_plan overwrite hard)
    = album_fs !! src (sample_plan overwrite hard).
Proof.
  apply (source_deleted_only_when_reported working_tools identity_tree
           (sample_plan overwrite hard) sample_art None
           (Some ["music"; ".~a.0f3c.cover_500.jpg"]) default_settings album_fs).
  simpl. set_solver.
Defined.

(** X20. What is committed has passed the cover check: unless the
    policy [skip] met an existing target, the file at the final path of
    a track reported as done holds exactly one cover, a JPEG of 500 by
    500 pixels. *)
Theorem committed_file_has_cover tools os plan art src_image png500 settings
    fs (final : Path) :
  final_target (Cli.process_one tools os plan art src_image png500 settings fs).1
    = Some final →
  plan_collision plan ≠ skip ∨
    (fs !! target plan = None ∧ target plan ≠ temp_path plan) →
  final ∉ omap id [src_image; png500] →
  one_cover 500 "JPEG"
    (Cli.process_one tools os plan art src_image png500 settings fs).2 final.
Proof.
  intros Hfinal Hpol Hart.
  assert (∀ fs1 fs2,
            Cli.stages_before_commit tools plan png500 settings fs = (Ok tt, fs1) →
            Fsops.atomic_commit plan fs1 = (Ok final, fs2) →
            ∃ f tags fr im,
              fs2 !! final = Some f ∧ id3 f = Some tags ∧
              Mutagen.getall "APIC" tags = [fr] ∧
              Mutagen.frame_data fr = Some im ∧
              im_size im = (500, 500)%Z ∧ im_format im = "JPEG") as Hcommit.
  { intros fs1 fs2 Hst Hc.
    destruct (stages_Ok_cover _ _ _ _ _ _ Hst)
      as (f & tags & fr & im & Hf & Htags & Hall & Hdata & Hsize & Hfmt).
    apply atomic_commit_cases in Hc
      as [(Hskip & Hex & _ & _)|[(e & [=] & _)|(final' & f' & [= <-] & Hf' & ->)]].
    - destruct Hpol as [?|[Hnone Hne]]; [done|].
      rewrite (stages_frame _ _ _ _ _ _ _ _ Hst Hne), Hnone in Hex.
      by destruct Hex.
    - exists f, tags, fr, im. rewrite lookup_insert_eq.
      split_and!; [congruence|done..]. }
  destruct (process_one_run tools os plan art src_image png500 settings fs)
    as [| |final' fs1 fs2 Hst Hc Hguard|final' fs1 fs2 fs3 Hst Hc Hguard Hd|];
    try done; simpl in Hfinal; injection Hfinal as ->.
  - destruct (Hcommit _ _ Hst Hc) as (f & tags & fr & im & Hf & Hrest).
    exists f, tags, fr, im. by rewrite cleanup_frame.
  - destruct (Hcommit _ _ Hst Hc) as (f & tags & fr & im & Hf & Hrest).
    exists f, tags, fr, im. rewrite cleanup_frame by done.
    apply guard_apart in Hguard.
    apply delete_source_cases in Hd as [[_ ->]|(e & [=] & _)].
    by rewrite lookup_delete_ne.
Qed.

Lemma committed_file_has_cover_witness :
  one_cover 500 "JPEG"
    (Cli.process_one working_tools identity_tree (sample_plan overwrite hard)
       sample_art None (Some ["music"; ".~a.0f3c.cover_500.jpg"])
       default_settings album_fs).2 ["music"; "a.mp3"].
Proof.
  apply (committed_file_has_cover working_tools identity_tree
           (sample_plan overwrite hard) sample_art None
           (Some ["music"; ".~a.0f3c.cover_500.jpg"]) default_settings album_fs).
  - reflexivity.
  - left. discriminate.
  - simpl. set_solver.
Defined.

(** The stages of a copied track leave at the temp path a file with the
    audio of the source. *)
Lemma stages_copy_payload tools plan png500 settings fs fs1 :
  needs_encode plan = false →
  Cli.stages_before_commit tools plan png500 settings fs = (Ok tt, fs1) →
  ∃ sf f,
    fs !! src plan = Some sf ∧ fs1 !! temp_path plan = Some f ∧
    payload f = payload sf.
Proof.
  intros Hcopy. unfold Cli.stages_before_commit. rewrite Hcopy.
  intros ([] & f1 & Hcp & Hst)%bind_Ok_inv.
  apply bind_Ok_inv in Hst as (src_tags & f2 & Hread & Hst).
  apply bind_Ok_inv in Hst as ([] & f3 & Hwrite & Hst).
  apply bind_Ok_inv in Hst as ([] & f4 & Hdur & Hst).
  apply bind_Ok_inv in Hst as ([] & f5 & Hbr & Hst).
  apply only_writes_nil in Hst as ->; [|apply only_writes_validate_id3].
  apply only_writes_nil in Hbr as ->; [|apply only_writes_validate_bitrate].
  apply only_writes_nil in Hdur as ->; [|apply only_writes_validate_duration].
  apply only_writes_nil in Hread as ->; [|apply only_writes_read_source_tags].
  unfold Transcode.copy_mp3_to_temp, Os.copy2 in Hcp.
  destruct (fs !! src plan) as [sf|] eqn:Hsf; [|done].
  destruct (decide (src plan = temp_path plan)); [done|]. injection Hcp as <-.
  apply write_id3_cases in Hwrite
    as [(e & [=] & _)|(tf & tags' & _ & Htf & -> & _)].
  rewrite lookup_insert_eq in Htf. injection Htf as <-.
  eexists sf, _. split_and!; [done|apply lookup_insert_eq|done].
Qed.

(** X21. An MP3 source is not encoded again: for a plan without
    encode, unless the policy [skip] met an existing target, the file at
    the final path of a track reported as done has the audio of the
    source file, byte for byte. *)
Theorem copied_track_keeps_audio tools os plan art src_image png500 settings
    fs (final : Path) :
  needs_encode plan = false →
  final_target (Cli.process_one tools os plan art src_image png500 settings fs).1
    = Some final →
  plan_collision plan ≠ skip ∨
    (fs !! target plan = None ∧ target plan ≠ temp_path plan) →
  final ∉ omap id [src_image; png500] →
  ∃ sf f,
    fs !! src plan = Some sf ∧
    (Cli.process_one tools os plan art src_image png500 settings fs).2
      !! final = Some f ∧
    payload f = payload sf.
Proof.
  intros Hcopy Hfinal Hpol Hart.
  assert (∀ fs1 fs2,
            Cli.stages_before_commit tools plan png500 settings fs = (Ok tt, fs1) →
            Fsops.atomic_commit plan fs1 = (Ok final, fs2) →
            ∃ sf f, fs !! src plan = Some sf ∧ fs2 !! final = Some f ∧
                    payload f = payload sf) as Hcommit.
  { intros fs1 fs2 Hst Hc.
    destruct (stages_copy_payload _ _ _ _ _ _ Hcopy Hst) as (sf & f & Hsf & Hf & Hpay).
    apply atomic_commit_cases in Hc
      as [(Hskip & Hex & _ & _)|[(e & [=] & _)|(final' & f' & [= <-] & Hf' & ->)]].
    - destruct Hpol as [?|[Hnone Hne]]; [done|].
      rewrite (stages_frame _ _ _ _ _ _ _ _ Hst Hne), Hnone in Hex.
      by destruct Hex.
    - exists sf, f. rewrite lookup_insert_eq. split_and!; [done|congruence|done]. }
  destruct (process_one_run tools os plan art src_image png500 settings fs)
    as [| |final' fs1 fs2 Hst Hc Hguard|final' fs1 fs2 fs3 Hst Hc Hguard Hd|];
    try done; simpl in Hfinal; injection Hfinal as ->.
  - destruct (Hcommit _ _ Hst Hc) as (sf & f & Hsf & Hf & Hpay).
    exists sf, f. by rewrite cleanup_frame.
  - destruct (Hcommit _ _ Hst Hc) as (sf & f & Hsf & Hf & Hpay).
    exists sf, f. rewrite cleanup_frame by done.
    apply guard_apart in Hguard.
    apply delete_source_cases in Hd as [[_ ->]|(e & [=] & _)].
    by rewrite lookup_delete_ne.
Qed.

(** An MP3 with its tags, the normalized cover beside it. *)
Definition mp3_plan (policy : CollisionPolicy) : TrackPlan :=
  {| src := ["music"; "b.mp3"];
     src_codec := "mp3";
     needs_encode := false;
     target := ["music"; "b.mp3"];
     temp_path := ["music"; ".~b.77aa.tmp"];
     plan_delete_mode := trash;
     plan_collision := policy;
     plan_sample_rate := sr_44100;
     notes := ["will copy audio (already MP3)"] |}.

Definition mp3_file : File :=
  {| id3 := Some {[ "TIT2" := TextFrame "Old title" ]};
     filetags := Some {[ "title" := PList [PStr "Sinnerman"] ]};
     picture := None; payload := [11%N; 12%N] |}.

Definition mp3_fs : FS :=
  <[ ["music"; "b.mp3"] := mp3_file ]>
  {[ ["music"; ".~b.77aa.cover_500.jpg"] := cover_file "JPEG" 500 ]}.

Lemma copied_track_keeps_audio_witness :
  ∃ sf f,
    mp3_fs !! src (mp3_plan overwrite) = Some sf ∧
    (Cli.process_one working_tools identity_tree (mp3_plan overwrite)
       sample_art None (Some ["music"; ".~b.77aa.cover_500.jpg"])
       default_settings mp3_fs).2 !! ["music"; "b.mp3"] = Some f ∧
    payload f = payload sf.
Proof.
  apply (copied_track_keeps_audio working_tools identity_tree
           (mp3_plan overwrite) sample_art None
           (Some ["music"; ".~b.77aa.cover_500.jpg"]) default_settings mp3_fs).
  - reflexivity.
  - reflexivity.
  - left. discriminate.
  - simpl. set_solver.
Defined.

Lemma _versioned_name_Ok (path chosen : Path) fs fs' :
  Fsops._versioned_name path fs = (Ok chosen, fs') →
  fs' = fs ∧ fs !! chosen = None.
Proof.
  destruct (decide (PurePath.name path = "")) as [Hname|Hname].
  - unfold Fsops._versioned_name, Fsops._versioned_loop, Fsops.candidate,
      PurePath.with_name.
    destruct (size fs); by rewrite decide_True.
  - destruct (_versioned_name_spec fs path Hname) as (k & _ & -> & Hfree & _).
    by intros [= <- <-].
Qed.

(** Under another policy than [overwrite], a commit leaves an existing
    target as it is. *)
Lemma atomic_commit_keeps_target plan fs final fs' :
  Fsops.atomic_commit plan fs = (Ok final, fs') →
  plan_collision plan ≠ overwrite →
  is_Some (fs !! target plan) →
  target plan ≠ temp_path plan →
  fs' !! target plan = fs !! target plan ∧
  (final = target plan → plan_collision plan = skip).
Proof.
  intros Hc Hpol Hex Hne. revert Hc.
  unfold Fsops.atomic_commit, bind at 1, Os.exists_.
  rewrite bool_decide_eq_true_2 by done.
  destruct (plan_collision plan) eqn:Hp; [done| |].
  - by intros [= <- <-].
  - unfold bind at 1.
    destruct (Fsops._versioned_name (target plan) fs) as [[chosen|e] fs1] eqn:Hvn;
      [|done].
    apply _versioned_name_Ok in Hvn as [-> Hfree].
    intros [(f & Hf & [= Heq] & ->)|(_ & [=] & _)]%place_inv. subst final.
    assert (chosen ≠ target plan) as Hother.
    { intros ->. rewrite Hfree in Hex. by destruct Hex. }
    split; [|done]. by rewrite lookup_insert_ne, lookup_delete_ne.
Qed.

(** X22. An MP3 is retagged in place only under the policy
    [overwrite]: for a plan whose target is its source, an MP3 that
    exists, a track reported as done under [skip] or [version] leaves
    the source file as it was and does not report it deleted; unless
    the policy is [skip], the tagged copy goes to another path. *)
Theorem in_place_only_under_overwrite tools os plan art src_image png500
    settings fs :
  target plan = src plan →
  Str.lower (src_codec plan) = "mp3" →
  plan_collision plan ≠ overwrite →
  is_Some (fs !! src plan) →
  src plan ∉ temp_path plan :: omap id [src_image; png500] →
  success (Cli.process_one tools os plan art src_image png500 settings fs).1
    = true →
  (Cli.process_one tools os plan art src_image png500 settings fs).2 !! src plan
    = fs !! src plan ∧
  deleted (Cli.process_one tools os plan art src_image png500 settings fs).1
    = false ∧
  (plan_collision plan = skip ∨
   final_target (Cli.process_one tools os plan art src_image png500 settings fs).1
     ≠ Some (src plan)).
Proof.
  intros Hin Hmp3 Hpol Hex Hsrc Hok.
  apply not_elem_of_cons in Hsrc as [Hst Hart].
  assert (∀ final, deletes_source os plan settings final = false) as Hguard.
  { intros final. unfold deletes_source. by rewrite Hmp3. }
  destruct (process_one_run tools os plan art src_image png500 settings fs)
    as [| |final fs1 fs2 Hstages Hc _|final fs1 fs2 fs3 Hstages Hc Hg|];
    try done; [|by rewrite Hguard in Hg].
  simpl. rewrite cleanup_frame by done.
  assert (fs1 !! src plan = fs !! src plan) as Hfs1 by by eapply stages_frame.
  destruct (atomic_commit_keeps_target plan fs1 final fs2 Hc Hpol)
    as [Hkept Hfinal]; [by rewrite Hin, Hfs1|by rewrite Hin|].
  rewrite Hin in Hkept, Hfinal. split_and!; [congruence|done|].
  destruct (decide (final = src plan)) as [Heq|Hne]; [left; auto|right].
  by intros [= ->].
Qed.

Lemma in_place_only_under_overwrite_witness :
  (Cli.process_one working_tools identity_tree (mp3_plan version)
     sample_art None (Some ["music"; ".~b.77aa.cover_500.jpg"])
     default_settings mp3_fs).2 !! src (mp3_plan version)
    = mp3_fs !! src (mp3_plan version) ∧
  deleted (Cli.process_one working_tools identity_tree (mp3_plan version)
             sample_art None (Some ["music"; ".~b.77aa.cover_500.jpg"])
             default_settings mp3_fs).1 = false ∧
  (plan_collision (mp3_plan version) = skip ∨
   final_target (Cli.process_one working_tools identity_tree (mp3_plan version)
                   sample_art None (Some ["music"; ".~b.77aa.cover_500.jpg"])
                   default_settings mp3_fs).1
     ≠ Some (src (mp3_plan version))).
Proof.
  apply (in_place_only_under_overwrite working_tools identity_tree
           (mp3_plan version) sample_art None
           (Some ["music"; ".~b.77aa.cover_500.jpg"]) default_settings mp3_fs).
  - reflexivity.
  - reflexivity.
  - discriminate.
  - by eexists.
  - simpl. set_solver.
  - reflexivity.
Defined.

End track_outcomes.
